(** * geoApi symbology: renderer matching, legend enhancement, zoom levels

    A shallow embedding of [src/symbology.js].  JavaScript numbers are IEEE
    binary64 values (Rocq's primitive [float]); objects used as maps are
    [gmap]s keyed by strings; arrays are lists; [undefined] is [None] (or
    [JUndefined] where a value of any primitive type may stand); a thrown
    [TypeError] and the settlement of a promise are explicit results. *)

From Stdlib Require Import ZArith List Lia Floats Ascii String DecimalString.
From stdpp Require Import base option list strings gmap.

Local Open Scope Z_scope.

(** ** JavaScript primitives

    The attribute values of a feature are primitives: strings, numbers,
    booleans, [null], or [undefined] for a property that is absent. *)

Inductive jsval :=
| JUndefined
| JNull
| JBool (b : bool)
| JNum (x : float)
| JStr (s : string).

(** *** Number to string and string to number

    [Number::toString] (radix 10) and the numeric reading of a decimal
    literal, with exact integer arithmetic and one final rounding to
    nearest-even. *)

Module Numeric.

(** The binary64 value nearest to [num / den] ([num >= 0], [den > 0]): the
    quotient is taken with at least 64 significant bits and a sticky bit. *)
Definition round_ratio (neg : bool) (num den : Z) : float :=
  if num =? 0 then (if neg then PrimFloat.neg_zero else PrimFloat.zero)
  else
    let t := Z.max 0 (66 + Z.log2 den - Z.log2 num) in
    let q := (num * 2 ^ t) / den in
    let r := (num * 2 ^ t) mod den in
    let m := 2 * q + (if r =? 0 then 0 else 1) in
    SF2Prim (binary_normalize prec emax (if neg then - m else m) (- t - 1) false).

(** The binary64 value of [s * 10 ^ p]. *)
Definition float_of_decimal (neg : bool) (s p : Z) : float :=
  if 0 <=? p then round_ratio neg (s * 10 ^ p) 1
  else round_ratio neg s (10 ^ (- p)).

Definition digits_of_Z (z : Z) : string :=
  NilZero.string_of_uint (N.to_uint (Z.to_N z)).

Fixpoint zeros (n : nat) : string :=
  match n with O => EmptyString | S n => String "0" (zeros n) end.

(** The least [n], searching upwards from [start], with [num / den < 10 ^ n]. *)
Fixpoint magnitude_from (fuel : nat) (num den start : Z) : Z :=
  match fuel with
  | O => start
  | S fuel =>
      if (if 0 <=? start then num <? den * 10 ^ start
          else num * 10 ^ (- start) <? den)
      then start
      else magnitude_from fuel num den (start + 1)
  end.

Definition magnitude (num den : Z) : Z :=
  magnitude_from 8 num den ((Z.log2 num - Z.log2 den) * 30103 / 100000 - 2).

(** The candidates with [k] digits next to [num / den], as pairs [(s, n)]
    standing for [s * 10 ^ (n - k)], the nearer one first. *)
Definition candidates (num den n k : Z) : list (Z * Z) :=
  let '(N, D) := if 0 <=? n - k then (num, den * 10 ^ (n - k))
                 else (num * 10 ^ (k - n), den) in
  let lo := N / D in
  let r := N mod D in
  let norm s := if s =? 10 ^ k then (10 ^ (k - 1), n + 1) else (s, n) in
  let lo_ok := 10 ^ (k - 1) <=? lo in
  let c_lo := if lo_ok then [(lo, n)] else [] in
  let c_hi := [norm (lo + 1)] in
  if (2 * r <? D) || ((2 * r =? D) && Z.even lo) then c_lo ++ c_hi
  else c_hi ++ c_lo.

Definition reads_back (x : float) (k : Z) (c : Z * Z) : bool :=
  PrimFloat.eqb (float_of_decimal false (fst c) (snd c - k)) x.

(** The shortest digit string that reads back as [x]: [(s, n, k)]. *)
Fixpoint shortest_from (fuel : nat) (x : float) (num den n k : Z) : Z * Z * Z :=
  match fuel with
  | O => (0, 0, 1)
  | S fuel =>
      match List.find (reads_back x k) (candidates num den n k) with
      | Some (s, n') => (s, n', k)
      | None => shortest_from fuel x num den n (k + 1)
      end
  end.

Definition layout (s n k : Z) : string :=
  let ds := digits_of_Z s in
  if (k <=? n) && (n <=? 21) then ds +:+ zeros (Z.to_nat (n - k))
  else if (0 <? n) && (n <=? 21) then
    substring 0 (Z.to_nat n) ds +:+ "." +:+ substring (Z.to_nat n) (Z.to_nat (k - n)) ds
  else if (-6 <? n) && (n <=? 0) then
    "0." +:+ zeros (Z.to_nat (- n)) +:+ ds
  else
    let e := n - 1 in
    let es := (if e <? 0 then "-" else "+") +:+ digits_of_Z (Z.abs e) in
    if k =? 1 then ds +:+ "e" +:+ es
    else substring 0 1 ds +:+ "." +:+ substring 1 (Z.to_nat (k - 1)) ds +:+ "e" +:+ es.

Definition number_to_string (x : float) : string :=
  match Prim2SF x with
  | S754_nan => "NaN"
  | S754_zero _ => "0"
  | S754_infinity sg => if sg then "-Infinity" else "Infinity"
  | S754_finite sg m e =>
      let '(num, den) := if 0 <=? e then (Zpos m * 2 ^ e, 1) else (Zpos m, 2 ^ (- e)) in
      let '(s, n, k) := shortest_from 17 (abs x) num den (magnitude num den) 1 in
      (if sg then "-" else "") +:+ layout s n k
  end.

(** *** [parseFloat] on a string: the longest prefix that is a decimal
    literal, after leading white space (the ASCII white space and line
    terminators). *)

Definition is_digit (c : ascii) : bool :=
  let n := nat_of_ascii c in (48 <=? n)%nat && (n <=? 57)%nat.

Definition is_space (c : ascii) : bool :=
  let n := nat_of_ascii c in
  (n =? 32)%nat || ((9 <=? n)%nat && (n <=? 13)%nat).

Fixpoint span_digits (l : list ascii) : list ascii * list ascii :=
  match l with
  | c :: r =>
      if is_digit c then let '(d, r') := span_digits r in (c :: d, r')
      else ([], l)
  | [] => ([], [])
  end.

Definition digits_value (d : list ascii) : Z :=
  fold_left (fun acc c => 10 * acc + (Z.of_nat (nat_of_ascii c) - 48)) d 0.

Fixpoint is_prefix (p l : list ascii) : bool :=
  match p, l with
  | [], _ => true
  | a :: p', b :: l' => Ascii.eqb a b && is_prefix p' l'
  | _ :: _, [] => false
  end.

Definition exponent_part (l : list ascii) : Z :=
  match l with
  | c :: r =>
      if Ascii.eqb c "e" || Ascii.eqb c "E" then
        let '(sg, r') :=
          match r with
          | s :: r' =>
              if Ascii.eqb s "-" then (true, r')
              else if Ascii.eqb s "+" then (false, r') else (false, r)
          | [] => (false, r)
          end in
        let v := digits_value (fst (span_digits r')) in
        if sg then - v else v
      else 0
  | [] => 0
  end.

Definition unsigned_literal (neg : bool) (l : list ascii) : float :=
  if is_prefix (list_ascii_of_string "Infinity") l
  then (if neg then neg_infinity else infinity)
  else
    let '(ip, r1) := span_digits l in
    let '(fp, r2) :=
      match r1 with
      | c :: r => if Ascii.eqb c "." then span_digits r else ([], r1)
      | [] => ([], r1)
      end in
    match ip, fp with
    | [], [] => nan
    | _, _ =>
        float_of_decimal neg (digits_value (ip ++ fp))
          (exponent_part r2 - Z.of_nat (length fp))
    end.

Fixpoint drop_spaces (l : list ascii) : list ascii :=
  match l with
  | c :: r => if is_space c then drop_spaces r else l
  | [] => []
  end.

Definition string_to_number_prefix (s : string) : float :=
  match drop_spaces (list_ascii_of_string s) with
  | c :: r =>
      if Ascii.eqb c "-" then unsigned_literal true r
      else if Ascii.eqb c "+" then unsigned_literal false r
      else unsigned_literal false (c :: r)
  | [] => nan
  end.

End Numeric.

(** [ToString] of a primitive, as string concatenation applies it. *)
Definition ToString (v : jsval) : string :=
  match v with
  | JUndefined => "undefined"
  | JNull => "null"
  | JBool b => if b then "true" else "false"
  | JNum x => Numeric.number_to_string x
  | JStr s => s
  end.

(** [v.toString()]: a property access on [undefined] or [null] throws. *)
Definition toString_method (v : jsval) : option string :=
  match v with
  | JUndefined | JNull => None
  | _ => Some (ToString v)
  end.

(** The global [parseFloat]: its argument is first converted to a string. *)
Definition parseFloat (v : jsval) : float :=
  Numeric.string_to_number_prefix (ToString v).

(** JavaScript truthiness of an optional string ([if (renderer.field2)]):
    [undefined] and the empty string are falsy. *)
Definition truthy_string (o : option string) : bool :=
  match o with
  | Some s => negb (String.eqb s "")
  | None => false
  end.

(** A property name taken from an optional string: [o[undefined]] reads the
    property named "undefined". *)
Definition prop_key (o : option string) : string := default "undefined" o.

(** The names that every object inherits from [Object.prototype]. *)
Definition prototype_members : list string :=
  [ "constructor"; "hasOwnProperty"; "isPrototypeOf"; "propertyIsEnumerable";
    "toLocaleString"; "toString"; "valueOf"; "__proto__";
    "__defineGetter__"; "__defineSetter__"; "__lookupGetter__"; "__lookupSetter__" ].

Definition inherited (name : string) : bool :=
  existsb (String.eqb name) prototype_members.

(** [attributes[name]] on the own properties of the object: an absent
    property reads as [undefined].  For a name in [prototype_members] that
    the object does not have itself, the source reads the inherited member
    instead; what depends on a property being absent is stated for names
    that are not [inherited]. *)
Definition attr_get (attributes : gmap string jsval) (name : string) : jsval :=
  default JUndefined (attributes !! name).

(** A function body either returns or throws a [TypeError]. *)
Inductive completion (A : Type) :=
| Return (a : A)
| ThrowTypeError.
Arguments Return {A} a.
Arguments ThrowTypeError {A}.

#[global] Instance completion_bind : MBind completion :=
  fun A B k c =>
    match c with
    | Return a => k a
    | ThrowTypeError => ThrowTypeError
    end.

(** [Array.prototype.find] with the element's index passed to the callback. *)
Fixpoint find_from {A} (p : A -> nat -> bool) (i : nat) (l : list A) : option A :=
  match l with
  | [] => None
  | a :: l' => if p a i then Some a else find_from p (S i) l'
  end.

Definition array_find {A} (p : A -> nat -> bool) (l : list A) : option A :=
  find_from p 0 l.

(** Every element of a list is related to the next one. *)
Fixpoint chain {A} (R : A -> A -> bool) (l : list A) : bool :=
  match l with
  | a :: (b :: _) as rest => R a b && chain R rest
  | _ => true
  end.

(** ** Data model *)

(** Server JSON, for the ESRI symbol objects carried by a renderer. *)
#[local] Unset Elimination Schemes.
Inductive json :=
| JsonNull
| JsonBool (b : bool)
| JsonNum (x : float)
| JsonStr (s : string)
| JsonArr (items : list json)
| JsonObj (props : list (string * json)).
#[local] Set Elimination Schemes.

(** An svg.js drawing, [draw.svg()] being its markup: icons are compared as
    drawings (the element ids svg.js numbers its nodes with are left out). *)
Inductive svg_node :=
| SvgImage (href : string)
| SvgMarkup (code : string).

Record svgdoc := {
  svg_width : Z;
  svg_height : Z;
  svg_viewbox : option (Z * Z * Z * Z);
  svg_body : list svg_node }.

Definition SIMPLE : string := "simple".
Definition UNIQUE_VALUE : string := "uniqueValue".
Definition CLASS_BREAKS : string := "classBreaks".

Definition CONTAINER_SIZE : Z := 32.

Record uniqueValueInfo := {
  uvi_value : string;
  uvi_label : option string;
  uvi_symbol : option json;
  uvi_svgcode : option svgdoc }.

Record classBreakInfo := {
  cbi_classMaxValue : float;
  cbi_label : option string;
  cbi_symbol : option json;
  cbi_svgcode : option svgdoc }.

(** A renderer in server JSON form, with the [svgcode] properties that
    [enhanceRenderer] adds.  An absent [minValue] is NaN, which is what the
    comparison and the subtraction make of [undefined]. *)
Record renderer := {
  r_type : string;
  r_label : option string;
  r_symbol : option json;
  r_svgcode : option svgdoc;
  r_field1 : option string;
  r_field2 : option string;
  r_field3 : option string;
  r_defaultLabel : option string;
  r_defaultSymbol : option json;
  r_defaultsvgcode : option svgdoc;
  r_uniqueValueInfos : list uniqueValueInfo;
  r_field : option string;
  r_minValue : float;
  r_classBreakInfos : list classBreakInfo }.

(** ** Matching a feature against a renderer *)

Module Matcher.

(** [{ svgcode, symbol }]; [ri_symbol] is [Some (JsonObj [])] for [{}]. *)
Record renderInfo := {
  ri_svgcode : option svgdoc;
  ri_symbol : option json }.

(** [svgjs(document.createElement('div')).size(CONTAINER_SIZE, CONTAINER_SIZE).svg()] *)
Definition empty_container : svgdoc :=
  {| svg_width := CONTAINER_SIZE; svg_height := CONTAINER_SIZE;
     svg_viewbox := None; svg_body := [] |}.

(** [v === null ? '' : v] *)
Definition null_to_empty (v : jsval) : jsval :=
  match v with
  | JNull => JStr ""
  | _ => v
  end.

(** [if (typeof v !== 'string') { v = v.toString(); }] *)
Definition stringified (v : jsval) : completion string :=
  match v with
  | JStr s => Return s
  | _ => match toString_method v with
         | Some s => Return s
         | None => ThrowTypeError
         end
  end.

(** The key of the graphic in a unique value renderer
    ([case UNIQUE_VALUE], up to the search). *)
Definition graphicKey (attributes : gmap string jsval) (r : renderer)
  : completion string :=
  graphicKey1 ←
    stringified (null_to_empty (attr_get attributes (prop_key (r_field1 r))));
  if truthy_string (r_field2 r) then
    let graphicKey2 :=
      (graphicKey1 +:+ ", ") +:+ ToString (attr_get attributes (prop_key (r_field2 r))) in
    if truthy_string (r_field3 r) then
      Return ((graphicKey2 +:+ ", ")
                +:+ ToString (attr_get attributes (prop_key (r_field3 r))))
    else Return graphicKey2
  else Return graphicKey1.

(** The switch on [renderer.type]: the chosen [svgcode] and [symbol], and
    what was written to the console. *)
Definition chooseNode (attributes : gmap string jsval) (r : renderer)
  : completion (renderInfo * list string) :=
  if String.eqb (r_type r) SIMPLE then
    Return ({| ri_svgcode := r_svgcode r; ri_symbol := r_symbol r |}, [])
  else if String.eqb (r_type r) UNIQUE_VALUE then
    key ← graphicKey attributes r;
    match List.find (fun uvi => String.eqb (uvi_value uvi) key) (r_uniqueValueInfos r) with
    | Some uvi =>
        Return ({| ri_svgcode := uvi_svgcode uvi; ri_symbol := uvi_symbol uvi |}, [])
    | None =>
        Return ({| ri_svgcode := r_defaultsvgcode r; ri_symbol := r_defaultSymbol r |}, [])
    end
  else if String.eqb (r_type r) CLASS_BREAKS then
    let gVal := parseFloat (attr_get attributes (prop_key (r_field r))) in
    let lower := r_minValue r in
    let fallback :=
      {| ri_svgcode := r_defaultsvgcode r; ri_symbol := r_defaultSymbol r |} in
    if (gVal <? lower)%float then Return (fallback, [])
    else
      let minSplits :=
        (lower - 1)%float :: List.map cbi_classMaxValue (r_classBreakInfos r) in
      match array_find
              (fun cbi index =>
                 match minSplits !! index with
                 | Some split => (split <? gVal)%float
                 | None => false
                 end && (gVal <=? cbi_classMaxValue cbi)%float)
              (r_classBreakInfos r) with
      | None => Return (fallback, [])
      | Some cbi =>
          Return ({| ri_svgcode := cbi_svgcode cbi; ri_symbol := cbi_symbol cbi |}, [])
      end
  else
    Return ({| ri_svgcode := None; ri_symbol := Some (JsonObj []) |},
            ["Unknown renderer type encountered - " +:+ r_type r]).

(** [searchRenderer]: the switch, then the empty graphic for an undefined
    [svgcode]. *)
Definition searchRenderer (attributes : gmap string jsval) (r : renderer)
  : completion (renderInfo * list string) :=
  '(node, console) ← chooseNode attributes r;
  let svgcode :=
    match ri_svgcode node with
    | None => Some empty_container
    | Some code => Some code
    end in
  Return ({| ri_svgcode := svgcode; ri_symbol := ri_symbol node |}, console).

Definition getGraphicIcon (attributes : gmap string jsval) (r : renderer)
  : completion (option svgdoc) :=
  '(renderInfo, _) ← searchRenderer attributes r;
  Return (ri_svgcode renderInfo).

Definition getGraphicSymbol (attributes : gmap string jsval) (r : renderer)
  : completion (option json) :=
  '(renderInfo, _) ← searchRenderer attributes r;
  Return (ri_symbol renderInfo).

(** *** The matching rules in the words of the specification *)

(** The stringified value of field 1: [null] becomes the empty string. *)
Definition stringify_field1 (v : jsval) : string :=
  match v with
  | JNull => ""
  | _ => ToString v
  end.

(** The composite key in the words of the specification: field 1, then
    [", "] and field 2, then [", "] and field 3, each of the two appended
    when that field is configured. *)
Definition claimed_key (attributes : gmap string jsval) (r : renderer) : string :=
  (stringify_field1 (attr_get attributes (prop_key (r_field1 r)))
   +:+ (if truthy_string (r_field2 r)
        then ", " +:+ ToString (attr_get attributes (prop_key (r_field2 r)))
        else ""))
  +:+ (if truthy_string (r_field3 r)
       then ", " +:+ ToString (attr_get attributes (prop_key (r_field3 r)))
       else "").

(** The composite key with field 3 appended only next to field 2. *)
Definition composite_key (attributes : gmap string jsval) (r : renderer) : string :=
  stringify_field1 (attr_get attributes (prop_key (r_field1 r)))
  +:+ (if truthy_string (r_field2 r)
       then ", " +:+ ToString (attr_get attributes (prop_key (r_field2 r)))
            +:+ (if truthy_string (r_field3 r)
                 then ", " +:+ ToString (attr_get attributes (prop_key (r_field3 r)))
                 else "")
       else "").

(** The pair returned for a chosen icon and symbol. *)
Definition found (svgcode : option svgdoc) (symbol : option json)
  : completion (renderInfo * list string) :=
  Return ({| ri_svgcode := Some (default empty_container svgcode);
             ri_symbol := symbol |}, []).

(** The branches of a class breaks renderer are sorted ascending by upper
    bound. *)
Definition ascending (infos : list classBreakInfo) : bool :=
  chain (fun a b => (a <=? b)%float) (List.map cbi_classMaxValue infos).

(** The upper bounds increase strictly along the branches. *)
Definition strictly_ascending (infos : list classBreakInfo) : bool :=
  chain (fun a b => (a <? b)%float) (List.map cbi_classMaxValue infos).

(** The lower bound of the interval of branch [i]: the upper bound of the
    branch before it, and [minValue - 1] for the first branch. *)
Definition interval_lower (r : renderer) (i : nat) : option float :=
  match i with
  | O => Some (r_minValue r - 1)%float
  | S j => cbi_classMaxValue <$> r_classBreakInfos r !! j
  end.

End Matcher.

(** ** Scale to zoom level *)

Module Zoom.

(** An ESRI level of detail; only its [scale] is read. *)
Record lod := { scale : float }.

(** The outcome of running [getZoomLevel] for a bounded number of passes
    through its loop. *)
Inductive run (A : Type) :=
| Done (a : A)
| Raised
| Unfinished.
Arguments Done {A} a.
Arguments Raised {A}.
Arguments Unfinished {A}.

Record search_state := {
  currentLod : Z;
  lowLod : Z;
  highLod : Z }.

(** [lods[i]] for an integer [i]: [undefined] outside the array. *)
Definition lod_at (lods : list lod) (i : Z) : option lod :=
  if i <? 0 then None else lods !! Z.to_nat i.

(** [Math.ceil(n / 2)] *)
Definition ceil_half (n : Z) : Z := - ((- n) / 2).

(** One pass through the body of [while (!found)]: the state it leaves and
    the value of [found]; [None] when [lods[currentLod]] is [undefined] and
    reading its [scale] throws. *)
Definition loop_body (lods : list lod) (scaleLimit : float) (st : search_state)
  : option (search_state * bool) :=
  match lod_at lods (currentLod st) with
  | None => None
  | Some l =>
      let ge := (scaleLimit <=? scale l)%float in
      let low := if ge then currentLod st else lowLod st in
      let high := if ge then highLod st else currentLod st in
      Some ({| currentLod := (high + low) / 2; lowLod := low; highLod := high |},
            high =? low + 1)
  end.

Fixpoint while_not_found (fuel : nat) (lods : list lod) (scaleLimit : float)
    (st : search_state) : run Z :=
  match fuel with
  | O => Unfinished
  | S fuel =>
      match loop_body lods scaleLimit st with
      | None => Raised
      | Some (st', true) => Done (currentLod st')
      | Some (st', false) => while_not_found fuel lods scaleLimit st'
      end
  end.

(** [getZoomLevel(lods, maxScale)], its loop run for at most [fuel] passes. *)
Definition getZoomLevel (fuel : nat) (lods : list lod) (maxScale : float) : run Z :=
  let scaleLimit := maxScale in
  let len := Z.of_nat (length lods) in
  let st := {| currentLod := ceil_half len; lowLod := 0; highLod := len - 1 |} in
  if (maxScale =? 0)%float then Done (len - 1)
  else while_not_found fuel lods scaleLimit st.

(** The scales do not increase along the list. *)
Definition decreasing (lods : list lod) : bool :=
  chain (fun a b => (scale b <=? scale a)%float) lods.

(** The entry at index [i] has a scale at least the target / it has not. *)
Definition at_least (lods : list lod) (target : float) (i : Z) : Prop :=
  exists l, lod_at lods i = Some l /\ (target <=? scale l)%float = true.

Definition under (lods : list lod) (target : float) (i : Z) : Prop :=
  exists l, lod_at lods i = Some l /\ (target <=? scale l)%float = false.

End Zoom.

(** ** Promises

    A promise is modelled by how it settles; [Pending] is a promise that
    never does. *)

Inductive promise (A : Type) :=
| Fulfilled (a : A)
| Rejected (reason : string)
| Pending.
Arguments Fulfilled {A} a.
Arguments Rejected {A} reason.
Arguments Pending {A}.

(** ** Legends *)

(** What a legend promise is fulfilled with: [{ label, svgcode }]. *)
Record legendData := {
  ld_label : option string;
  ld_svgcode : svgdoc }.

(** A legend item: a promise of legend data; a promise fulfilled with
    [undefined] is [Fulfilled None]. *)
Abbreviation legendItem := (promise (option legendData)).

Record legendLayer := {
  layerId : option Z;
  legend : list legendItem }.

(** A legend in the form of an ESRI REST legend: [{ layers: [...] }]. *)
Record legendObject := { layers : list legendLayer }.

(** ** Attaching legend icons to a renderer *)

Module Enhancer.

(** The state of [legendLookup] and of [Promise.all]: the first rejection
    among the promises derived by [legItem.then(...)], if any. *)
Record join_state := {
  legendLookup : gmap string svgdoc;
  rejection : option string }.

Definition note_rejection (reason : string) (st : join_state) : join_state :=
  {| legendLookup := legendLookup st;
     rejection := match rejection st with
                  | Some r => Some r
                  | None => Some reason
                  end |}.

(** [legendLookup[label] = svgcode]: the lookup is a plain object, and a
    string assigned to [__proto__] reaches the setter of [Object.prototype],
    which ignores it. *)
Definition setLookup (label : string) (svgcode : svgdoc) (lookup : gmap string svgdoc)
  : gmap string svgdoc :=
  if String.eqb label "__proto__" then lookup else <[label := svgcode]> lookup.

(** The callback [data => legendLookup[data.label] = data.svgcode] of legend
    promise [i]; reading [label] of [undefined] throws inside the callback,
    which rejects the derived promise. *)
Definition settle (items : list legendItem) (st : join_state) (i : nat) : join_state :=
  match items !! i with
  | Some (Fulfilled (Some data)) =>
      {| legendLookup := setLookup (prop_key (ld_label data)) (ld_svgcode data)
                           (legendLookup st);
         rejection := rejection st |}
  | Some (Fulfilled None) => note_rejection "TypeError" st
  | Some (Rejected reason) => note_rejection reason st
  | Some Pending | None => st
  end.

(** The order in which the callbacks of the legend promises run (indices
    into the legend).  The callbacks of the promises that are settled
    already when [enhanceRenderer] is called are queued by [then] itself and
    run first, in legend order; the callback of a promise settled later runs
    when that promise settles, so these follow in the order [later] of their
    settling. *)
Definition callbackOrder (settledAtCall : nat -> bool) (later : list nat)
    (items : list legendItem) : list nat :=
  List.filter settledAtCall (seq 0 (length items))
  ++ List.filter (fun i => negb (settledAtCall i)) later.

(** The callbacks run in the order [order], each on its legend promise. *)
Definition settle_all (order : list nat) (items : list legendItem) : join_state :=
  fold_left (settle items) order
    {| legendLookup := ∅; rejection := None |}.

(** Has every legend promise settled and its callback run? *)
Definition all_settled (order : list nat) (items : list legendItem) : bool :=
  forallb (fun i => match items !! i with
                    | Some Pending => false
                    | _ => existsb (Nat.eqb i) order
                    end)
          (seq 0 (length items)).

Definition with_svgcode_uvi (lookup : gmap string svgdoc) (uvi : uniqueValueInfo)
  : uniqueValueInfo :=
  {| uvi_value := uvi_value uvi; uvi_label := uvi_label uvi;
     uvi_symbol := uvi_symbol uvi;
     uvi_svgcode := lookup !! prop_key (uvi_label uvi) |}.

Definition with_svgcode_cbi (lookup : gmap string svgdoc) (cbi : classBreakInfo)
  : classBreakInfo :=
  {| cbi_classMaxValue := cbi_classMaxValue cbi; cbi_label := cbi_label cbi;
     cbi_symbol := cbi_symbol cbi;
     cbi_svgcode := lookup !! prop_key (cbi_label cbi) |}.

(** The switch on [renderer.type] in the [then] of [Promise.all]: the
    renderer as it is left, and the console.  [legendLookup[label]] is read
    on the entries written by the callbacks; for a label in
    [prototype_members] without an entry of its own the source reads the
    inherited member, which [svgcode] has no room for. *)
Definition attachIcons (lookup : gmap string svgdoc) (r : renderer)
  : renderer * list string :=
  let defaultsvgcode :=
    if truthy_string (r_defaultLabel r) then lookup !! prop_key (r_defaultLabel r)
    else r_defaultsvgcode r in
  if String.eqb (r_type r) SIMPLE then
    ({| r_type := r_type r; r_label := r_label r; r_symbol := r_symbol r;
        r_svgcode := lookup !! prop_key (r_label r);
        r_field1 := r_field1 r; r_field2 := r_field2 r; r_field3 := r_field3 r;
        r_defaultLabel := r_defaultLabel r; r_defaultSymbol := r_defaultSymbol r;
        r_defaultsvgcode := r_defaultsvgcode r;
        r_uniqueValueInfos := r_uniqueValueInfos r;
        r_field := r_field r; r_minValue := r_minValue r;
        r_classBreakInfos := r_classBreakInfos r |}, [])
  else if String.eqb (r_type r) UNIQUE_VALUE then
    ({| r_type := r_type r; r_label := r_label r; r_symbol := r_symbol r;
        r_svgcode := r_svgcode r;
        r_field1 := r_field1 r; r_field2 := r_field2 r; r_field3 := r_field3 r;
        r_defaultLabel := r_defaultLabel r; r_defaultSymbol := r_defaultSymbol r;
        r_defaultsvgcode := defaultsvgcode;
        r_uniqueValueInfos := List.map (with_svgcode_uvi lookup) (r_uniqueValueInfos r);
        r_field := r_field r; r_minValue := r_minValue r;
        r_classBreakInfos := r_classBreakInfos r |}, [])
  else if String.eqb (r_type r) CLASS_BREAKS then
    ({| r_type := r_type r; r_label := r_label r; r_symbol := r_symbol r;
        r_svgcode := r_svgcode r;
        r_field1 := r_field1 r; r_field2 := r_field2 r; r_field3 := r_field3 r;
        r_defaultLabel := r_defaultLabel r; r_defaultSymbol := r_defaultSymbol r;
        r_defaultsvgcode := defaultsvgcode;
        r_uniqueValueInfos := r_uniqueValueInfos r;
        r_field := r_field r; r_minValue := r_minValue r;
        r_classBreakInfos := List.map (with_svgcode_cbi lookup) (r_classBreakInfos r) |}, [])
  else (r, ["encountered unsupported renderer type: " +:+ r_type r]).

(** What a call of [enhanceRenderer] leaves behind: the promise it
    returned, the renderer (modified in place), the console. *)
Record enhanced := {
  returned : promise unit;
  renderer_after : renderer;
  console : list string }.

(** [enhanceRenderer(renderer, legend)], the callbacks of the legend
    promises running in the order [order] (see [callbackOrder]).
    [legend.layers[0].legend] throws when there is no layer. *)
Definition enhanceRenderer (order : list nat) (r : renderer) (lg : legendObject)
  : completion enhanced :=
  match layers lg !! 0%nat with
  | None => ThrowTypeError
  | Some layer0 =>
      let st := settle_all order (legend layer0) in
      match rejection st with
      | Some reason =>
          Return {| returned := Rejected reason; renderer_after := r; console := [] |}
      | None =>
          if all_settled order (legend layer0) then
            let '(r', out) := attachIcons (legendLookup st) r in
            Return {| returned := Fulfilled (); renderer_after := r'; console := out |}
          else Return {| returned := Pending; renderer_after := r; console := [] |}
      end
  end.

(** How [Promise.all] over the derived promises settles. *)
Definition joined (order : list nat) (items : list legendItem) : promise unit :=
  match rejection (settle_all order items) with
  | Some reason => Rejected reason
  | None => if all_settled order items then Fulfilled () else Pending
  end.

(** Every branch of the renderer that carries the label of the legend entry
    [d] (and the renderer itself, when simple) has the icon of [d]. *)
Definition receives (r : renderer) (d : legendData) : Prop :=
  (r_type r = SIMPLE -> prop_key (r_label r) = prop_key (ld_label d) ->
   r_svgcode r = Some (ld_svgcode d))
  /\ (r_type r = UNIQUE_VALUE ->
      forall uvi, uvi ∈ r_uniqueValueInfos r ->
                  prop_key (uvi_label uvi) = prop_key (ld_label d) ->
                  uvi_svgcode uvi = Some (ld_svgcode d))
  /\ (r_type r = CLASS_BREAKS ->
      forall cbi, cbi ∈ r_classBreakInfos r ->
                  prop_key (cbi_label cbi) = prop_key (ld_label d) ->
                  cbi_svgcode cbi = Some (ld_svgcode d)).

(** Every legend promise is fulfilled with a legend entry. *)
Definition all_fulfilled (items : list legendItem) : Prop :=
  forall i item, items !! i = Some item -> exists data, item = Fulfilled (Some data).

End Enhancer.

(** ** Symbology of WMS layers *)

Module WMS.

(** [{ name, svgcode }]; [svgcode: null] is [None]. *)
Record symbologyItem := {
  si_name : string;
  si_svgcode : option svgdoc }.

(** What a call leaves behind: the promise returned, the local
    [symbologyItem] object as last written, and the console, each entry
    being the arguments of one call of [console.error]. *)
Record generated := {
  g_promise : promise (option symbologyItem);
  g_item : symbologyItem;
  g_console : list (list string) }.

Section Environment.

(** [shared.convertImagetoDataURL], from a module outside this file: the
    promise it returns for an image URI. *)
Variable convertImagetoDataURL : string -> promise string.

(** The browser loading an image: the size reported by the loader, or the
    error event. *)
Variable loadImage : string -> promise (Z * Z).

(** [svgDrawImage(draw, imageUri)]: [draw.image] adds the image element and
    the promise settles with the [loaded] or the [error] callback; the
    [error] callback rejects and then writes the error to the console. *)
Definition svgDrawImage (draw : svgdoc) (imageUri : string)
  : svgdoc * promise (Z * Z) * list (list string) :=
  ({| svg_width := svg_width draw; svg_height := svg_height draw;
      svg_viewbox := svg_viewbox draw;
      svg_body := svg_body draw ++ [SvgImage imageUri] |},
   loadImage imageUri,
   match loadImage imageUri with
   | Rejected err => [[err]]
   | _ => []
   end).

Definition set_viewbox (draw : svgdoc) (box : Z * Z * Z * Z) : svgdoc :=
  {| svg_width := svg_width draw; svg_height := svg_height draw;
     svg_viewbox := Some box; svg_body := svg_body draw |}.

(** The [catch] handler: it logs the message with the error, writes
    [symbologyItem.svgcode], and returns nothing, so the promise is
    fulfilled with [undefined].  [logged] is what the console held before. *)
Definition on_error (name : string) (draw : svgdoc) (err : string)
    (logged : list (list string)) : generated :=
  {| g_promise := Fulfilled None;
     g_item := {| si_name := name; si_svgcode := Some draw |};
     g_console :=
       logged ++ [["Cannot draw wms legend image; returning empty"; err]] |}.

Definition generateWMSSymbology (name : string) (imageUri : option string)
  : generated :=
  let draw :=
    {| svg_width := CONTAINER_SIZE; svg_height := CONTAINER_SIZE;
       svg_viewbox := Some (0, 0, 0, 0); svg_body := [] |} in
  if truthy_string imageUri then
    match convertImagetoDataURL (default "" imageUri) with
    | Fulfilled dataUri =>
        let '(draw1, loaded, logged) := svgDrawImage draw dataUri in
        match loaded with
        | Fulfilled (width, height) =>
            let item :=
              {| si_name := name;
                 si_svgcode := Some (set_viewbox draw1 (0, 0, width, height)) |} in
            {| g_promise := Fulfilled (Some item); g_item := item; g_console := logged |}
        | Rejected err => on_error name draw1 err logged
        | Pending =>
            {| g_promise := Pending;
               g_item := {| si_name := name; si_svgcode := None |};
               g_console := logged |}
        end
    | Rejected err => on_error name draw err []
    | Pending =>
        {| g_promise := Pending;
           g_item := {| si_name := name; si_svgcode := None |};
           g_console := [] |}
    end
  else
    let item := {| si_name := name; si_svgcode := Some draw |} in
    {| g_promise := Fulfilled (Some item); g_item := item; g_console := [] |}.

End Environment.

End WMS.

(** ** From a renderer to its legend *)

Module Legend.

(** JavaScript truthiness of an optional JSON value ([if (renderer.defaultSymbol)]). *)
Definition truthy_json (o : option json) : bool :=
  match o with
  | None | Some JsonNull => false
  | Some (JsonBool b) => b
  | Some (JsonNum x) => negb ((x =? 0)%float || is_nan x)
  | Some (JsonStr s) => negb (String.eqb s "")
  | Some (JsonArr _) | Some (JsonObj _) => true
  end.

(** The children of a list renderer: objects with a [symbol] and a [label]. *)
Class LegendChild (A : Type) := {
  child_symbol : A -> option json;
  child_label : A -> option string }.

#[global] Instance uvi_child : LegendChild uniqueValueInfo :=
  {| child_symbol := uvi_symbol; child_label := uvi_label |}.

#[global] Instance cbi_child : LegendChild classBreakInfo :=
  {| child_symbol := cbi_symbol; child_label := cbi_label |}.

Section Rasterizer.

(** What [symbolToLegend] does with a symbol object: the call
    [symbolTypes[symbol.type]()], made before any promise exists, and the
    promise chained to its result.  The drawing through svg.js and the DOM
    is kept abstract: for a symbol and a label, the call throws (a type or a
    style outside the tables) or gives the legend promise returned. *)
Variable drawSymbol : json -> option string -> completion legendItem.

(** [symbolToLegend(symbol, label, window)]: reading [type] of a symbol that
    is [undefined] or [null] throws. *)
Definition symbolToLegend (symbol : option json) (label : option string)
  : completion legendItem :=
  match symbol with
  | None | Some JsonNull => ThrowTypeError
  | Some s => drawSymbol s label
  end.

(** [childList.map(child => symbolToLegend(child.symbol, child.label, window))]:
    the children are drawn in order, and the first throw ends the loop. *)
Fixpoint drawChildren {A} `{LegendChild A} (childList : list A)
  : completion (list legendItem) :=
  match childList with
  | [] => Return []
  | child :: rest =>
      item ← symbolToLegend (child_symbol child) (child_label child);
      items ← drawChildren rest;
      Return (item :: items)
  end.

(** The legend entry of the default symbol, with [renderer.defaultLabel || '']. *)
Definition default_entry (r : renderer) : completion legendItem :=
  symbolToLegend (r_defaultSymbol r)
    (if truthy_string (r_defaultLabel r) then r_defaultLabel r else Some "").

Definition scrapeListRenderer {A} `{LegendChild A} (r : renderer) (childList : list A)
  : completion (list legendItem) :=
  legend ← drawChildren childList;
  if truthy_json (r_defaultSymbol r) then
    (* legend.push(...) *)
    entry ← default_entry r;
    Return (legend ++ [entry])
  else Return legend.


End Rasterizer.


End Legend.

(** ** Feature classes ([layer/layerRec/basicFC.js]) *)

Module FeatureClass.

(** [a === b] on primitives. *)
Definition strict_equal (a b : jsval) : bool :=
  match a, b with
  | JUndefined, JUndefined => true
  | JNull, JNull => true
  | JBool x, JBool y => Bool.eqb x y
  | JNum x, JNum y => (x =? y)%float
  | JStr x, JStr y => String.eqb x y
  | _, _ => false
  end.

(** What is read of the ESRI layer of the parent record. *)
Record esriLayer := {
  l_minScale : float;
  l_maxScale : float;
  l_url : option string }.

Record scaleSet := {
  minScale : float;
  maxScale : float }.

Definition getScaleSet (l : esriLayer) : scaleSet :=
  {| minScale := l_minScale l; maxScale := l_maxScale l |}.

Record offScaleResult := {
  offScale : bool;
  zoomIn : bool }.

Definition isOffScale (l : esriLayer) (mapScale : float) : offScaleResult :=
  let scaleSet := getScaleSet l in
  if (mapScale <? maxScale scaleSet)%float && negb (maxScale scaleSet =? 0)%float then
    {| offScale := true; zoomIn := false |}
  else if (minScale scaleSet <? mapScale)%float && negb (minScale scaleSet =? 0)%float then
    {| offScale := true; zoomIn := true |}
  else {| offScale := false; zoomIn := false |}.

(** A field of the layer, as the server describes it. *)
Record field := {
  f_name : string;
  f_type : string;
  f_alias : option string }.

(** A feature; only its attributes are read. *)
Record feature := { attributes : gmap string jsval }.

(** The answer to a data request: [result.fields] and [result.features],
    either of which may be absent. *)
Record response := {
  resp_fields : option (list field);
  resp_features : option (list feature) }.

Record layerData := {
  oidField : option string;
  fields : list field;
  renderer_of : renderer;
  geometryType : string }.

(** [{ features, oidIndex }] *)
Record attribSet := {
  features : list feature;
  oidIndex : gmap string nat }.

(** The layer package shared with the attribute module. *)
Record layerPackage := {
  pkg_layerData : option (promise layerData);
  pkg_attribData : option (promise attribSet);
  loadIsDone : bool }.

(** What a method leaves behind: its result, the layer package, the
    requests it issued and the console. *)
Record outcome (A : Type) := {
  result : A;
  package : layerPackage;
  requests : list string;
  logged : list string }.
Arguments result {A} _.
Arguments package {A} _.
Arguments requests {A} _.
Arguments logged {A} _.

(** The loop [result.fields.every(...)]: the name of the first field of type
    [esriFieldTypeOID], at which the loop breaks. *)
Fixpoint scanOidField (fields : list field) : option string :=
  match fields with
  | [] => None
  | elem :: rest =>
      if String.eqb (f_type elem) "esriFieldTypeOID" then Some (f_name elem)
      else scanOidField rest
  end.

Definition OID : string := "esriFieldTypeOID".

(** [{ type: 'simple' }] *)
Definition simpleRenderer : renderer :=
  {| r_type := SIMPLE; r_label := None; r_symbol := None; r_svgcode := None;
     r_field1 := None; r_field2 := None; r_field3 := None;
     r_defaultLabel := None; r_defaultSymbol := None; r_defaultsvgcode := None;
     r_uniqueValueInfos := []; r_field := None; r_minValue := nan;
     r_classBreakInfos := [] |}.

(** The promise built in [getLayerData] from the request: a callback that
    throws (on absent [fields]) settles nothing. *)
Definition layerDataPromise (request : promise response)
  : promise layerData * list string :=
  match request with
  | Fulfilled res =>
      match resp_fields res with
      | Some fs =>
          (Fulfilled {| oidField := scanOidField fs; fields := fs;
                        renderer_of := simpleRenderer; geometryType := "none" |}, [])
      | None => (Pending, [])
      end
  | Rejected error => (Rejected error, ["error getting layer data"])
  | Pending => (Pending, [])
  end.

(** [getLayerData(webRequest, dataUrl)] *)
Definition getLayerData (pkg : layerPackage) (webRequest : string -> promise response)
    (dataUrl : string) : outcome (promise layerData) :=
  match pkg_layerData pkg with
  | Some cached =>
      {| result := cached; package := pkg; requests := []; logged := [] |}
  | None =>
      let '(p, out) := layerDataPromise (webRequest dataUrl) in
      {| result := p;
         package := {| pkg_layerData := Some p;
                       pkg_attribData := pkg_attribData pkg;
                       loadIsDone := loadIsDone pkg |};
         requests := [dataUrl]; logged := out |}
  end.

(** [res.oidIndex[key] = idx]: a number assigned to [__proto__] reaches the
    setter of [Object.prototype], which ignores it. *)
Definition setIndex (key : string) (idx : nat) (index : gmap string nat)
  : gmap string nat :=
  if String.eqb key "__proto__" then index else <[key := idx]> index.

(** [elem.attributes[oidField].toString()], [None] when it throws. *)
Definition objectKey (oidField : string) (elem : feature) : option string :=
  toString_method (attr_get (attributes elem) oidField).

(** [createAttribSet(oidField, featureData)]: the loop over the features
    with their indices; [toString] of an absent or [null] object id throws. *)
Fixpoint indexFeatures (oidField : string) (featureData : list feature) (idx : nat)
    (index : gmap string nat) : completion (gmap string nat) :=
  match featureData with
  | [] => Return index
  | elem :: rest =>
      match objectKey oidField elem with
      | Some key => indexFeatures oidField rest (S idx) (setIndex key idx index)
      | None => ThrowTypeError
      end
  end.

Definition createAttribSet (oidField : string) (featureData : list feature)
  : completion attribSet :=
  index ← indexFeatures oidField featureData 0 ∅;
  Return {| features := featureData; oidIndex := index |}.

(** [getAttribs(webRequest, dataUrl)], once the request has settled: a
    rejected request deletes [_attribData] from the package. *)
Definition getAttribs (pkg : layerPackage) (webRequest : string -> promise response)
    (dataUrl : string) : outcome (promise attribSet) :=
  match pkg_attribData pkg with
  | Some cached =>
      {| result := cached; package := pkg; requests := []; logged := [] |}
  | None =>
      match webRequest dataUrl with
      | Fulfilled res =>
          let p :=
            match resp_features res with
            | Some fs =>
                match createAttribSet "OBJECTID" fs with
                | Return set => Fulfilled set
                | ThrowTypeError => Pending
                end
            | None => Pending
            end in
          {| result := p;
             package := {| pkg_layerData := pkg_layerData pkg;
                           pkg_attribData := Some p;
                           loadIsDone := true |};
             requests := [dataUrl]; logged := [] |}
      | Rejected error =>
          {| result := Rejected error;
             package := {| pkg_layerData := pkg_layerData pkg;
                           pkg_attribData := None;
                           loadIsDone := loadIsDone pkg |};
             requests := [dataUrl]; logged := ["error getting attribute data"] |}
      | Pending =>
          {| result := Pending;
             package := {| pkg_layerData := pkg_layerData pkg;
                           pkg_attribData := Some Pending;
                           loadIsDone := loadIsDone pkg |};
             requests := [dataUrl]; logged := [] |}
      end
  end.

(** *** Formatted attributes *)

(** A call either returns or throws an error with a message. *)
Inductive called (A : Type) :=
| Returned (a : A)
| Threw (message : string).
Arguments Returned {A} a.
Arguments Threw {A} message.

(** A property of a row: an attribute value, the icon under [rvSymbol], or
    the function installed for a column whose name looks like a call, which
    returns the row's property of that column. *)
Inductive rowval :=
| Attr (v : jsval)
| Icon (svgcode : option svgdoc)
| Getter (column : string).

(** [{ data, title }] *)
Record column := {
  col_data : string;
  col_title : string }.

Record formatted := {
  columns : list column;
  rows : list (gmap string rowval);
  fmt_fields : list field;
  fmt_oidField : option string;
  fmt_oidIndex : gmap string nat;
  fmt_renderer : renderer }.

(** [aData.features[0].attributes.hasOwnProperty(name)]: the method is read
    on the attribute object itself, so that an attribute named
    [hasOwnProperty] shadows it, and calling the value of that attribute
    throws. *)
Definition firstHasAttribute (aData : attribSet) (name : string) : completion bool :=
  match features aData !! 0%nat with
  | None => ThrowTypeError
  | Some first =>
      match attributes first !! "hasOwnProperty" with
      | Some _ => ThrowTypeError
      | None => Return (bool_decide (is_Some (attributes first !! name)))
      end
  end.

(** [lData.fields.filter(...)]: the callback runs once per field. *)
Fixpoint filterFields (aData : attribSet) (fs : list field) : completion (list field) :=
  match fs with
  | [] => Return []
  | f :: rest =>
      keep ← firstHasAttribute aData (f_name f);
      rest' ← filterFields aData rest;
      Return (if keep : bool then f :: rest' else rest')
  end.

(** [{ data: field.name, title: field.alias || field.name }] *)
Definition toColumn (f : field) : column :=
  {| col_data := f_name f;
     col_title := if truthy_string (f_alias f) then default "" (f_alias f)
                  else f_name f |}.

(** The row of a feature: its attributes with [rvInteractive] and then
    [rvSymbol] written into them. *)
Definition formatRow (r : renderer) (f : feature) : completion (gmap string rowval) :=
  let att := <["rvInteractive" := JStr ""]> (attributes f) in
  icon ← Matcher.getGraphicIcon att r;
  Return (<["rvSymbol" := Icon icon]> (Attr <$> att)).

Fixpoint formatRows (r : renderer) (fs : list feature)
  : completion (list (gmap string rowval)) :=
  match fs with
  | [] => Return []
  | f :: rest =>
      row ← formatRow r f;
      rest' ← formatRows r rest;
      Return (row :: rest')
  end.

(** [s.substr(-2) === '()'] and [s.substr(0, s.length - 2)] *)
Definition looksLikeCall (s : string) : bool :=
  String.eqb (substring (String.length s - 2) 2 s) "()".

Definition withoutBrackets (s : string) : string :=
  substring 0 (String.length s - 2) s.

(** One step of [columns.forEach]: the function is written into every row
    under the name without brackets. *)
Definition addGetter (rs : list (gmap string rowval)) (c : column)
  : list (gmap string rowval) :=
  if looksLikeCall (col_data c)
  then List.map (fun r => <[withoutBrackets (col_data c) := Getter (col_data c)]> r) rs
  else rs.

(** Calling the function found under [name] in a row: [this[column]]. *)
Definition callGetter (row : gmap string rowval) (name : string) : option rowval :=
  match row !! name with
  | Some (Getter col) => row !! col
  | _ => None
  end.

(** The callback of [Promise.all(...).then]. *)
Definition formatAttributes (aData : attribSet) (lData : layerData)
  : completion formatted :=
  shown ← filterFields aData (fields lData);
  let columns := List.map toColumn shown in
  rows ← formatRows (renderer_of lData) (features aData);
  Return {| columns := columns;
            rows := fold_left addGetter columns rows;
            fmt_fields := fields lData;
            fmt_oidField := oidField lData;
            fmt_oidIndex := oidIndex aData;
            fmt_renderer := renderer_of lData |}.

(** [Promise.all([a, l])]; when both are rejected, the reason is that of the
    one rejected first. *)
Definition all2 {A B} (aFirst : bool) (a : promise A) (l : promise B)
  : promise (A * B) :=
  match a, l with
  | Fulfilled x, Fulfilled y => Fulfilled (x, y)
  | Rejected e, Rejected e' => Rejected (if aFirst then e else e')
  | Rejected e, _ => Rejected e
  | _, Rejected e => Rejected e
  | _, _ => Pending
  end.

(** The feature class: its layer package and the cached promise. *)
Record featureClass := {
  fc_package : layerPackage;
  fc_formattedAttributes : option (promise formatted) }.

Record formattedOutcome := {
  fo_result : called (promise formatted);
  fo_class : featureClass;
  fo_requests : list string }.

(** The [catch] handler: the cached promise is deleted and an error is
    thrown again, ['ABORTED'] for that very reason. *)
Definition failed (pkg : layerPackage) (reqs : list string) (aborted : bool)
  : formattedOutcome :=
  {| fo_result :=
       Returned (Rejected (if aborted then "ABORTED" else "Attrib loading failed"));
     fo_class := {| fc_package := pkg; fc_formattedAttributes := None |};
     fo_requests := reqs |}.

(** [getFormattedAttributes(webRequest, dataUrl)], once settled.  [webRequest
    0] answers the request of [getAttribs] and [webRequest 1] that of
    [getLayerData].  The rows are the attribute objects of the features,
    written in place; the rows are given in the result, while the attribute
    set kept in the package is left as the request delivered it. *)
Definition getFormattedAttributes (fc : featureClass) (isRaster : bool)
    (attribsFirst : bool) (webRequest : nat -> string -> promise response)
    (dataUrl : string) : formattedOutcome :=
  match fc_formattedAttributes fc with
  | Some cached =>
      {| fo_result := Returned cached; fo_class := fc; fo_requests := [] |}
  | None =>
      if isRaster then
        {| fo_result := Threw "Attempting to get attributes on a raster layer.";
           fo_class := fc; fo_requests := [] |}
      else
        let a := getAttribs (fc_package fc) (webRequest 0%nat) dataUrl in
        let l := getLayerData (package a) (webRequest 1%nat) dataUrl in
        let reqs := requests a ++ requests l in
        match all2 attribsFirst (result a) (result l) with
        | Fulfilled (aData, lData) =>
            match formatAttributes aData lData with
            | Return fmt =>
                {| fo_result := Returned (Fulfilled fmt);
                   fo_class := {| fc_package := package l;
                                  fc_formattedAttributes := Some (Fulfilled fmt) |};
                   fo_requests := reqs |}
            | ThrowTypeError => failed (package l) reqs false
            end
        | Rejected e => failed (package l) reqs (String.eqb e "ABORTED")
        | Pending =>
            {| fo_result := Returned Pending;
               fo_class := {| fc_package := package l;
                              fc_formattedAttributes := Some Pending |};
               fo_requests := reqs |}
        end
  end.

End FeatureClass.

(** ** Legends of map services *)

Module ServerLegend.

(** An entry of a server legend: [{ label, imageData, contentType }]. *)
Record serverEntry := {
  se_label : option string;
  se_imageData : option string;
  se_contentType : option string }.

Record serverLayer := {
  sl_layerId : jsval;
  sl_legend : list serverEntry }.

(** The JSON answer of [{url}/legend]: its layers, and its [error] when the
    server reports one. *)
Record serverLegend := {
  sv_layers : list serverLayer;
  sv_error : option string }.

(** A branch of the mock renderer: [{ label, symbol }], without a [value]. *)
Record mockInfo := {
  mi_label : option string;
  mi_symbol : json }.

(** [{ type: 'uniqueValue', uniqueValueInfos }]: the type is the same in
    every mock renderer and is not recorded. *)
Record mockRenderer := { mr_uniqueValueInfos : list mockInfo }.

(** [{ type: 'esriPMS', imageData, contentType }]; a property holding
    [undefined] is left out of the JSON object. *)
Definition pictureMarker (e : serverEntry) : json :=
  JsonObj ([("type", JsonStr "esriPMS")]
           ++ match se_imageData e with
              | Some d => [("imageData", JsonStr d)]
              | None => []
              end
           ++ match se_contentType e with
              | Some c => [("contentType", JsonStr c)]
              | None => []
              end).

Definition toMockInfo (e : serverEntry) : mockInfo :=
  {| mi_label := se_label e; mi_symbol := pictureMarker e |}.

(** [mapServerLegendToRenderer(serverLegend, layerIndex)]: reading [legend]
    of the layer that was not found throws. *)
Definition mapServerLegendToRenderer (sv : serverLegend) (layerIndex : jsval)
  : completion mockRenderer :=
  match List.find (fun l => FeatureClass.strict_equal (sl_layerId l) layerIndex)
                  (sv_layers sv) with
  | None => ThrowTypeError
  | Some layerLegend =>
      Return {| mr_uniqueValueInfos := List.map toMockInfo (sl_legend layerLegend) |}
  end.

(** [mapServerLegendToRendererAll(serverLegend)] *)
Definition mapServerLegendToRendererAll (sv : serverLegend) : mockRenderer :=
  let layerRenders :=
    List.map (fun layer => List.map toMockInfo (sl_legend layer)) (sv_layers sv) in
  {| mr_uniqueValueInfos := List.concat layerRenders |}.

(** [getMapServerLegend(layerUrl, esriBundle)]: the promise that wraps the
    request, rejected with the [error] of an answer that carries one. *)
Definition getMapServerLegend (request : promise serverLegend) : promise serverLegend :=
  match request with
  | Fulfilled srvResult =>
      if truthy_string (sv_error srvResult)
      then Rejected (default "" (sv_error srvResult))
      else Fulfilled srvResult
  | Rejected error => Rejected error
  | Pending => Pending
  end.

#[global] Instance mock_child : Legend.LegendChild mockInfo :=
  {| Legend.child_symbol := fun i => Some (mi_symbol i);
     Legend.child_label := mi_label |}.

(** What [scrapeListRenderer] reads of the mock renderer besides its
    branches: its [defaultSymbol] and [defaultLabel], both absent. *)
Definition mockDefaults : renderer :=
  {| r_type := UNIQUE_VALUE; r_label := None; r_symbol := None; r_svgcode := None;
     r_field1 := None; r_field2 := None; r_field3 := None;
     r_defaultLabel := None; r_defaultSymbol := None; r_defaultsvgcode := None;
     r_uniqueValueInfos := []; r_field := None; r_minValue := nan;
     r_classBreakInfos := [] |}.

Section Rasterizer.

(** [symbolToLegend] on a picture marker symbol: [esriPMS()] draws nothing
    itself and returns the promise chained to [convertImagetoDataURL], so
    the call gives a legend promise. *)
Variable symbolToLegend : option json -> option string -> legendItem.

Definition drawPicture (symbol : json) (label : option string) : completion legendItem :=
  Return (symbolToLegend (Some symbol) label).

(** [rendererToLegend(fakeRenderer)], called without an index: the switch
    takes the case of a unique value renderer. *)
Definition mockRendererToLegend (m : mockRenderer) : completion legendObject :=
  items ← Legend.scrapeListRenderer drawPicture mockDefaults (mr_uniqueValueInfos m);
  Return {| layers := [ {| layerId := None; legend := items |} ] |}.

(** The promise derived by [then] from what its callback does: a throw
    rejects it. *)
Definition settled (c : completion legendObject) : promise legendObject :=
  match c with
  | Return lg => Fulfilled lg
  | ThrowTypeError => Rejected "TypeError"
  end.

(** [mapServerToLocalLegend(mapServerUrl, layerIndex)]: an omitted index is
    [JUndefined]. *)
Definition mapServerToLocalLegend (request : promise serverLegend) (layerIndex : jsval)
  : promise legendObject :=
  match getMapServerLegend request with
  | Fulfilled serverLegendData =>
      match layerIndex with
      | JUndefined =>
          settled (mockRendererToLegend (mapServerLegendToRendererAll serverLegendData))
      | _ =>
          settled (fakeRenderer ← mapServerLegendToRenderer serverLegendData layerIndex;
                   mockRendererToLegend fakeRenderer)
      end
  | Rejected error => Rejected error
  | Pending => Pending
  end.

End Rasterizer.

End ServerLegend.

(** ** Symbology of a feature class without renderer *)

Module FeatureSymbology.

Section Environment.

Variable symbolToLegend : option json -> option string -> legendItem.

(** [shared.makeSymbologyArray], from a module outside these files. *)
Variable Symbology : Type.
Variable makeSymbologyArray : list legendItem -> Symbology.

(** What [loadSymbology] leaves behind: the promise it returned and the
    value of [this.symbology]. *)
Record loaded := {
  ls_promise : promise unit;
  ls_symbology : option Symbology }.

(** [loadSymbology(mergeAllLayers)] of a feature class with the index [idx]
    (an integer in string format) over the layer [l]; [esriRequest] answers
    the request to the legend of a service. *)
Definition loadSymbology (l : FeatureClass.esriLayer) (idx : string)
    (symbology : option Symbology) (mergeAllLayers : bool)
    (esriRequest : string -> promise ServerLegend.serverLegend)
  : FeatureClass.called loaded :=
  if truthy_string (FeatureClass.l_url l) then
    let url := default "" (FeatureClass.l_url l) in
    let legendIndex := if mergeAllLayers then JUndefined else JStr idx in
    match ServerLegend.mapServerToLocalLegend symbolToLegend
            (esriRequest (url +:+ "/legend")) legendIndex with
    | Fulfilled legendData =>
        match layers legendData !! 0%nat with
        | Some layer0 =>
            FeatureClass.Returned
              {| ls_promise := Fulfilled ();
                 ls_symbology := Some (makeSymbologyArray (legend layer0)) |}
        | None =>
            FeatureClass.Returned
              {| ls_promise := Rejected "TypeError"; ls_symbology := symbology |}
        end
    | Rejected error =>
        FeatureClass.Returned {| ls_promise := Rejected error; ls_symbology := symbology |}
    | Pending =>
        FeatureClass.Returned {| ls_promise := Pending; ls_symbology := symbology |}
    end
  else FeatureClass.Threw "encountered layer with no renderer and no url".

End Environment.

End FeatureSymbology.

(** ** Construction of feature classes and image records *)

Module Records.

(** The configuration of a sublayer, as far as the constructor reads it. *)
Record fcConfig := {
  cfg_name : option string;
  cfg_state : option bool;   (* [config.state.query], [None] without [state] *)
  cfg_extent : option string }.

(** A [BasicFC] as its constructor leaves it; [b_name] is the name handed
    to the constructor of the superclass. *)
Record basicFC (L : Type) := {
  b_name : string;
  b_idx : string;
  b_layerPackage : L;
  b_queryable : bool;
  b_extent : option string }.
Arguments b_name {L} _.
Arguments b_idx {L} _.
Arguments b_layerPackage {L} _.
Arguments b_queryable {L} _.
Arguments b_extent {L} _.

(** [new BasicFC(parent, idx, layerPackage, config)]; [config] is [None]
    when the argument is not given.  [config.name] is read before the
    superclass constructor runs. *)
Definition newBasicFC {L} (idx : string) (layerPackage : L) (config : option fcConfig)
  : completion (basicFC L) :=
  match config with
  | None => ThrowTypeError
  | Some cfg =>
      let name := if truthy_string (cfg_name cfg) then default "" (cfg_name cfg) else "" in
      match cfg_state cfg with
      | None => ThrowTypeError
      | Some query =>
          Return {| b_name := name; b_idx := idx; b_layerPackage := layerPackage;
                    b_queryable := query; b_extent := cfg_extent cfg |}
      end
  end.

(** [ImageRecord.onLoad], after [super.onLoad()] has returned: the feature
    class of index ['0'] is built by [new BasicFC(this, '0', this.config)]. *)
Definition imageRecordOnLoad (config : fcConfig) : completion (basicFC fcConfig) :=
  newBasicFC "0" config None.

End Records.

(** ** Groups without a layer *)

Module FakeGroup.

(** A proxy object, known by its identity. *)
Definition proxy := nat.

Record fakeGroupRecord := {
  _name : string;
  _childProxies : list proxy }.

(** [new FakeGroupRecord(name, childProxies)] *)
Definition newFakeGroupRecord (name : string) (childProxies : option (list proxy))
  : fakeGroupRecord :=
  {| _name := name; _childProxies := default [] childProxies |}.

(** [get visible]: some child proxy has a true [visibility]. *)
Definition visible (visibility : proxy -> bool) (g : fakeGroupRecord) : bool :=
  existsb visibility (_childProxies g).

Definition addChildProxy (g : fakeGroupRecord) (p : proxy) : fakeGroupRecord :=
  {| _name := _name g; _childProxies := _childProxies g ++ [p] |}.

(** [Array.prototype.indexOf]: the first index of [p], or [-1]. *)
Fixpoint indexOf (l : list proxy) (p : proxy) (from : Z) : Z :=
  match l with
  | [] => -1
  | q :: rest => if Nat.eqb q p then from else indexOf rest p (from + 1)
  end.

(** [l.splice(idx, 1)] for an index inside the array. *)
Definition splice1 (l : list proxy) (idx : Z) : list proxy :=
  take (Z.to_nat idx) l ++ drop (S (Z.to_nat idx)) l.

Definition removeChildProxy (g : fakeGroupRecord) (p : proxy) : fakeGroupRecord :=
  let idx := indexOf (_childProxies g) p 0 in
  if -1 <? idx then {| _name := _name g; _childProxies := splice1 (_childProxies g) idx |}
  else g.

End FakeGroup.

(** ** Placeholder symbology *)

Module Placeholder.

(** The two elements drawn by [generatePlaceholderSymbology]. *)
Record rect := {
  rect_width : Z; rect_height : Z;
  rect_cx : Z; rect_cy : Z;
  rect_fill : string }.

Record text := {
  text_content : string;
  text_size : Z;
  text_fill : string;
  text_attr : list (string * string);
  text_cx : Z; text_cy : Z }.

Record drawing := {
  d_width : Z; d_height : Z;
  d_viewbox : Z * Z * Z * Z;
  d_rect : rect;
  d_text : text }.

(** [{ name, svgcode }] *)
Record placeholder := {
  p_name : string;
  p_svgcode : drawing }.

Definition CONTENT_IMAGE_SIZE : Z := 28.
Definition CONTAINER_CENTER : Z := CONTAINER_SIZE / 2.

Section Builtin.

(** [String.prototype.toUpperCase] *)
Variable toUpperCase : string -> string.

(** [generatePlaceholderSymbology(name, colour = '#000')]: [name[0]] of the
    empty string is [undefined], whose [toUpperCase] cannot be read. *)
Definition generatePlaceholderSymbology (name : string) (colour : option string)
  : completion (promise placeholder) :=
  let colour := default "#000" colour in
  match name with
  | EmptyString => ThrowTypeError
  | String first _ =>
      Return (Fulfilled
        {| p_name := name;
           p_svgcode :=
             {| d_width := CONTAINER_SIZE; d_height := CONTAINER_SIZE;
                d_viewbox := (0, 0, CONTAINER_SIZE, CONTAINER_SIZE);
                d_rect := {| rect_width := CONTENT_IMAGE_SIZE;
                             rect_height := CONTENT_IMAGE_SIZE;
                             rect_cx := CONTAINER_CENTER; rect_cy := CONTAINER_CENTER;
                             rect_fill := colour |};
                d_text := {| text_content := toUpperCase (String first EmptyString);
                             text_size := 23;
                             text_fill := "#fff";
                             text_attr := [("font-weight", "bold");
                                           ("font-family", "Roboto")];
                             text_cx := CONTAINER_CENTER;
                             text_cy := CONTAINER_CENTER |} |} |})
  end.

End Builtin.

End Placeholder.

(** ** Sample data *)

Module Samples.

Definition icon (code : string) : svgdoc :=
  {| svg_width := 32; svg_height := 32; svg_viewbox := Some (0, 0, 32, 32);
     svg_body := [SvgMarkup code] |}.

Definition marker (style : string) : json :=
  JsonObj [("type", JsonStr "esriSMS"); ("style", JsonStr style)].

Definition uniqueValueRenderer (field1 field2 field3 : option string)
    (infos : list uniqueValueInfo) : renderer :=
  {| r_type := UNIQUE_VALUE; r_label := None; r_symbol := None; r_svgcode := None;
     r_field1 := field1; r_field2 := field2; r_field3 := field3;
     r_defaultLabel := Some "Other";
     r_defaultSymbol := Some (marker "esriSMSCircle");
     r_defaultsvgcode := Some (icon "<circle/>");
     r_uniqueValueInfos := infos;
     r_field := None; r_minValue := nan; r_classBreakInfos := [] |}.

Definition classBreaksRenderer (field : string) (minValue : float)
    (infos : list classBreakInfo) : renderer :=
  {| r_type := CLASS_BREAKS; r_label := None; r_symbol := None; r_svgcode := None;
     r_field1 := None; r_field2 := None; r_field3 := None;
     r_defaultLabel := None;
     r_defaultSymbol := Some (marker "esriSMSCircle");
     r_defaultsvgcode := Some (icon "<circle/>");
     r_uniqueValueInfos := [];
     r_field := Some field; r_minValue := minValue; r_classBreakInfos := infos |}.

Definition otherRenderer (type : string) : renderer :=
  {| r_type := type; r_label := Some "Heat"; r_symbol := None; r_svgcode := None;
     r_field1 := None; r_field2 := None; r_field3 := None;
     r_defaultLabel := None; r_defaultSymbol := None; r_defaultsvgcode := None;
     r_uniqueValueInfos := [];
     r_field := None; r_minValue := nan; r_classBreakInfos := [] |}.

Definition uvi (value label style : string) : uniqueValueInfo :=
  {| uvi_value := value; uvi_label := Some label;
     uvi_symbol := Some (marker style);
     uvi_svgcode := Some (icon style) |}.

Definition cbi (classMaxValue : float) (label style : string) : classBreakInfo :=
  {| cbi_classMaxValue := classMaxValue; cbi_label := Some label;
     cbi_symbol := Some (marker style);
     cbi_svgcode := Some (icon style) |}.

Definition entry (label code : string) : legendItem :=
  Fulfilled (Some {| ld_label := Some label; ld_svgcode := icon code |}).

Definition legendOf (items : list legendItem) : legendObject :=
  {| layers := [ {| layerId := Some 0; legend := items |} ] |}.

Definition labelled (label : string) : uniqueValueInfo :=
  {| uvi_value := label; uvi_label := Some label;
     uvi_symbol := None; uvi_svgcode := None |}.

End Samples.

(** Sample data of feature classes and services. *)

Module Cases.

Import FeatureClass.

Definition emptyPackage : layerPackage :=
  {| pkg_layerData := None; pkg_attribData := None; loadIsDone := false |}.

Definition featureOf (props : list (string * jsval)) : feature :=
  {| attributes := list_to_map props |}.

Definition sampleFeatures : list feature :=
  [ featureOf [("OBJECTID", JNum 7); ("NAME", JStr "Ottawa")];
    featureOf [("OBJECTID", JNum 9); ("NAME", JStr "Hull")] ].

Definition answer (fs : list field) (feats : list feature) : promise response :=
  Fulfilled {| resp_fields := Some fs; resp_features := Some feats |}.

Definition callFields : list field :=
  [ {| f_name := "OBJECTID"; f_type := "esriFieldTypeOID"; f_alias := None |};
    {| f_name := "area()"; f_type := "esriFieldTypeDouble"; f_alias := Some "Area" |};
    {| f_name := "NOTE"; f_type := "esriFieldTypeString"; f_alias := Some "Note" |};
    {| f_name := "CODE"; f_type := "esriFieldTypeString"; f_alias := Some "" |} ].

(** The second feature has a [NOTE], the first has none. *)
Definition callFeatures : list feature :=
  [ featureOf [("OBJECTID", JNum 7); ("area()", JNum 12); ("CODE", JStr "a")];
    featureOf [("OBJECTID", JNum 9); ("area()", JNum 30); ("NOTE", JStr "n")] ].

Definition callSet : attribSet :=
  {| features := callFeatures; oidIndex := {[ "7" := 0%nat; "9" := 1%nat ]} |}.

Definition callLayerData : layerData :=
  {| oidField := Some "OBJECTID"; fields := callFields;
     renderer_of := simpleRenderer; geometryType := "none" |}.

Definition freshClass : featureClass :=
  {| fc_package := emptyPackage; fc_formattedAttributes := None |}.

Definition sampleFields : list field :=
  [ {| f_name := "NAME"; f_type := "esriFieldTypeString"; f_alias := Some "Name" |};
    {| f_name := "FID"; f_type := "esriFieldTypeOID"; f_alias := None |};
    {| f_name := "OBJECTID"; f_type := "esriFieldTypeOID"; f_alias := Some "" |} ].

Definition legendEntry (label data : string) : ServerLegend.serverEntry :=
  {| ServerLegend.se_label := Some label;
     ServerLegend.se_imageData := Some data;
     ServerLegend.se_contentType := Some "image/png" |}.

Definition sampleLegend : ServerLegend.serverLegend :=
  {| ServerLegend.sv_layers :=
       [ {| ServerLegend.sl_layerId := JNum 0;
            ServerLegend.sl_legend := [legendEntry "Roads" "AAA="] |};
         {| ServerLegend.sl_layerId := JNum 1;
            ServerLegend.sl_legend :=
              [legendEntry "Lakes" "BBB="; legendEntry "Rivers" "CCC="] |} ];
     ServerLegend.sv_error := None |}.

(** A rasterizer that fulfils every legend promise with an empty icon. *)
Definition plainRasterizer (symbol : option json) (label : option string) : legendItem :=
  Fulfilled (Some {| ld_label := label; ld_svgcode := Matcher.empty_container |}).

Definition serviceLayer : esriLayer :=
  {| l_minScale := 0; l_maxScale := 0; l_url := Some "http://maps/service" |}.

End Cases.

(** * Properties *)

(** ** The order of binary64 numbers

    JavaScript's [<], [<=], [>] and [>=] on numbers are the IEEE comparisons:
    every comparison with NaN is false.  The lemmas below are the order facts
    the matching and search arguments rest on; they are derived from the
    specification of the primitive comparisons over [spec_float]. *)

Module FloatOrder.

Ltac cmp_cases :=
  repeat match goal with
  | |- context [Z.compare ?a ?b] =>
      let H := fresh "Hz" in destruct (Z.compare_spec a b) as [H|H|H]
  | H : context [Z.compare ?a ?b] |- _ =>
      let H' := fresh "Hz" in destruct (Z.compare_spec a b) as [H'|H'|H']
  | |- context [Pos.compare_cont Eq ?a ?b] =>
      let H := fresh "Hp" in
      change (Pos.compare_cont Eq a b) with (Pos.compare a b);
      destruct (Pos.compare_spec a b) as [H|H|H]
  | H : context [Pos.compare_cont Eq ?a ?b] |- _ =>
      let H' := fresh "Hp" in
      change (Pos.compare_cont Eq a b) with (Pos.compare a b) in H;
      destruct (Pos.compare_spec a b) as [H'|H'|H']
  end.

Ltac sf_crush :=
  intros;
  repeat match goal with
  | x : spec_float |- _ => destruct x
  | b : bool |- _ => destruct b
  end;
  cbn in *; try discriminate; try tauto; try reflexivity;
  cmp_cases; cbn in *; subst;
  try discriminate; try tauto; try reflexivity; try lia.

Ltac sf_unfold := unfold SFltb, SFleb, SFeqb in *.

Lemma SFltb_trans a b c :
  SFltb a b = true -> SFltb b c = true -> SFltb a c = true.
Proof. sf_unfold. sf_crush. Qed.

Lemma SFleb_trans a b c :
  SFleb a b = true -> SFleb b c = true -> SFleb a c = true.
Proof. sf_unfold. sf_crush. Qed.

Lemma SFltb_leb_trans a b c :
  SFltb a b = true -> SFleb b c = true -> SFltb a c = true.
Proof. sf_unfold. sf_crush. Qed.

Lemma SFleb_ltb_trans a b c :
  SFleb a b = true -> SFltb b c = true -> SFltb a c = true.
Proof. sf_unfold. sf_crush. Qed.

Lemma SFltb_leb a b : SFltb a b = true -> SFleb a b = true.
Proof. sf_unfold. sf_crush. Qed.

Lemma SFltb_not_leb a b : SFltb a b = true -> SFleb b a = false.
Proof. sf_unfold. sf_crush. Qed.

Lemma SFleb_not_ltb a b : SFleb a b = true -> SFltb b a = false.
Proof. sf_unfold. sf_crush. Qed.

Lemma SFleb_refl_l a b : SFleb a b = true -> SFleb a a = true.
Proof. sf_unfold. sf_crush. Qed.

Lemma SFleb_refl_r a b : SFleb a b = true -> SFleb b b = true.
Proof. sf_unfold. sf_crush. Qed.

Lemma SFeqb_leb a b : SFeqb a b = true -> SFleb a b = true.
Proof. sf_unfold. sf_crush. Qed.

Lemma SFeqb_sym a b : SFeqb a b = true -> SFeqb b a = true.
Proof. sf_unfold. sf_crush. Qed.

(** The same facts on primitive floats. *)

Local Open Scope float_scope.

Ltac to_spec := rewrite ?ltb_spec, ?leb_spec, ?FloatAxioms.eqb_spec in *.

Lemma ltb_trans (a b c : float) :
  (a <? b) = true -> (b <? c) = true -> (a <? c) = true.
Proof. to_spec. apply SFltb_trans. Qed.

Lemma leb_trans (a b c : float) :
  (a <=? b) = true -> (b <=? c) = true -> (a <=? c) = true.
Proof. to_spec. apply SFleb_trans. Qed.

Lemma ltb_leb_trans (a b c : float) :
  (a <? b) = true -> (b <=? c) = true -> (a <? c) = true.
Proof. to_spec. apply SFltb_leb_trans. Qed.

Lemma leb_ltb_trans (a b c : float) :
  (a <=? b) = true -> (b <? c) = true -> (a <? c) = true.
Proof. to_spec. apply SFleb_ltb_trans. Qed.

Lemma ltb_leb (a b : float) : (a <? b) = true -> (a <=? b) = true.
Proof. to_spec. apply SFltb_leb. Qed.

Lemma ltb_not_leb (a b : float) : (a <? b) = true -> (b <=? a) = false.
Proof. to_spec. apply SFltb_not_leb. Qed.

Lemma leb_not_ltb (a b : float) : (a <=? b) = true -> (b <? a) = false.
Proof. to_spec. apply SFleb_not_ltb. Qed.

Lemma leb_refl_l (a b : float) : (a <=? b) = true -> (a <=? a) = true.
Proof. to_spec. apply SFleb_refl_l. Qed.

Lemma leb_refl_r (a b : float) : (a <=? b) = true -> (b <=? b) = true.
Proof. to_spec. apply SFleb_refl_r. Qed.

Lemma eqb_leb (a b : float) : (a =? b) = true -> (a <=? b) = true.
Proof. to_spec. apply SFeqb_leb. Qed.

Lemma eqb_sym (a b : float) : (a =? b) = true -> (b =? a) = true.
Proof. to_spec. apply SFeqb_sym. Qed.

End FloatOrder.

(** ** Lists as arrays *)

Section ListFacts.

Context {A : Type}.

Lemma chain_lookup (R : A -> A -> bool) (l : list A) :
  (forall a b c, R a b = true -> R b c = true -> R a c = true) ->
  chain R l = true ->
  forall i j a b, (i < j)%nat -> l !! i = Some a -> l !! j = Some b -> R a b = true.
Proof.
  intros Htrans.
  induction l as [|x l IH]; intros Hc i j a b Hij Hi Hj.
  - discriminate.
  - assert (Hrest : chain R l = true).
    { destruct l as [|y l']; [reflexivity|].
      cbn in Hc. apply andb_true_iff in Hc. apply Hc. }
    destruct j as [|j]; [lia|].
    destruct i as [|i].
    + cbn in Hi, Hj. injection Hi as ->.
      destruct l as [|y l']; [discriminate|].
      cbn in Hc. apply andb_true_iff in Hc. destruct Hc as [Hxy _].
      destruct j as [|j].
      * cbn in Hj. injection Hj as ->. exact Hxy.
      * apply (Htrans a y b Hxy).
        apply (IH Hrest 0%nat (S j) y b); [lia|reflexivity|exact Hj].
    + cbn in Hi, Hj. apply (IH Hrest i j a b); [lia|exact Hi|exact Hj].
Qed.

Lemma find_first (p : A -> bool) (l : list A) (i : nat) (x : A) :
  l !! i = Some x -> p x = true ->
  (forall j y, (j < i)%nat -> l !! j = Some y -> p y = false) ->
  List.find p l = Some x.
Proof.
  revert i. induction l as [|a l IH]; intros i Hi Hp Hbefore.
  - discriminate.
  - destruct i as [|i]; cbn in *.
    + injection Hi as ->. rewrite Hp. reflexivity.
    + rewrite (Hbefore 0%nat a); [|lia|reflexivity].
      apply (IH i); [exact Hi|exact Hp|].
      intros j y Hj Hy. apply (Hbefore (S j) y); [lia|exact Hy].
Qed.

Lemma find_none (p : A -> bool) (l : list A) :
  (forall j y, l !! j = Some y -> p y = false) -> List.find p l = None.
Proof.
  induction l as [|a l IH]; intros Hall; [reflexivity|].
  cbn. rewrite (Hall 0%nat a); [|reflexivity].
  apply IH. intros j y Hy. apply (Hall (S j) y). exact Hy.
Qed.

Lemma find_from_first (p : A -> nat -> bool) (k : nat) (l : list A) (i : nat) (x : A) :
  l !! i = Some x -> p x (k + i)%nat = true ->
  (forall j y, (j < i)%nat -> l !! j = Some y -> p y (k + j)%nat = false) ->
  find_from p k l = Some x.
Proof.
  revert k i. induction l as [|a l IH]; intros k i Hi Hp Hbefore.
  - discriminate.
  - destruct i as [|i]; cbn in *.
    + injection Hi as ->. rewrite Nat.add_0_r in Hp. rewrite Hp. reflexivity.
    + specialize (Hbefore 0%nat a) as H0. rewrite Nat.add_0_r in H0.
      rewrite H0; [|lia|reflexivity].
      apply (IH (S k) i); [exact Hi| |].
      * replace (S k + i)%nat with (k + S i)%nat by lia. exact Hp.
      * intros j y Hj Hy.
        replace (S k + j)%nat with (k + S j)%nat by lia.
        apply Hbefore; [lia|exact Hy].
Qed.

Lemma find_from_none (p : A -> nat -> bool) (k : nat) (l : list A) :
  (forall j y, l !! j = Some y -> p y (k + j)%nat = false) ->
  find_from p k l = None.
Proof.
  revert k. induction l as [|a l IH]; intros k Hall; [reflexivity|].
  cbn. specialize (Hall 0%nat a) as H0. rewrite Nat.add_0_r in H0.
  rewrite H0; [|reflexivity].
  apply IH. intros j y Hy.
  replace (S k + j)%nat with (k + S j)%nat by lia.
  apply Hall. exact Hy.
Qed.

End ListFacts.

(** ** Zoom levels *)

Module ZoomFacts.

Import Zoom.

Local Open Scope float_scope.

Section Search.

Variable lods : list lod.
Variable target : float.

Lemma lod_at_inside (i : Z) :
  (0 <= i < Z.of_nat (length lods))%Z -> exists l, lod_at lods i = Some l.
Proof.
  intros Hi. unfold lod_at.
  destruct (Z.ltb_spec i 0) as [Hneg|_]; [lia|].
  apply lookup_lt_is_Some. lia.
Qed.

Lemma midpoint_bounds (low high : Z) :
  (2 <= high - low)%Z ->
  (low < (high + low) / 2 < high)%Z
  /\ (high + low - 1 <= 2 * ((high + low) / 2) <= high + low)%Z.
Proof. intros Hw. Z.div_mod_to_equations. lia. Qed.

Lemma midpoint_adjacent (low : Z) : ((low + 1 + low) / 2)%Z = low.
Proof. Z.div_mod_to_equations. lia. Qed.

(** The loop from a state whose [currentLod] is the midpoint of an
    interval of width at least 2: it stops within [fuel] passes when the
    width is at most [2 ^ fuel], on the boundary between the entries at
    least the target and those under it. *)
Lemma while_from_midpoint (fuel : nat) :
  forall low high : Z,
    (0 <= low)%Z -> (high < Z.of_nat (length lods))%Z ->
    (2 <= high - low <= 2 ^ Z.of_nat fuel)%Z ->
    at_least lods target low -> under lods target high ->
    exists idx,
      while_not_found fuel lods target
        {| currentLod := (high + low) / 2; lowLod := low; highLod := high |}
      = Done idx
      /\ (low <= idx < high)%Z /\ at_least lods target idx /\ under lods target (idx + 1).
Proof.
  induction fuel as [|fuel IH]; intros low high Hlow Hhigh Hw Hal Hun.
  - change (2 ^ Z.of_nat 0)%Z with 1%Z in Hw. lia.
  - assert (Hpow : (2 ^ Z.of_nat (S fuel) = 2 * 2 ^ Z.of_nat fuel)%Z).
    { rewrite Nat2Z.inj_succ, Z.pow_succ_r by lia. reflexivity. }
    destruct (midpoint_bounds low high) as [Hmid Hmid2]; [lia|].
    set (mid := ((high + low) / 2)%Z) in *.
    destruct (lod_at_inside mid) as [l Hl]; [lia|].
    cbn [while_not_found]. unfold loop_body. cbn [currentLod lowLod highLod].
    rewrite Hl.
    destruct (target <=? scale l) eqn:Hge.
    + destruct (Z.eqb_spec high (mid + 1)) as [Hfound|Hnot].
      * exists mid. cbn [currentLod].
        assert (((high + mid) / 2)%Z = mid) as ->.
        { rewrite Hfound. apply midpoint_adjacent. }
        repeat split; try lia.
        -- exists l. auto.
        -- rewrite <- Hfound. exact Hun.
      * destruct (IH mid high) as (idx & Hrun & Hidx & Hres); try lia.
        -- exists l. auto.
        -- exact Hun.
        -- exists idx. repeat split; try tauto; lia.
    + destruct (Z.eqb_spec mid (low + 1)) as [Hfound|Hnot].
      * exists low. cbn [currentLod].
        assert (((mid + low) / 2)%Z = low) as ->.
        { rewrite Hfound. apply midpoint_adjacent. }
        repeat split; try lia.
        -- exact Hal.
        -- rewrite <- Hfound. exists l. auto.
      * destruct (IH low mid) as (idx & Hrun & Hidx & Hres); try lia.
        -- exact Hal.
        -- exists l. auto.
        -- exists idx. repeat split; try tauto; lia.
Qed.

End Search.

Lemma ceil_half_bounds (n : Z) :
  (3 <= n)%Z ->
  (2 <= ceil_half n <= n - 1)%Z /\ (n <= 2 * ceil_half n <= n + 1)%Z.
Proof. intros Hn. unfold ceil_half. Z.div_mod_to_equations. lia. Qed.

Lemma decreasing_lookup (lods : list lod) (i j : nat) (a b : lod) :
  decreasing lods = true -> (i < j)%nat ->
  lods !! i = Some a -> lods !! j = Some b ->
  (scale b <=? scale a) = true.
Proof.
  intros Hd Hij Hi Hj.
  refine (chain_lookup (fun a b => scale b <=? scale a) lods _ Hd i j a b Hij Hi Hj).
  intros x y z Hxy Hyz. cbn in *. exact (FloatOrder.leb_trans _ _ _ Hyz Hxy).
Qed.

(** A state in which [lowLod] and [highLod] have met on an entry at least
    the target is left unchanged by the loop body, which so never ends. *)
Lemma while_stuck (lods : list lod) (target : float) (i : Z) (l : lod) :
  lod_at lods i = Some l -> (target <=? scale l) = true ->
  forall fuel,
    while_not_found fuel lods target
      {| currentLod := i; lowLod := i; highLod := i |} = Unfinished.
Proof.
  intros Hl Hge fuel. induction fuel as [|fuel IH]; [reflexivity|].
  cbn [while_not_found]. unfold loop_body. cbn [currentLod lowLod highLod].
  rewrite Hl, Hge.
  replace ((i + i) / 2)%Z with i by (Z.div_mod_to_equations; lia).
  destruct (Z.eqb_spec i (i + 1)) as [Habs|_]; [lia|].
  exact IH.
Qed.

(** With three entries whose last one is at least the (nonzero) target,
    [getZoomLevel] does not return, whatever the number of passes. *)
Lemma getZoomLevel_three_entries_loops (a b c : lod) (target : float) :
  (target =? 0) = false -> (target <=? scale c) = true ->
  forall fuel, getZoomLevel fuel [a; b; c] target = Unfinished.
Proof.
  intros Hnz Hge fuel. unfold getZoomLevel. rewrite Hnz.
  destruct fuel as [|fuel]; [reflexivity|].
  cbn [while_not_found]. unfold loop_body. cbn [currentLod lowLod highLod length].
  change (ceil_half (Z.of_nat 3)) with 2%Z.
  change (Z.of_nat 3 - 1)%Z with 2%Z.
  change (lod_at [a; b; c] 2) with (Some c).
  cbv beta iota. rewrite Hge.
  change ((2 + 2) / 2)%Z with 2%Z. change (2 =? 2 + 1)%Z with false.
  apply (while_stuck [a; b; c] target 2 c); [reflexivity|exact Hge].
Qed.

(** C6. With a target scale equal to 0, [getZoomLevel] returns
    [lods.length - 1], the last index of the list, before any pass through
    its loop. *)
Theorem getZoomLevel_zero_scale (fuel : nat) (lods : list lod) (maxScale : float) :
  (maxScale =? 0) = true ->
  getZoomLevel fuel lods maxScale = Done (Z.of_nat (length lods) - 1)%Z.
Proof. intros Hz. unfold getZoomLevel. rewrite Hz. reflexivity. Qed.

(** The instance of the specification:
    [getZoomLevel([{scale:1000},{scale:500},{scale:250},{scale:100}], 0)] is 3. *)
Lemma getZoomLevel_zero_scale_witness :
  getZoomLevel 0
    [ {| scale := 1000 |}; {| scale := 500 |}; {| scale := 250 |}; {| scale := 100 |} ]
    0 = Done 3%Z.
Proof.
  exact (getZoomLevel_zero_scale 0
           [ {| scale := 1000 |}; {| scale := 500 |}; {| scale := 250 |};
             {| scale := 100 |} ] 0 eq_refl).
Defined.

(** Where the search works.  For a list of at least 3 entries with
    decreasing scales and a nonzero target that the first scale reaches and
    the last one does not, [getZoomLevel] returns within [ceil (log2 n)]
    passes through its loop, and what it returns is the index of the last
    entry whose scale is at least the target: the level as close to the
    limit as possible and still above it. *)
Lemma getZoomLevel_last_at_least
    (lods : list lod) (target : float) (first last : lod) :
  (3 <= length lods)%nat ->
  (target =? 0) = false ->
  decreasing lods = true ->
  lods !! 0%nat = Some first -> (target <=? scale first) = true ->
  lods !! (length lods - 1)%nat = Some last -> (target <=? scale last) = false ->
  exists (idx : nat) (l : lod),
    getZoomLevel (Z.to_nat (Z.log2_up (Z.of_nat (length lods)))) lods target
    = Done (Z.of_nat idx)
    /\ lods !! idx = Some l /\ (target <=? scale l) = true
    /\ forall j lj, (idx < j)%nat -> lods !! j = Some lj ->
                   (target <=? scale lj) = false.
Proof.
  intros Hlen Hnz Hdec Hfirst Hfge Hlast Hlge.
  set (n := Z.of_nat (length lods)).
  assert (Hn : (3 <= n)%Z) by (unfold n; lia).
  destruct (ceil_half_bounds n Hn) as [Hc1 Hc2].
  assert (Hlog : (n <= 2 ^ Z.log2_up n)%Z) by (apply Z.log2_up_spec; lia).
  assert (Hlog2 : (2 <= Z.log2_up n)%Z).
  { destruct (Z.le_gt_cases 2 (Z.log2_up n)) as [|Hsmall]; [assumption|].
    assert (2 ^ Z.log2_up n <= 2 ^ 1)%Z
      by (apply Z.pow_le_mono_r; [lia|]; pose proof (Z.log2_up_nonneg n); lia).
    change (2 ^ 1)%Z with 2%Z in *. lia. }
  assert (Hal0 : at_least lods target 0).
  { exists first. split; [exact Hfirst|exact Hfge]. }
  assert (Hunl : under lods target (n - 1)).
  { exists last. split; [|exact Hlge].
    unfold lod_at. destruct (Z.ltb_spec (n - 1) 0) as [|_]; [lia|].
    replace (Z.to_nat (n - 1)) with (length lods - 1)%nat by (unfold n; lia).
    exact Hlast. }
  (* the boundary found by the loop *)
  assert (Hrun : exists idx,
             getZoomLevel (Z.to_nat (Z.log2_up n)) lods target = Done idx
             /\ (0 <= idx < n - 1)%Z
             /\ at_least lods target idx /\ under lods target (idx + 1)).
  { unfold getZoomLevel. rewrite Hnz. fold n.
    destruct (Z.to_nat (Z.log2_up n)) as [|fuel] eqn:Hfuel; [lia|].
    assert (Hpow : (n <= 2 * 2 ^ Z.of_nat fuel)%Z).
    { replace (Z.log2_up n) with (Z.succ (Z.of_nat fuel)) in Hlog by lia.
      rewrite Z.pow_succ_r in Hlog by lia. exact Hlog. }
    destruct (lod_at_inside lods (ceil_half n)) as [l Hl]; [fold n; lia|].
    cbn [while_not_found]. unfold loop_body. cbn [currentLod lowLod highLod].
    rewrite Hl.
    destruct (target <=? scale l) eqn:Hge.
    - assert (Hne : ceil_half n <> (n - 1)%Z).
      { intros Heq. destruct Hunl as (l' & Hl' & Hun').
        rewrite <- Heq, Hl in Hl'. injection Hl' as <-. congruence. }
      destruct (Z.eqb_spec (n - 1) (ceil_half n + 1)) as [Hfound|Hnot].
      + exists (ceil_half n). cbn [currentLod].
        rewrite Hfound at 1. rewrite midpoint_adjacent.
        repeat split; try lia.
        * exists l. auto.
        * rewrite <- Hfound. exact Hunl.
      + destruct (while_from_midpoint lods target fuel (ceil_half n) (n - 1))
          as (idx & Hw & Hidx & Hres); try (fold n; lia).
        * exists l. auto.
        * exact Hunl.
        * exists idx. repeat split; try tauto; lia.
    - destruct (Z.eqb_spec (ceil_half n) (0 + 1)) as [Hfound|Hnot]; [lia|].
      destruct (while_from_midpoint lods target fuel 0 (ceil_half n))
        as (idx & Hw & Hidx & Hres); try (fold n; lia).
      + exact Hal0.
      + exists l. auto.
      + exists idx. repeat split; try tauto; lia. }
  destruct Hrun as (idx & Hrun & Hidx & (l & Hl & Hge) & (l1 & Hl1 & Hun1)).
  unfold lod_at in Hl, Hl1.
  destruct (Z.ltb_spec idx 0) as [|_]; [lia|].
  destruct (Z.ltb_spec (idx + 1) 0) as [|_]; [lia|].
  exists (Z.to_nat idx), l.
  rewrite Z2Nat.id by lia.
  repeat split; [exact Hrun|exact Hl|exact Hge|].
  intros j lj Hj Hlj.
  destruct (decide (j = Z.to_nat (idx + 1))) as [->|Hne].
  - rewrite Hl1 in Hlj. injection Hlj as <-. exact Hun1.
  - destruct (target <=? scale lj) eqn:Hgej; [|reflexivity].
    assert (Hle : (scale lj <=? scale l1) = true).
    { apply (decreasing_lookup lods (Z.to_nat (idx + 1)) j l1 lj Hdec); [lia|exact Hl1|exact Hlj]. }
    rewrite <- Hun1. symmetry.
    exact (FloatOrder.leb_trans _ _ _ Hgej Hle).
Qed.

(** The theorem at the five-entry list of the specification's example. *)
Lemma getZoomLevel_last_at_least_witness :
  exists (idx : nat) (l : lod),
    getZoomLevel 3
      [ {| scale := 1000 |}; {| scale := 500 |}; {| scale := 250 |};
        {| scale := 100 |}; {| scale := 50 |} ] 200
    = Done (Z.of_nat idx)
    /\ [ {| scale := 1000 |}; {| scale := 500 |}; {| scale := 250 |};
         {| scale := 100 |}; {| scale := 50 |} ] !! idx = Some l
    /\ (200 <=? scale l) = true
    /\ forall j lj, (idx < j)%nat ->
         [ {| scale := 1000 |}; {| scale := 500 |}; {| scale := 250 |};
           {| scale := 100 |}; {| scale := 50 |} ] !! j = Some lj ->
         (200 <=? scale lj) = false.
Proof.
  refine (getZoomLevel_last_at_least
            [ {| scale := 1000 |}; {| scale := 500 |}; {| scale := 250 |};
              {| scale := 100 |}; {| scale := 50 |} ] 200
            {| scale := 1000 |} {| scale := 50 |} _ _ _ _ _ _ _).
  - cbn. lia.
  - reflexivity.
  - reflexivity.
  - reflexivity.
  - reflexivity.
  - reflexivity.
  - reflexivity.
Defined.

(** The loop on entries that are all at least the target: [lowLod] climbs
    to [highLod - 1], which is returned; [highLod] never moves. *)
Lemma while_all_at_least (lods : list lod) (target : float) (fuel : nat) :
  forall low high : Z,
    (0 <= low)%Z -> (high < Z.of_nat (length lods))%Z ->
    (2 <= high - low <= 2 ^ Z.of_nat fuel)%Z ->
    (forall i, (low < i < high)%Z -> at_least lods target i) ->
    while_not_found fuel lods target
      {| currentLod := (high + low) / 2; lowLod := low; highLod := high |}
    = Done (high - 1)%Z.
Proof.
  induction fuel as [|fuel IH]; intros low high Hlow Hhigh Hw Hall.
  - change (2 ^ Z.of_nat 0)%Z with 1%Z in Hw. lia.
  - assert (Hpow : (2 ^ Z.of_nat (S fuel) = 2 * 2 ^ Z.of_nat fuel)%Z).
    { rewrite Nat2Z.inj_succ, Z.pow_succ_r by lia. reflexivity. }
    destruct (midpoint_bounds low high) as [Hmid Hmid2]; [lia|].
    set (mid := ((high + low) / 2)%Z) in *.
    destruct (Hall mid ltac:(lia)) as (l & Hl & Hge).
    cbn [while_not_found]. unfold loop_body. cbn [currentLod lowLod highLod].
    rewrite Hl, Hge.
    destruct (Z.eqb_spec high (mid + 1)) as [Hfound|Hnot].
    + cbn [currentLod]. rewrite Hfound at 1. rewrite midpoint_adjacent.
      f_equal. lia.
    + apply IH; try lia. intros i Hi. apply Hall. lia.
Qed.

(** C3 fails on the code.  On decreasing scales, when the last entry's
    scale is at least the (nonzero) target, the last index is the level
    closest to the target and still above it, and [getZoomLevel] does not
    give it: with exactly three entries it never returns, whatever the
    number of passes through its loop, and with four entries or more it
    returns the index before the last one. *)
Theorem getZoomLevel_last_entry_missed (lods : list lod) (target : float) (last : lod) :
  (3 <= length lods)%nat ->
  (target =? 0) = false ->
  decreasing lods = true ->
  lods !! (length lods - 1)%nat = Some last -> (target <=? scale last) = true ->
  (length lods = 3%nat -> forall fuel, getZoomLevel fuel lods target = Unfinished)
  /\ ((4 <= length lods)%nat ->
      getZoomLevel (Z.to_nat (Z.log2_up (Z.of_nat (length lods)))) lods target
      = Done (Z.of_nat (length lods) - 2)%Z).
Proof.
  intros Hlen Hnz Hdec Hlast Hlge. split.
  - intros H3. destruct lods as [|a [|b [|c [|d rest]]]]; try discriminate.
    cbn in Hlast. injection Hlast as <-.
    apply getZoomLevel_three_entries_loops; assumption.
  - intros H4.
    set (n := Z.of_nat (length lods)).
    assert (Hn : (4 <= n)%Z) by (unfold n; lia).
    destruct (ceil_half_bounds n ltac:(lia)) as [Hc1 Hc2].
    assert (Hlog : (n <= 2 ^ Z.log2_up n)%Z) by (apply Z.log2_up_spec; lia).
    assert (Hall : forall i, (0 <= i < n)%Z -> at_least lods target i).
    { intros i Hi. destruct (lod_at_inside lods i Hi) as [l Hl].
      exists l. split; [exact Hl|].
      destruct (decide (Z.to_nat i = (length lods - 1)%nat)) as [Heq|Hne].
      - unfold lod_at in Hl. destruct (Z.ltb_spec i 0); [lia|].
        rewrite Heq, Hlast in Hl. injection Hl as <-. exact Hlge.
      - unfold lod_at in Hl. destruct (Z.ltb_spec i 0); [lia|].
        apply (FloatOrder.leb_trans _ (scale last)); [exact Hlge|].
        apply (decreasing_lookup lods (Z.to_nat i) (length lods - 1) l last Hdec);
          [unfold n in Hi; lia | exact Hl | exact Hlast]. }
    unfold getZoomLevel. rewrite Hnz. fold n.
    destruct (Z.to_nat (Z.log2_up n)) as [|fuel] eqn:Hfuel.
    { assert (Z.log2_up n <= 0)%Z by lia.
      assert (2 ^ Z.log2_up n <= 2 ^ 0)%Z
        by (apply Z.pow_le_mono_r; [lia|]; pose proof (Z.log2_up_nonneg n); lia).
      change (2 ^ 0)%Z with 1%Z in *. lia. }
    assert (Hpow : (n <= 2 * 2 ^ Z.of_nat fuel)%Z).
    { replace (Z.log2_up n) with (Z.succ (Z.of_nat fuel)) in Hlog by lia.
      rewrite Z.pow_succ_r in Hlog by lia. exact Hlog. }
    assert (Hc3 : (ceil_half n <= n - 2)%Z)
      by (unfold ceil_half; Z.div_mod_to_equations; lia).
    destruct (Hall (ceil_half n) ltac:(lia)) as (l & Hl & Hge).
    cbn [while_not_found]. unfold loop_body. cbn [currentLod lowLod highLod].
    rewrite Hl, Hge.
    destruct (Z.eqb_spec (n - 1) (ceil_half n + 1)) as [Hfound|Hnot].
    + cbn [currentLod]. rewrite Hfound at 1. rewrite midpoint_adjacent.
      f_equal. lia.
    + rewrite (while_all_at_least lods target fuel (ceil_half n) (n - 1));
        try (fold n; lia).
      * f_equal. lia.
      * intros i Hi. apply Hall. lia.
Qed.

(** The three scales 1000, 500, 250 with the target 100, and the five scales
    1000, 500, 250, 100, 50 with the target 10, which the last entry reaches:
    no result in the first case, index 3 instead of 4 in the second. *)
Lemma getZoomLevel_last_entry_missed_witness :
  (forall fuel,
     getZoomLevel fuel
       [ {| scale := 1000 |}; {| scale := 500 |}; {| scale := 250 |} ] 100
     = Unfinished)
  /\ getZoomLevel 3
       [ {| scale := 1000 |}; {| scale := 500 |}; {| scale := 250 |};
         {| scale := 100 |}; {| scale := 50 |} ] 10
     = Done 3%Z.
Proof.
  split.
  - exact (proj1 (getZoomLevel_last_entry_missed
                    [ {| scale := 1000 |}; {| scale := 500 |}; {| scale := 250 |} ] 100
                    {| scale := 250 |} (le_n 3) eq_refl eq_refl eq_refl eq_refl) eq_refl).
  - exact (proj2 (getZoomLevel_last_entry_missed
                    [ {| scale := 1000 |}; {| scale := 500 |}; {| scale := 250 |};
                      {| scale := 100 |}; {| scale := 50 |} ] 10
                    {| scale := 50 |} ltac:(cbn; lia) eq_refl eq_refl eq_refl eq_refl)
                 ltac:(cbn; lia)).
Defined.

End ZoomFacts.

(** ** Matching *)

Module MatcherFacts.

Import Matcher.

Local Open Scope float_scope.

(** [graphicKey1] of the source, when it is computed. *)
Lemma first_key (v : jsval) :
  v <> JUndefined -> stringified (null_to_empty v) = Return (stringify_field1 v).
Proof. destruct v; intros Hv; try reflexivity. congruence. Qed.

Lemma append_empty_r (s : string) : s +:+ "" = s.
Proof.
  induction s as [|c s IH]; [reflexivity|].
  change (String c (s +:+ "") = String c s). rewrite IH. reflexivity.
Qed.

Lemma append_assoc (a b c : string) : (a +:+ b) +:+ c = a +:+ (b +:+ c).
Proof.
  induction a as [|x a IH]; [reflexivity|].
  change (String x ((a +:+ b) +:+ c) = String x (a +:+ (b +:+ c))).
  rewrite IH. reflexivity.
Qed.

(** The key built by the source is the composite key. *)
Lemma graphicKey_composite (attributes : gmap string jsval) (r : renderer) :
  attr_get attributes (prop_key (r_field1 r)) <> JUndefined ->
  graphicKey attributes r = Return (composite_key attributes r).
Proof.
  intros Hdef. unfold graphicKey, composite_key.
  rewrite (first_key _ Hdef). cbn [mbind completion_bind].
  destruct (truthy_string (r_field2 r)).
  - destruct (truthy_string (r_field3 r)); cbv beta iota.
    + rewrite !append_assoc. reflexivity.
    + rewrite append_empty_r, !append_assoc. reflexivity.
  - cbv beta iota. rewrite append_empty_r. reflexivity.
Qed.

(** A feature without the attribute named by [field1] makes the key
    computation throw. *)
Lemma graphicKey_undefined (attributes : gmap string jsval) (r : renderer) :
  attr_get attributes (prop_key (r_field1 r)) = JUndefined ->
  graphicKey attributes r = ThrowTypeError.
Proof. intros Hu. unfold graphicKey. rewrite Hu. reflexivity. Qed.

Lemma searchRenderer_chosen attributes r svgcode symbol :
  chooseNode attributes r
  = Return ({| ri_svgcode := svgcode; ri_symbol := symbol |}, []) ->
  searchRenderer attributes r = found svgcode symbol.
Proof.
  intros Hc. unfold searchRenderer, found. rewrite Hc.
  cbn. destruct svgcode; reflexivity.
Qed.

Lemma getGraphic_found attributes r svgcode symbol :
  searchRenderer attributes r = found svgcode symbol ->
  getGraphicIcon attributes r = Return (Some (default empty_container svgcode))
  /\ getGraphicSymbol attributes r = Return symbol.
Proof.
  intros Hs. unfold getGraphicIcon, getGraphicSymbol. rewrite Hs. split; reflexivity.
Qed.

Lemma unique_value_node attributes r key :
  r_type r = UNIQUE_VALUE ->
  graphicKey attributes r = Return key ->
  chooseNode attributes r
  = match List.find (fun uvi => String.eqb (uvi_value uvi) key)
            (r_uniqueValueInfos r) with
    | Some uvi =>
        Return ({| ri_svgcode := uvi_svgcode uvi; ri_symbol := uvi_symbol uvi |}, [])
    | None =>
        Return ({| ri_svgcode := r_defaultsvgcode r;
                   ri_symbol := r_defaultSymbol r |}, [])
    end.
Proof.
  intros Ht Hk. unfold chooseNode. rewrite Ht.
  change (String.eqb UNIQUE_VALUE SIMPLE) with false.
  change (String.eqb UNIQUE_VALUE UNIQUE_VALUE) with true.
  cbv beta iota. rewrite Hk. reflexivity.
Qed.

(** C1, as the code has it.  For a unique value renderer and a feature
    that has a value (possibly [null]) for field 1, the key is field 1
    stringified ([null] giving the empty string), then [", "] and field 2
    when field 2 is configured, then [", "] and field 3 when field 3 is
    configured as well.  [searchRenderer] returns the icon and the symbol of
    the first branch whose value is that key, and the default icon and symbol
    when no branch has it; an icon that is not set is replaced by the empty
    container. *)
Theorem searchRenderer_unique_value (attributes : gmap string jsval) (r : renderer) :
  r_type r = UNIQUE_VALUE ->
  attr_get attributes (prop_key (r_field1 r)) <> JUndefined ->
  (forall i uvi,
      r_uniqueValueInfos r !! i = Some uvi ->
      uvi_value uvi = composite_key attributes r ->
      (forall j uvj, (j < i)%nat -> r_uniqueValueInfos r !! j = Some uvj ->
                     uvi_value uvj <> composite_key attributes r) ->
      searchRenderer attributes r = found (uvi_svgcode uvi) (uvi_symbol uvi)
      /\ getGraphicIcon attributes r
         = Return (Some (default empty_container (uvi_svgcode uvi)))
      /\ getGraphicSymbol attributes r = Return (uvi_symbol uvi))
  /\ ((forall j uvj, r_uniqueValueInfos r !! j = Some uvj ->
                     uvi_value uvj <> composite_key attributes r) ->
      searchRenderer attributes r = found (r_defaultsvgcode r) (r_defaultSymbol r)
      /\ getGraphicIcon attributes r
         = Return (Some (default empty_container (r_defaultsvgcode r)))
      /\ getGraphicSymbol attributes r = Return (r_defaultSymbol r)).
Proof.
  intros Ht Hdef.
  pose proof (unique_value_node attributes r _ Ht
                (graphicKey_composite attributes r Hdef)) as Hnode.
  split.
  - intros i uvi Hi Hval Hfirst.
    assert (Hs : searchRenderer attributes r
                 = found (uvi_svgcode uvi) (uvi_symbol uvi)).
    { apply searchRenderer_chosen. rewrite Hnode.
      rewrite (find_first _ _ i uvi Hi).
      - reflexivity.
      - apply String.eqb_eq. exact Hval.
      - intros j uvj Hj Hlk. apply String.eqb_neq. exact (Hfirst j uvj Hj Hlk). }
    split; [exact Hs|]. apply getGraphic_found. exact Hs.
  - intros Hnone.
    assert (Hs : searchRenderer attributes r
                 = found (r_defaultsvgcode r) (r_defaultSymbol r)).
    { apply searchRenderer_chosen. rewrite Hnode.
      rewrite find_none; [reflexivity|].
      intros j uvj Hlk. apply String.eqb_neq. exact (Hnone j uvj Hlk). }
    split; [exact Hs|]. apply getGraphic_found. exact Hs.
Qed.

(** The theorem at a renderer on two fields: the feature [{ kind: "road",
    lanes: 2 }] has the key ["road, 2"], the value of the second branch. *)
Lemma searchRenderer_unique_value_witness :
  searchRenderer
    {[ "kind" := JStr "road"; "lanes" := JNum 2 ]}
    (Samples.uniqueValueRenderer (Some "kind") (Some "lanes") None
       [ Samples.uvi "road, 1" "Lane" "esriSMSSquare";
         Samples.uvi "road, 2" "Street" "esriSMSCross";
         Samples.uvi "road, 2" "Shadowed" "esriSMSX" ])
  = found (Some (Samples.icon "esriSMSCross")) (Some (Samples.marker "esriSMSCross")).
Proof.
  refine (proj1 (proj1 (searchRenderer_unique_value
            {[ "kind" := JStr "road"; "lanes" := JNum 2 ]}
            (Samples.uniqueValueRenderer (Some "kind") (Some "lanes") None
               [ Samples.uvi "road, 1" "Lane" "esriSMSSquare";
                 Samples.uvi "road, 2" "Street" "esriSMSCross";
                 Samples.uvi "road, 2" "Shadowed" "esriSMSX" ])
            eq_refl _) 1%nat (Samples.uvi "road, 2" "Street" "esriSMSCross") eq_refl _ _)).
  - intros H. vm_compute in H. discriminate H.
  - vm_compute. reflexivity.
  - intros j uvj Hj Hlk.
    destruct j as [|j]; [|lia].
    injection Hlk as <-. intros H. vm_compute in H. discriminate H.
Defined.

(** C1 as stated fails.  With field 3 configured and field 2 not, the key
    of the specification is ["x, z"], the value of the only branch, and the
    default symbol is returned; and for a feature without the attribute of
    field 1 nothing is returned: the call throws. *)
Lemma searchRenderer_unique_value_counterexample :
  (claimed_key {[ "a" := JStr "x"; "c" := JStr "z" ]}
     (Samples.uniqueValueRenderer (Some "a") None (Some "c")
        [ Samples.uvi "x, z" "XZ" "esriSMSSquare" ])
   = uvi_value (Samples.uvi "x, z" "XZ" "esriSMSSquare")
   /\ getGraphicSymbol {[ "a" := JStr "x"; "c" := JStr "z" ]}
        (Samples.uniqueValueRenderer (Some "a") None (Some "c")
           [ Samples.uvi "x, z" "XZ" "esriSMSSquare" ])
      = Return (Some (Samples.marker "esriSMSCircle")))
  /\ searchRenderer {[ "c" := JStr "z" ]}
       (Samples.uniqueValueRenderer (Some "a") None None
          [ Samples.uvi "x" "X" "esriSMSSquare" ])
     = ThrowTypeError.
Proof. vm_compute. repeat split; reflexivity. Qed.

Lemma class_breaks_node attributes r :
  r_type r = CLASS_BREAKS ->
  chooseNode attributes r
  = let gVal := parseFloat (attr_get attributes (prop_key (r_field r))) in
    let fallback :=
      {| ri_svgcode := r_defaultsvgcode r; ri_symbol := r_defaultSymbol r |} in
    if gVal <? r_minValue r then Return (fallback, [])
    else
      match array_find
              (fun cbi index =>
                 match ((r_minValue r - 1) :: List.map cbi_classMaxValue
                                                 (r_classBreakInfos r)) !! index with
                 | Some split => split <? gVal
                 | None => false
                 end && (gVal <=? cbi_classMaxValue cbi))
              (r_classBreakInfos r) with
      | None => Return (fallback, [])
      | Some cbi =>
          Return ({| ri_svgcode := cbi_svgcode cbi; ri_symbol := cbi_symbol cbi |}, [])
      end.
Proof.
  intros Ht. unfold chooseNode. rewrite Ht.
  change (String.eqb CLASS_BREAKS SIMPLE) with false.
  change (String.eqb CLASS_BREAKS UNIQUE_VALUE) with false.
  change (String.eqb CLASS_BREAKS CLASS_BREAKS) with true.
  reflexivity.
Qed.

Lemma minSplits_lookup (r : renderer) (i : nat) :
  ((r_minValue r - 1) :: List.map cbi_classMaxValue (r_classBreakInfos r)) !! i
  = interval_lower r i.
Proof.
  destruct i as [|j]; [reflexivity|].
  change (((cbi_classMaxValue <$> r_classBreakInfos r) !! j)
          = (cbi_classMaxValue <$> r_classBreakInfos r !! j)).
  apply list_lookup_fmap.
Qed.

Lemma ascending_lookup (infos : list classBreakInfo) (i j : nat) (a b : classBreakInfo) :
  ascending infos = true -> (i < j)%nat ->
  infos !! i = Some a -> infos !! j = Some b ->
  (cbi_classMaxValue a <=? cbi_classMaxValue b) = true.
Proof.
  intros Hasc Hij Hi Hj.
  refine (chain_lookup (fun a b => a <=? b) (List.map cbi_classMaxValue infos)
            FloatOrder.leb_trans Hasc i j _ _ Hij _ _).
  - change (List.map cbi_classMaxValue infos) with (cbi_classMaxValue <$> infos).
    rewrite list_lookup_fmap, Hi. reflexivity.
  - change (List.map cbi_classMaxValue infos) with (cbi_classMaxValue <$> infos).
    rewrite list_lookup_fmap, Hj. reflexivity.
Qed.

(** A value equal to the upper bound of branch [i] that passes the guard on
    the minimum and lies above the lower bound of the branch's interval is
    matched to branch [i]: the branches before it end below the value. *)
Lemma class_breaks_at_upper_bound attributes r i cbi lower :
  r_type r = CLASS_BREAKS ->
  ascending (r_classBreakInfos r) = true ->
  let gVal := parseFloat (attr_get attributes (prop_key (r_field r))) in
  r_classBreakInfos r !! i = Some cbi ->
  (gVal =? cbi_classMaxValue cbi) = true ->
  (gVal <? r_minValue r) = false ->
  interval_lower r i = Some lower -> (lower <? gVal) = true ->
  searchRenderer attributes r = found (cbi_svgcode cbi) (cbi_symbol cbi).
Proof.
  intros Ht Hasc gVal Hi Heq Hmin Hlower Habove.
  pose proof (class_breaks_node attributes r Ht) as Hnode.
  cbv zeta in Hnode. fold gVal in Hnode.
  apply searchRenderer_chosen. rewrite Hnode, Hmin.
  unfold array_find.
  rewrite (find_from_first _ 0 _ i cbi Hi); [reflexivity| |].
  - cbn [Nat.add]. rewrite minSplits_lookup, Hlower, Habove.
    rewrite (FloatOrder.eqb_leb _ _ Heq). reflexivity.
  - intros j y Hj Hy. cbn [Nat.add].
    apply andb_false_intro2.
    destruct i as [|i']; [lia|].
    cbn in Hlower. destruct (r_classBreakInfos r !! i') as [prev|] eqn:Hprev;
      [|discriminate]. cbn in Hlower. injection Hlower as <-.
    apply FloatOrder.ltb_not_leb.
    destruct (decide (j = i')) as [->|Hne].
    + rewrite Hprev in Hy. injection Hy as <-. exact Habove.
    + apply (FloatOrder.leb_ltb_trans _ (cbi_classMaxValue prev)); [|exact Habove].
      apply (ascending_lookup (r_classBreakInfos r) j i' y prev Hasc); [lia|exact Hy|exact Hprev].
Qed.

(** C2, as the code has it.  In a class breaks renderer whose branches are
    sorted ascending by upper bound: a value below the minimum gets the
    default; a value equal to the upper bound of a branch gets that branch
    when it is not below the minimum and lies above the lower bound of the
    branch's interval (the previous upper bound, [minValue - 1] for the first
    branch); a value above the last upper bound gets the default. *)
Theorem searchRenderer_class_breaks (attributes : gmap string jsval) (r : renderer) :
  r_type r = CLASS_BREAKS ->
  ascending (r_classBreakInfos r) = true ->
  let gVal := parseFloat (attr_get attributes (prop_key (r_field r))) in
  ((gVal <? r_minValue r) = true ->
   searchRenderer attributes r = found (r_defaultsvgcode r) (r_defaultSymbol r))
  /\ (forall i cbi lower,
        r_classBreakInfos r !! i = Some cbi ->
        (gVal =? cbi_classMaxValue cbi) = true ->
        (gVal <? r_minValue r) = false ->
        interval_lower r i = Some lower -> (lower <? gVal) = true ->
        searchRenderer attributes r = found (cbi_svgcode cbi) (cbi_symbol cbi))
  /\ (forall cbi,
        last (r_classBreakInfos r) = Some cbi ->
        (cbi_classMaxValue cbi <? gVal) = true ->
        searchRenderer attributes r = found (r_defaultsvgcode r) (r_defaultSymbol r)).
Proof.
  intros Ht Hasc gVal.
  pose proof (class_breaks_node attributes r Ht) as Hnode.
  cbv zeta in Hnode. fold gVal in Hnode.
  repeat split.
  - intros Hlow. apply searchRenderer_chosen. rewrite Hnode, Hlow. reflexivity.
  - intros i cbi lower Hi Heq Hmin Hlower Habove.
    exact (class_breaks_at_upper_bound attributes r i cbi lower
             Ht Hasc Hi Heq Hmin Hlower Habove).
  - intros cbi Hlast Habove.
    apply searchRenderer_chosen. rewrite Hnode.
    destruct (gVal <? r_minValue r); [reflexivity|].
    unfold array_find. rewrite find_from_none; [reflexivity|].
    intros j y Hy. apply andb_false_intro2. apply FloatOrder.ltb_not_leb.
    rewrite last_lookup in Hlast.
    destruct (decide (j = Nat.pred (length (r_classBreakInfos r)))) as [->|Hne].
    + rewrite Hlast in Hy. injection Hy as <-. exact Habove.
    + apply (FloatOrder.leb_ltb_trans _ (cbi_classMaxValue cbi)); [|exact Habove].
      apply (ascending_lookup (r_classBreakInfos r) j
               (Nat.pred (length (r_classBreakInfos r))) y cbi Hasc);
        [|exact Hy|exact Hlast].
      apply lookup_lt_Some in Hy. lia.
Qed.

(** The theorem at a renderer with the bounds 10 and 20 over the minimum 0:
    the attribute ["10"] gets the first branch. *)
Lemma searchRenderer_class_breaks_witness :
  searchRenderer {[ "POP" := JStr "10" ]}
    (Samples.classBreaksRenderer "POP" 0
       [ Samples.cbi 10 "low" "esriSMSSquare"; Samples.cbi 20 "high" "esriSMSCross" ])
  = found (Some (Samples.icon "esriSMSSquare")) (Some (Samples.marker "esriSMSSquare")).
Proof.
  refine (proj1 (proj2 (searchRenderer_class_breaks
            {[ "POP" := JStr "10" ]}
            (Samples.classBreaksRenderer "POP" 0
               [ Samples.cbi 10 "low" "esriSMSSquare";
                 Samples.cbi 20 "high" "esriSMSCross" ])
            eq_refl eq_refl))
            0%nat (Samples.cbi 10 "low" "esriSMSSquare") (0 - 1) eq_refl _ _ eq_refl _).
  - vm_compute. reflexivity.
  - vm_compute. reflexivity.
  - vm_compute. reflexivity.
Defined.

(** C2 as stated fails, on branches sorted ascending in each case.  With
    the minimum 10 and the bounds 5 and 20, the value 5 gets the default and
    not the first branch.  With the bounds 10 and 10, the value 10 gets the
    first branch and not the second.  With the minimum 2^54 and the bounds
    2^54 and 2^55, the value 2^54 gets the default: [minValue - 1] is
    [minValue] again. *)
Lemma searchRenderer_class_breaks_counterexample :
  (ascending [ Samples.cbi 5 "low" "esriSMSSquare"; Samples.cbi 20 "high" "esriSMSCross" ]
   = true
   /\ getGraphicSymbol {[ "POP" := JNum 5 ]}
        (Samples.classBreaksRenderer "POP" 10
           [ Samples.cbi 5 "low" "esriSMSSquare"; Samples.cbi 20 "high" "esriSMSCross" ])
      = Return (Some (Samples.marker "esriSMSCircle")))
  /\ (ascending [ Samples.cbi 10 "one" "esriSMSSquare"; Samples.cbi 10 "two" "esriSMSCross" ]
      = true
      /\ getGraphicSymbol {[ "POP" := JNum 10 ]}
           (Samples.classBreaksRenderer "POP" 0
              [ Samples.cbi 10 "one" "esriSMSSquare"; Samples.cbi 10 "two" "esriSMSCross" ])
         = Return (Some (Samples.marker "esriSMSSquare")))
  /\ (ascending [ Samples.cbi 18014398509481984 "low" "esriSMSSquare";
                  Samples.cbi 36028797018963968 "high" "esriSMSCross" ]
      = true
      /\ getGraphicSymbol {[ "POP" := JNum 18014398509481984 ]}
           (Samples.classBreaksRenderer "POP" 18014398509481984
              [ Samples.cbi 18014398509481984 "low" "esriSMSSquare";
                Samples.cbi 36028797018963968 "high" "esriSMSCross" ])
         = Return (Some (Samples.marker "esriSMSCircle"))).
Proof. vm_compute. repeat split; reflexivity. Qed.

Lemma strictly_ascending_lookup (infos : list classBreakInfo) (i j : nat)
    (a b : classBreakInfo) :
  strictly_ascending infos = true -> (i < j)%nat ->
  infos !! i = Some a -> infos !! j = Some b ->
  (cbi_classMaxValue a <? cbi_classMaxValue b) = true.
Proof.
  intros Hasc Hij Hi Hj.
  refine (chain_lookup (fun a b => a <? b) (List.map cbi_classMaxValue infos)
            FloatOrder.ltb_trans Hasc i j _ _ Hij _ _).
  - change (List.map cbi_classMaxValue infos) with (cbi_classMaxValue <$> infos).
    rewrite list_lookup_fmap, Hi. reflexivity.
  - change (List.map cbi_classMaxValue infos) with (cbi_classMaxValue <$> infos).
    rewrite list_lookup_fmap, Hj. reflexivity.
Qed.

Lemma strictly_ascending_ascending (infos : list classBreakInfo) :
  strictly_ascending infos = true -> ascending infos = true.
Proof.
  unfold strictly_ascending, ascending.
  induction (List.map cbi_classMaxValue infos) as [|a l IH]; [reflexivity|].
  destruct l as [|b l]; [reflexivity|].
  cbn. intros H. apply andb_true_iff in H as [Hab Hrest].
  rewrite (FloatOrder.ltb_leb _ _ Hab). exact (IH Hrest).
Qed.

(** On a renderer whose upper bounds increase strictly from a first bound
    that is at least the minimum, and whose minimum is small enough for
    [minValue - 1] to be below it, a value equal to the upper bound of a
    branch always gets that branch. *)
Lemma class_breaks_upper_bound_regular attributes r first i cbi :
  r_type r = CLASS_BREAKS ->
  strictly_ascending (r_classBreakInfos r) = true ->
  r_classBreakInfos r !! 0%nat = Some first ->
  (r_minValue r <=? cbi_classMaxValue first) = true ->
  (r_minValue r - 1 <? r_minValue r) = true ->
  r_classBreakInfos r !! i = Some cbi ->
  (parseFloat (attr_get attributes (prop_key (r_field r))) =? cbi_classMaxValue cbi)
  = true ->
  searchRenderer attributes r = found (cbi_svgcode cbi) (cbi_symbol cbi).
Proof.
  intros Ht Hstrict Hfirst Hmin Hsub Hi Heq.
  set (gVal := parseFloat (attr_get attributes (prop_key (r_field r)))) in *.
  assert (Hle : (cbi_classMaxValue cbi <=? gVal) = true)
    by (apply FloatOrder.eqb_leb, FloatOrder.eqb_sym; exact Heq).
  assert (Hfirst_le : (cbi_classMaxValue first <=? cbi_classMaxValue cbi) = true).
  { destruct i as [|i'].
    - rewrite Hfirst in Hi. injection Hi as <-.
      exact (FloatOrder.leb_refl_l _ _ Hle).
    - apply FloatOrder.ltb_leb.
      apply (strictly_ascending_lookup (r_classBreakInfos r) 0 (S i') first cbi Hstrict);
        [lia|exact Hfirst|exact Hi]. }
  assert (Hmin_le : (r_minValue r <=? gVal) = true).
  { apply (FloatOrder.leb_trans _ (cbi_classMaxValue cbi)); [|exact Hle].
    exact (FloatOrder.leb_trans _ _ _ Hmin Hfirst_le). }
  destruct (interval_lower r i) as [lower|] eqn:Hlower.
  - apply (class_breaks_at_upper_bound attributes r i cbi lower Ht
             (strictly_ascending_ascending _ Hstrict) Hi Heq
             (FloatOrder.leb_not_ltb _ _ Hmin_le) Hlower).
    destruct i as [|i'].
    + cbn in Hlower. injection Hlower as <-.
      exact (FloatOrder.ltb_leb_trans _ _ _ Hsub Hmin_le).
    + cbn in Hlower.
      destruct (r_classBreakInfos r !! i') as [prev|] eqn:Hprev; [|discriminate].
      cbn in Hlower. injection Hlower as <-.
      apply (FloatOrder.ltb_leb_trans _ (cbi_classMaxValue cbi)); [|exact Hle].
      apply (strictly_ascending_lookup (r_classBreakInfos r) i' (S i') prev cbi Hstrict);
        [lia|exact Hprev|exact Hi].
  - exfalso. destruct i as [|i']; [discriminate|].
    cbn in Hlower.
    destruct (lookup_lt_is_Some_2 (r_classBreakInfos r) i') as [prev Hprev].
    { apply lookup_lt_Some in Hi. lia. }
    rewrite Hprev in Hlower. discriminate.
Qed.




(** *** When matching returns, and when it throws *)

(** The only way [searchRenderer] fails: a unique value renderer and a
    feature without the attribute of field 1. *)
Lemma searchRenderer_throws (attributes : gmap string jsval) (r : renderer) :
  searchRenderer attributes r = ThrowTypeError
  <-> r_type r = UNIQUE_VALUE
      /\ attr_get attributes (prop_key (r_field1 r)) = JUndefined.
Proof.
  unfold searchRenderer, chooseNode.
  destruct (String.eqb_spec (r_type r) SIMPLE) as [Hs|Hs].
  { cbn. split; [discriminate|]. intros [Ht _]. rewrite Ht in Hs. discriminate Hs. }
  destruct (String.eqb_spec (r_type r) UNIQUE_VALUE) as [Hu|Hu].
  { destruct (attr_get attributes (prop_key (r_field1 r))) eqn:Hv.
    1: { rewrite (graphicKey_undefined _ _ Hv). cbn. tauto. }
    all: rewrite graphicKey_composite by (rewrite Hv; discriminate); cbn;
        destruct (List.find _ _); cbn; (split; [discriminate|intros [_ H]; discriminate H]).
  }
  destruct (String.eqb_spec (r_type r) CLASS_BREAKS) as [Hc|Hc].
  { split; [|tauto].
    destruct (_ <? _); [cbn; discriminate|].
    destruct (array_find _ _); cbn; discriminate. }
  cbn. split; [discriminate|tauto].
Qed.

(** Whenever [searchRenderer] returns, the icon it returns is defined. *)
Lemma searchRenderer_icon_defined attributes r info out :
  searchRenderer attributes r = Return (info, out) ->
  exists svgcode, ri_svgcode info = Some svgcode.
Proof.
  unfold searchRenderer.
  destruct (chooseNode attributes r) as [[node out']|]; [|discriminate].
  cbn. intros H. injection H as <- _.
  cbn. destruct (ri_svgcode node); eauto.
Qed.

(** A renderer of an unrecognized type: the empty container, the empty
    symbol object, and a warning on the console. *)
Lemma searchRenderer_unknown_type attributes r :
  r_type r <> SIMPLE -> r_type r <> UNIQUE_VALUE -> r_type r <> CLASS_BREAKS ->
  searchRenderer attributes r
  = Return ({| ri_svgcode := Some empty_container; ri_symbol := Some (JsonObj []) |},
            ["Unknown renderer type encountered - " +:+ r_type r]).
Proof.
  intros Hs Hu Hc. unfold searchRenderer, chooseNode.
  apply String.eqb_neq in Hs, Hu, Hc. rewrite Hs, Hu, Hc. reflexivity.
Qed.

(** C4 fails on the code: for a unique value renderer and a feature
    without the attribute of field 1, where field 1 does not name a member
    of [Object.prototype], no pair is returned, neither by [searchRenderer]
    nor to the callers of [getGraphicIcon] and [getGraphicSymbol]: reading
    [toString] of the undefined key value throws. *)
Theorem searchRenderer_missing_attribute_throws
    (attributes : gmap string jsval) (r : renderer) :
  r_type r = UNIQUE_VALUE ->
  attributes !! prop_key (r_field1 r) = None ->
  inherited (prop_key (r_field1 r)) = false ->
  searchRenderer attributes r = ThrowTypeError
  /\ getGraphicIcon attributes r = ThrowTypeError
  /\ getGraphicSymbol attributes r = ThrowTypeError.
Proof.
  intros Ht Hmissing _.
  assert (Hs : searchRenderer attributes r = ThrowTypeError).
  { apply searchRenderer_throws. split; [exact Ht|].
    unfold attr_get. rewrite Hmissing. reflexivity. }
  unfold getGraphicIcon, getGraphicSymbol. rewrite Hs. repeat split.
Qed.

(** The feature [{ NAME: "Elm St" }] against a renderer on the field
    ["TYPE"]. *)
Lemma searchRenderer_missing_attribute_throws_witness :
  searchRenderer {[ "NAME" := JStr "Elm St" ]}
    (Samples.uniqueValueRenderer (Some "TYPE") None None
       [ Samples.uvi "road" "Road" "esriSMSSquare" ])
  = ThrowTypeError
  /\ getGraphicIcon {[ "NAME" := JStr "Elm St" ]}
       (Samples.uniqueValueRenderer (Some "TYPE") None None
          [ Samples.uvi "road" "Road" "esriSMSSquare" ])
     = ThrowTypeError
  /\ getGraphicSymbol {[ "NAME" := JStr "Elm St" ]}
       (Samples.uniqueValueRenderer (Some "TYPE") None None
          [ Samples.uvi "road" "Road" "esriSMSSquare" ])
     = ThrowTypeError.
Proof.
  refine (searchRenderer_missing_attribute_throws
            {[ "NAME" := JStr "Elm St" ]}
            (Samples.uniqueValueRenderer (Some "TYPE") None None
               [ Samples.uvi "road" "Road" "esriSMSSquare" ])
            eq_refl _ eq_refl).
  vm_compute. reflexivity.
Defined.

End MatcherFacts.

(** ** Enhancement *)

Module EnhancerFacts.

Import Enhancer.

Section Settling.

Variable items : list legendItem.

Lemma settle_lookup_other (st : join_state) (i : nat) (k : string) :
  (forall d, items !! i = Some (Fulfilled (Some d)) -> prop_key (ld_label d) <> k) ->
  legendLookup (settle items st i) !! k = legendLookup st !! k.
Proof.
  intros Hk. unfold settle.
  destruct (items !! i) as [[[d|]|reason|]|]; try reflexivity.
  cbn. unfold setLookup. destruct (String.eqb _ "__proto__"); [reflexivity|].
  apply lookup_insert_ne. apply Hk. reflexivity.
Qed.

Lemma fold_lookup_other (order : list nat) (st : join_state) (k : string) :
  (forall pos j d, order !! pos = Some j -> items !! j = Some (Fulfilled (Some d)) ->
                   prop_key (ld_label d) <> k) ->
  legendLookup (fold_left (settle items) order st) !! k = legendLookup st !! k.
Proof.
  revert st. induction order as [|j order IH]; intros st Hk; [reflexivity|].
  cbn [fold_left]. rewrite IH.
  - apply settle_lookup_other. intros d Hd. exact (Hk 0%nat j d eq_refl Hd).
  - intros pos j' d Hpos Hd. exact (Hk (S pos) j' d Hpos Hd).
Qed.

(** The icon kept for a label is that of the entry with this label whose
    callback is the last to run. *)
Lemma fold_lookup_last (order : list nat) (st : join_state) (pos j : nat) (d : legendData) :
  order !! pos = Some j -> items !! j = Some (Fulfilled (Some d)) ->
  prop_key (ld_label d) <> "__proto__" ->
  (forall pos' j' d', (pos < pos')%nat -> order !! pos' = Some j' ->
                      items !! j' = Some (Fulfilled (Some d')) ->
                      prop_key (ld_label d') <> prop_key (ld_label d)) ->
  legendLookup (fold_left (settle items) order st) !! prop_key (ld_label d)
  = Some (ld_svgcode d).
Proof.
  revert st pos. induction order as [|j0 order IH]; intros st pos Hpos Hd Hown Hlater.
  - discriminate.
  - cbn [fold_left]. destruct pos as [|pos].
    + cbn in Hpos. injection Hpos as ->.
      rewrite fold_lookup_other.
      * unfold settle. rewrite Hd. cbn. unfold setLookup.
        apply String.eqb_neq in Hown. rewrite Hown. apply lookup_insert_eq.
      * intros pos' j' d' Hpos' Hd'.
        exact (Hlater (S pos') j' d' ltac:(lia) Hpos' Hd').
    + apply (IH _ pos); [exact Hpos|exact Hd|exact Hown|].
      intros pos' j' d' Hlt Hpos' Hd'.
      exact (Hlater (S pos') j' d' ltac:(lia) Hpos' Hd').
Qed.

Lemma fold_no_rejection (order : list nat) (st : join_state) :
  all_fulfilled items -> rejection st = None ->
  rejection (fold_left (settle items) order st) = None.
Proof.
  intros Hall. revert st. induction order as [|j order IH]; intros st Hst; [exact Hst|].
  cbn [fold_left]. apply IH. unfold settle.
  destruct (items !! j) as [item|] eqn:Hj; [|exact Hst].
  destruct (Hall j item Hj) as [d ->]. exact Hst.
Qed.

Lemma all_settled_true (order : list nat) :
  all_fulfilled items ->
  (forall i, (i < length items)%nat -> i ∈ order) ->
  all_settled order items = true.
Proof.
  intros Hall Hcover. unfold all_settled. apply forallb_forall.
  intros i Hin. apply in_seq in Hin.
  destruct (lookup_lt_is_Some_2 items i ltac:(lia)) as [item Hi].
  rewrite Hi. destruct (Hall i item Hi) as [d ->].
  apply existsb_exists. exists i. split; [|apply Nat.eqb_refl].
  apply list_elem_of_In. apply Hcover. lia.
Qed.

End Settling.

(** With every legend promise fulfilled, [enhanceRenderer] fulfils its
    promise after the switch has run on the lookup. *)
Lemma enhanceRenderer_fulfilled (order : list nat) (r : renderer)
    (lg : legendObject) (layer0 : legendLayer) :
  layers lg !! 0%nat = Some layer0 ->
  all_fulfilled (legend layer0) ->
  (forall i, (i < length (legend layer0))%nat -> i ∈ order) ->
  enhanceRenderer order r lg
  = Return {| returned := Fulfilled ();
              renderer_after :=
                fst (attachIcons (legendLookup (settle_all order (legend layer0))) r);
              console :=
                snd (attachIcons (legendLookup (settle_all order (legend layer0))) r) |}.
Proof.
  intros Hl Hall Hcover. unfold enhanceRenderer. rewrite Hl.
  assert (Hrej : rejection (settle_all order (legend layer0)) = None).
  { unfold settle_all. apply fold_no_rejection; [exact Hall|reflexivity]. }
  rewrite Hrej.
  rewrite (all_settled_true (legend layer0) order Hall Hcover).
  destruct (attachIcons _ r) as [r' out]. reflexivity.
Qed.

(** A rejected legend promise rejects the promise of [enhanceRenderer]
    whatever the type of the renderer, and leaves the renderer as it was. *)
Lemma enhanceRenderer_rejected (order : list nat) (r : renderer)
    (lg : legendObject) (layer0 : legendLayer) (reason : string) :
  layers lg !! 0%nat = Some layer0 ->
  rejection (settle_all order (legend layer0)) = Some reason ->
  enhanceRenderer order r lg
  = Return {| returned := Rejected reason; renderer_after := r; console := [] |}.
Proof. intros Hl Hrej. unfold enhanceRenderer. rewrite Hl, Hrej. reflexivity. Qed.

Lemma attachIcons_type (lookup : gmap string svgdoc) (r : renderer) :
  r_type (fst (attachIcons lookup r)) = r_type r.
Proof.
  unfold attachIcons.
  destruct (String.eqb (r_type r) SIMPLE); [reflexivity|].
  destruct (String.eqb (r_type r) UNIQUE_VALUE); [reflexivity|].
  destruct (String.eqb (r_type r) CLASS_BREAKS); reflexivity.
Qed.

(** What the switch leaves on the branches that carry the label of an entry
    whose icon the lookup holds. *)
Lemma attachIcons_receives (lookup : gmap string svgdoc) (r : renderer)
    (d : legendData) :
  lookup !! prop_key (ld_label d) = Some (ld_svgcode d) ->
  receives (fst (attachIcons lookup r)) d.
Proof.
  intros Hk. unfold receives. rewrite attachIcons_type.
  unfold attachIcons. repeat split.
  - intros Ht Hlabel. rewrite Ht.
    change (String.eqb SIMPLE SIMPLE) with true.
    cbn [fst r_svgcode]. cbn [fst r_label] in Hlabel.
    rewrite Ht in Hlabel. change (String.eqb SIMPLE SIMPLE) with true in Hlabel.
    cbn [fst r_label] in Hlabel. rewrite Hlabel. exact Hk.
  - intros Ht uvi Hin Hlabel. rewrite Ht in Hin.
    change (String.eqb UNIQUE_VALUE SIMPLE) with false in Hin.
    change (String.eqb UNIQUE_VALUE UNIQUE_VALUE) with true in Hin.
    cbn [fst r_uniqueValueInfos] in Hin.
    apply list_elem_of_In, in_map_iff in Hin.
    destruct Hin as (uvi0 & <- & _).
    unfold with_svgcode_uvi in *. cbn [uvi_label uvi_svgcode] in *.
    rewrite Hlabel. exact Hk.
  - intros Ht cbi Hin Hlabel. rewrite Ht in Hin.
    change (String.eqb CLASS_BREAKS SIMPLE) with false in Hin.
    change (String.eqb CLASS_BREAKS UNIQUE_VALUE) with false in Hin.
    change (String.eqb CLASS_BREAKS CLASS_BREAKS) with true in Hin.
    cbn [fst r_classBreakInfos] in Hin.
    apply list_elem_of_In, in_map_iff in Hin.
    destruct Hin as (cbi0 & <- & _).
    unfold with_svgcode_cbi in *. cbn [cbi_label cbi_svgcode] in *.
    rewrite Hlabel. exact Hk.
Qed.

Lemma filter_all {A} (l : list A) : List.filter (fun _ => true) l = l.
Proof. induction l as [|a l IH]; [reflexivity|]. cbn. rewrite IH. reflexivity. Qed.

Lemma filter_nothing {A} (l : list A) : List.filter (fun _ => false) l = [].
Proof. induction l as [|a l IH]; [reflexivity|]. exact IH. Qed.

(** With every promise settled at the call, the callbacks run in legend
    order. *)
Lemma callbackOrder_settled (later : list nat) (items : list legendItem) :
  callbackOrder (fun _ => true) later items = seq 0 (length items).
Proof.
  unfold callbackOrder. cbn [negb].
  rewrite filter_all, filter_nothing, app_nil_r. reflexivity.
Qed.

(** In legend order, the entry that wins is the last one with the label. *)
Lemma settle_in_legend_order (items : list legendItem) (j : nat) (d : legendData) :
  items !! j = Some (Fulfilled (Some d)) ->
  prop_key (ld_label d) <> "__proto__" ->
  (forall j' d', (j < j')%nat -> items !! j' = Some (Fulfilled (Some d')) ->
                 prop_key (ld_label d') <> prop_key (ld_label d)) ->
  legendLookup (settle_all (seq 0 (length items)) items) !! prop_key (ld_label d)
  = Some (ld_svgcode d).
Proof.
  intros Hd Hown Hlater. unfold settle_all.
  apply (fold_lookup_last items _ _ j j d).
  - apply lookup_seq. split; [reflexivity|]. apply lookup_lt_Some in Hd. exact Hd.
  - exact Hd.
  - exact Hown.
  - intros pos' j' d' Hlt Hpos' Hd'. apply lookup_seq in Hpos' as [-> _].
    apply (Hlater pos' d'); [exact Hlt|exact Hd'].
Qed.

(** C5, as the code has it.  When every legend promise is fulfilled with
    an entry and every callback has run, the promise of [enhanceRenderer] is
    fulfilled, and for a label other than [__proto__] carried by several
    entries the lookup keeps the icon of the entry whose callback runs last:
    every branch with that label (and a simple renderer with that label)
    receives this icon.  When the promises are all fulfilled already at the
    call, the callbacks run in legend order and this entry is the later one
    in the legend. *)
Theorem enhanceRenderer_label_collision (order : list nat) (r : renderer)
    (lg : legendObject) (layer0 : legendLayer) :
  layers lg !! 0%nat = Some layer0 ->
  all_fulfilled (legend layer0) ->
  (forall i, (i < length (legend layer0))%nat -> i ∈ order) ->
  exists e,
    enhanceRenderer order r lg = Return e
    /\ returned e = Fulfilled ()
    /\ (forall pos j d,
          order !! pos = Some j ->
          legend layer0 !! j = Some (Fulfilled (Some d)) ->
          prop_key (ld_label d) <> "__proto__" ->
          (forall pos' j' d', (pos < pos')%nat -> order !! pos' = Some j' ->
                              legend layer0 !! j' = Some (Fulfilled (Some d')) ->
                              prop_key (ld_label d') <> prop_key (ld_label d)) ->
          receives (renderer_after e) d)
    /\ ((exists later, order = callbackOrder (fun _ => true) later (legend layer0)) ->
        forall j d,
          legend layer0 !! j = Some (Fulfilled (Some d)) ->
          prop_key (ld_label d) <> "__proto__" ->
          (forall j' d', (j < j')%nat ->
                         legend layer0 !! j' = Some (Fulfilled (Some d')) ->
                         prop_key (ld_label d') <> prop_key (ld_label d)) ->
          receives (renderer_after e) d).
Proof.
  intros Hl Hall Hcover.
  eexists. split; [apply (enhanceRenderer_fulfilled order r lg layer0 Hl Hall Hcover)|].
  split; [reflexivity|].
  cbn [renderer_after]. split.
  - intros pos j d Hpos Hd Hown Hlater.
    apply attachIcons_receives. unfold settle_all.
    apply (fold_lookup_last (legend layer0) order _ pos j d Hpos Hd Hown Hlater).
  - intros (later & ->) j d Hd Hown Hlater.
    apply attachIcons_receives. rewrite callbackOrder_settled.
    apply (settle_in_legend_order (legend layer0) j d Hd Hown Hlater).
Qed.

(** The theorem on a legend with the label ["Road"] twice, its promises
    fulfilled already at the call: the branch gets the icon of the later
    entry. *)
Lemma enhanceRenderer_label_collision_witness :
  exists e,
    enhanceRenderer [0; 1]%nat
      (Samples.uniqueValueRenderer (Some "kind") None None [ Samples.labelled "Road" ])
      (Samples.legendOf [ Samples.entry "Road" "first"; Samples.entry "Road" "second" ])
    = Return e
    /\ returned e = Fulfilled ()
    /\ receives (renderer_after e)
         {| ld_label := Some "Road"; ld_svgcode := Samples.icon "second" |}.
Proof.
  destruct (enhanceRenderer_label_collision [0; 1]%nat
              (Samples.uniqueValueRenderer (Some "kind") None None
                 [ Samples.labelled "Road" ])
              (Samples.legendOf
                 [ Samples.entry "Road" "first"; Samples.entry "Road" "second" ])
              {| layerId := Some 0%Z;
                 legend := [ Samples.entry "Road" "first";
                             Samples.entry "Road" "second" ] |})
    as (e & He & Hret & _ & Hlegend).
  - reflexivity.
  - intros i item Hi. destruct i as [|[|i]]; cbn in Hi.
    + injection Hi as <-. eexists. reflexivity.
    + injection Hi as <-. eexists. reflexivity.
    + discriminate Hi.
  - intros i Hi. cbn in Hi. destruct i as [|[|i]]; [| |lia].
    + apply list_elem_of_here.
    + apply list_elem_of_further, list_elem_of_here.
  - exists e. split; [exact He|]. split; [exact Hret|].
    apply (Hlegend (ex_intro _ [] eq_refl) 1%nat); [reflexivity|discriminate|].
    intros j' d' Hlt Hj'. destruct j' as [|[|j']]; [lia|lia|].
    cbn in Hj'. discriminate Hj'.
Defined.

(** C5 as stated fails.  When both promises of two entries labelled
    ["Road"] are pending at the call and that of the earlier entry is
    fulfilled after that of the later one, the branch gets the icon of the
    earlier entry. *)
Lemma enhanceRenderer_label_collision_counterexample :
  exists e,
    enhanceRenderer
      (callbackOrder (fun _ => false) [1; 0]%nat
         [ Samples.entry "Road" "first"; Samples.entry "Road" "second" ])
      (Samples.uniqueValueRenderer (Some "kind") None None [ Samples.labelled "Road" ])
      (Samples.legendOf [ Samples.entry "Road" "first"; Samples.entry "Road" "second" ])
    = Return e
    /\ returned e = Fulfilled ()
    /\ List.map uvi_svgcode (r_uniqueValueInfos (renderer_after e))
       = [ Some (Samples.icon "first") ].
Proof.
  eexists. split; [vm_compute; reflexivity|]. split; reflexivity.
Qed.

(** The promise of [enhanceRenderer] settles as the join of the legend
    promises does, whatever the renderer. *)
Lemma enhanceRenderer_returned (order : list nat) (r : renderer)
    (lg : legendObject) (layer0 : legendLayer) :
  layers lg !! 0%nat = Some layer0 ->
  exists e, enhanceRenderer order r lg = Return e
            /\ returned e = joined order (legend layer0).
Proof.
  intros Hl. unfold enhanceRenderer, joined. rewrite Hl.
  destruct (rejection (settle_all order (legend layer0))) as [reason|].
  - eexists. split; reflexivity.
  - destruct (all_settled order (legend layer0)).
    + destruct (attachIcons _ r) as [r' out]. eexists. split; reflexivity.
    + eexists. split; reflexivity.
Qed.

(** C8, as the code has it.  For a renderer whose type is none of the
    three kinds and a legend with a first layer, [enhanceRenderer] does not
    throw and leaves the renderer as it was, without icons attached; its
    promise settles as it does for any other renderer with the same legend,
    so the type rejects nothing; and with a legend whose promises are all
    fulfilled with an entry, once every callback has run, the promise is
    fulfilled after one warning was written to the console. *)
Theorem enhanceRenderer_unsupported_type (order : list nat) (r : renderer)
    (lg : legendObject) (layer0 : legendLayer) :
  r_type r <> SIMPLE -> r_type r <> UNIQUE_VALUE -> r_type r <> CLASS_BREAKS ->
  layers lg !! 0%nat = Some layer0 ->
  exists e,
    enhanceRenderer order r lg = Return e
    /\ renderer_after e = r
    /\ (forall r', exists e', enhanceRenderer order r' lg = Return e'
                              /\ returned e' = returned e)
    /\ (all_fulfilled (legend layer0) ->
        (forall i, (i < length (legend layer0))%nat -> i ∈ order) ->
        returned e = Fulfilled ()
        /\ console e = ["encountered unsupported renderer type: " +:+ r_type r]).
Proof.
  intros Hs Hu Hc Hl.
  apply String.eqb_neq in Hs, Hu, Hc.
  assert (Hattach : forall lookup,
             attachIcons lookup r
             = (r, ["encountered unsupported renderer type: " +:+ r_type r])).
  { intros lookup. unfold attachIcons. rewrite Hs, Hu, Hc. reflexivity. }
  destruct (enhanceRenderer_returned order r lg layer0 Hl) as (e & He & Hret).
  exists e. split; [exact He|].
  split; [|split].
  - unfold enhanceRenderer in He. rewrite Hl in He.
    destruct (rejection (settle_all order (legend layer0))).
    + injection He as <-. reflexivity.
    + destruct (all_settled order (legend layer0)).
      * rewrite Hattach in He. injection He as <-. reflexivity.
      * injection He as <-. reflexivity.
  - intros r'.
    destruct (enhanceRenderer_returned order r' lg layer0 Hl) as (e' & He' & Hret').
    exists e'. split; [exact He'|]. rewrite Hret, Hret'. reflexivity.
  - intros Hall Hcover.
    rewrite (enhanceRenderer_fulfilled order r lg layer0 Hl Hall Hcover) in He.
    rewrite Hattach in He. injection He as <-. split; reflexivity.
Qed.

(** The theorem at a renderer of type ["heatmap"]. *)
Lemma enhanceRenderer_unsupported_type_witness :
  exists e,
    enhanceRenderer [0]%nat (Samples.otherRenderer "heatmap")
      (Samples.legendOf [ Samples.entry "Heat" "gradient" ])
    = Return e
    /\ renderer_after e = Samples.otherRenderer "heatmap"
    /\ returned e = Fulfilled ()
    /\ console e = ["encountered unsupported renderer type: heatmap"].
Proof.
  destruct (enhanceRenderer_unsupported_type [0]%nat (Samples.otherRenderer "heatmap")
              (Samples.legendOf [ Samples.entry "Heat" "gradient" ])
              {| layerId := Some 0%Z; legend := [ Samples.entry "Heat" "gradient" ] |})
    as (e & He & Hsame & _ & Hok).
  - intros H. vm_compute in H. discriminate H.
  - intros H. vm_compute in H. discriminate H.
  - intros H. vm_compute in H. discriminate H.
  - reflexivity.
  - exists e. split; [exact He|]. split; [exact Hsame|].
    apply Hok.
    + intros i item Hi. destruct i as [|i]; cbn in Hi.
      * injection Hi as <-. eexists. reflexivity.
      * discriminate Hi.
    + intros i Hi. cbn in Hi. destruct i as [|i]; [|lia]. apply list_elem_of_here.
Defined.

(** C8 as stated fails.  For a renderer of type ["heatmap"] and a legend
    with a rejected promise, the promise of [enhanceRenderer] is rejected
    with the reason of that promise and no warning is written, the switch on
    the type being never reached; and for a legend without a layer the call
    throws. *)
Lemma enhanceRenderer_unsupported_type_counterexample :
  enhanceRenderer [0; 1]%nat (Samples.otherRenderer "heatmap")
    (Samples.legendOf [ Samples.entry "Heat" "gradient"; Rejected "no image" ])
  = Return {| returned := Rejected "no image";
              renderer_after := Samples.otherRenderer "heatmap";
              console := [] |}
  /\ enhanceRenderer [] (Samples.otherRenderer "heatmap") {| layers := [] |}
     = ThrowTypeError.
Proof. split; reflexivity. Qed.

End EnhancerFacts.

(** ** WMS symbology *)

Module WMSFacts.

Import WMS.

(** Without an image, the promise is fulfilled with the empty drawing of
    the container's size. *)
Lemma generateWMSSymbology_no_image convert load (name : string) (imageUri : option string) :
  truthy_string imageUri = false ->
  g_promise (generateWMSSymbology convert load name imageUri)
  = Fulfilled (Some {| si_name := name;
                       si_svgcode :=
                         Some {| svg_width := CONTAINER_SIZE;
                                 svg_height := CONTAINER_SIZE;
                                 svg_viewbox := Some (0, 0, 0, 0);
                                 svg_body := [] |} |}).
Proof. intros Hf. unfold generateWMSSymbology. rewrite Hf. reflexivity. Qed.

(** With an image that loads, the promise is fulfilled with an entry whose
    drawing holds the image in a view box of the image's size. *)
Lemma generateWMSSymbology_loaded convert load (name uri dataUri : string) (w h : Z) :
  truthy_string (Some uri) = true ->
  convert uri = Fulfilled dataUri ->
  load dataUri = Fulfilled (w, h) ->
  g_promise (generateWMSSymbology convert load name (Some uri))
  = Fulfilled (Some {| si_name := name;
                       si_svgcode :=
                         Some {| svg_width := CONTAINER_SIZE;
                                 svg_height := CONTAINER_SIZE;
                                 svg_viewbox := Some (0, 0, w, h);
                                 svg_body := [SvgImage dataUri] |} |}).
Proof.
  intros Ht Hc Hload. unfold generateWMSSymbology. rewrite Ht.
  change (default "" (Some uri)) with uri.
  rewrite Hc. unfold svgDrawImage. rewrite Hload. reflexivity.
Qed.

(** C7 fails on the code: when the conversion or the loading of the image
    is rejected, the promise of [generateWMSSymbology] is fulfilled with
    [undefined], not with a legend entry: the [catch] handler writes the
    drawing into the [symbologyItem] object and does not return it.  The
    console holds the message of the handler, after the error itself when it
    was the loading that failed. *)
Theorem generateWMSSymbology_failure convert load (name uri : string) :
  truthy_string (Some uri) = true ->
  (exists reason, convert uri = Rejected reason)
  \/ (exists dataUri reason,
        convert uri = Fulfilled dataUri /\ load dataUri = Rejected reason) ->
  let g := generateWMSSymbology convert load name (Some uri) in
  g_promise g = Fulfilled None
  /\ (exists draw, si_svgcode (g_item g) = Some draw)
  /\ (forall reason, convert uri = Rejected reason ->
        g_console g = [["Cannot draw wms legend image; returning empty"; reason]])
  /\ (forall dataUri reason,
        convert uri = Fulfilled dataUri -> load dataUri = Rejected reason ->
        g_console g
        = [[reason]; ["Cannot draw wms legend image; returning empty"; reason]]).
Proof.
  intros Ht Hfail. unfold generateWMSSymbology. rewrite Ht.
  change (default "" (Some uri)) with uri.
  destruct Hfail as [[reason Hc]|(dataUri & reason & Hc & Hload)].
  - rewrite Hc. cbn. split; [reflexivity|]. split; [eauto|]. split.
    + intros reason' H'. injection H' as <-. reflexivity.
    + intros dataUri reason' H'. discriminate H'.
  - rewrite Hc. unfold svgDrawImage. rewrite Hload. cbn.
    split; [reflexivity|]. split; [eauto|]. split.
    + intros reason' H'. discriminate H'.
    + intros dataUri' reason' H' Hload'. injection H' as <-.
      rewrite Hload in Hload'. injection Hload' as <-. reflexivity.
Qed.

(** A legend image that is converted and then fails to load. *)
Lemma generateWMSSymbology_failure_witness :
  let g := generateWMSSymbology
             (fun uri => Fulfilled uri) (fun _ => Rejected "error")
             "Roads" (Some "http://example.org/legend.png") in
  g_promise g = Fulfilled None
  /\ (exists draw, si_svgcode (g_item g) = Some draw)
  /\ g_console g
     = [["error"]; ["Cannot draw wms legend image; returning empty"; "error"]].
Proof.
  destruct (generateWMSSymbology_failure
              (fun uri => Fulfilled uri) (fun _ => Rejected "error")
              "Roads" "http://example.org/legend.png" eq_refl)
    as (Hp & Hitem & _ & Hlog).
  - right. exists "http://example.org/legend.png", "error". split; reflexivity.
  - split; [exact Hp|]. split; [exact Hitem|].
    exact (Hlog "http://example.org/legend.png" "error" eq_refl eq_refl).
Defined.

End WMSFacts.

(** ** Legends from renderers *)

Module LegendFacts.

Import Legend.

Section Order.

Variable drawSymbol : json -> option string -> completion legendItem.

Context {A : Type} `{LegendChild A}.


Lemma drawChildren_throws (childList : list A) (i : nat) (child : A) :
  childList !! i = Some child ->
  symbolToLegend drawSymbol (child_symbol child) (child_label child) = ThrowTypeError ->
  drawChildren drawSymbol childList = ThrowTypeError.
Proof.
  revert i. induction childList as [|c rest IH]; intros i Hi Hthrow; [discriminate|].
  cbn [drawChildren]. destruct i as [|i].
  - injection Hi as ->. rewrite Hthrow. reflexivity.
  - destruct (symbolToLegend drawSymbol (child_symbol c) (child_label c));
      [|reflexivity].
    rewrite (IH i Hi Hthrow). reflexivity.
Qed.


End Order.




End LegendFacts.

(** ** Feature classes *)

Module FeatureClassFacts.

Import FeatureClass Cases.

(** Two numbers, neither of them NaN, are comparable. *)
Lemma SFltb_false_leb a b :
  SFeqb a a = true -> SFeqb b b = true -> SFltb a b = false -> SFleb b a = true.
Proof. FloatOrder.sf_unfold. FloatOrder.sf_crush. Qed.

Lemma SFltb_number_l a b : SFltb a b = true -> SFeqb a a = true.
Proof. FloatOrder.sf_unfold. FloatOrder.sf_crush. Qed.

Lemma SFltb_number_r a b : SFltb a b = true -> SFeqb b b = true.
Proof. FloatOrder.sf_unfold. FloatOrder.sf_crush. Qed.

Local Open Scope float_scope.

Lemma ltb_false_leb (a b : float) :
  (a =? a) = true -> (b =? b) = true -> (a <? b) = false -> (b <=? a) = true.
Proof.
  rewrite ?ltb_spec, ?leb_spec, ?FloatAxioms.eqb_spec. apply SFltb_false_leb.
Qed.

Lemma ltb_number_l (a b : float) : (a <? b) = true -> (a =? a) = true.
Proof. rewrite ?ltb_spec, ?FloatAxioms.eqb_spec. apply SFltb_number_l. Qed.

Lemma ltb_number_r (a b : float) : (a <? b) = true -> (b =? b) = true.
Proof. rewrite ?ltb_spec, ?FloatAxioms.eqb_spec. apply SFltb_number_r. Qed.

(** X1: when the layer is off scale at [mapScale] and shown at a scale [v]
    (a number), [zoomIn] tells on which side of [mapScale] that scale lies:
    below it when [zoomIn] is true, above it otherwise. *)
Theorem isOffScale_direction (l : esriLayer) (mapScale v : float) :
  (v =? v) = true ->
  offScale (isOffScale l mapScale) = true ->
  offScale (isOffScale l v) = false ->
  if zoomIn (isOffScale l mapScale) then (v <? mapScale) = true
  else (mapScale <? v) = true.
Proof.
  unfold isOffScale, getScaleSet. cbn [minScale maxScale].
  intros Hv Hoff Hon.
  destruct (mapScale <? l_maxScale l) eqn:Hmax;
    destruct (l_maxScale l =? 0) eqn:Hmax0; cbn [andb negb] in *.
  2: { cbn [zoomIn].
       destruct (v <? l_maxScale l) eqn:Hv1; cbn [andb negb] in Hon; [discriminate|].
       apply FloatOrder.ltb_leb_trans with (b := l_maxScale l); [exact Hmax|].
       apply ltb_false_leb; [exact Hv| |exact Hv1].
       eapply ltb_number_r; exact Hmax. }
  all: destruct (l_minScale l <? mapScale) eqn:Hmin;
    destruct (l_minScale l =? 0) eqn:Hmin0; cbn [andb negb offScale zoomIn] in *;
    try discriminate.
  all: assert (Hle : (v <=? l_minScale l) = true)
    by (apply ltb_false_leb;
        [eapply ltb_number_l; exact Hmin | exact Hv |];
        destruct (l_minScale l <? v); [|reflexivity];
        destruct (v <? l_maxScale l); cbn [andb negb offScale] in Hon; discriminate).
  all: eapply FloatOrder.leb_ltb_trans; [exact Hle | exact Hmin].
Qed.

Lemma isOffScale_direction_witness :
  let l := {| l_minScale := 1000; l_maxScale := 10; l_url := None |} in
  (isOffScale l 5000 = {| offScale := true; zoomIn := true |}
   /\ (500 <? 5000) = true)
  /\ (isOffScale l 2 = {| offScale := true; zoomIn := false |}
      /\ (2 <? 500) = true).
Proof.
  split; (split; [reflexivity|]).
  - exact (isOffScale_direction
             {| l_minScale := 1000; l_maxScale := 10; l_url := None |} 5000 500
             eq_refl eq_refl eq_refl).
  - exact (isOffScale_direction
             {| l_minScale := 1000; l_maxScale := 10; l_url := None |} 2 500
             eq_refl eq_refl eq_refl).
Defined.

Local Close Scope float_scope.
Local Open Scope nat_scope.

(** *** Layer data *)

Lemma scanOidField_first (fs : list field) (i : nat) (f : field) :
  fs !! i = Some f -> f_type f = OID ->
  (forall j g, j < i -> fs !! j = Some g -> f_type g <> OID) ->
  scanOidField fs = Some (f_name f).
Proof.
  revert i. induction fs as [|g fs IH]; intros i Hi Hf Hbefore; [discriminate|].
  cbn [scanOidField]. destruct i as [|i].
  - injection Hi as ->. fold OID. rewrite Hf, String.eqb_refl. reflexivity.
  - fold OID. destruct (String.eqb (f_type g) OID) eqn:Hg.
    + apply String.eqb_eq in Hg. exfalso.
      apply (Hbefore 0 g); [lia | reflexivity | exact Hg].
    + apply (IH i); [exact Hi | exact Hf |].
      intros j h Hj Hh. apply (Hbefore (S j) h); [lia | exact Hh].
Qed.

Lemma scanOidField_none (fs : list field) :
  (forall i f, fs !! i = Some f -> f_type f <> OID) -> scanOidField fs = None.
Proof.
  induction fs as [|g fs IH]; intros Hno; [reflexivity|].
  cbn [scanOidField]. fold OID.
  destruct (String.eqb (f_type g) OID) eqn:Hg.
  - apply String.eqb_eq in Hg. exfalso. exact (Hno 0 g eq_refl Hg).
  - apply IH. intros i f Hi. exact (Hno (S i) f Hi).
Qed.

(** X2: the layer data of a first, answered request keeps the fields as they
    came and takes as [oidField] the name of the first field of type
    [esriFieldTypeOID]; without such a field, [oidField] stays undefined. *)
Theorem getLayerData_oidField (pkg : layerPackage)
    (webRequest : string -> promise response) (dataUrl : string)
    (res : response) (fs : list field) :
  pkg_layerData pkg = None ->
  webRequest dataUrl = Fulfilled res ->
  resp_fields res = Some fs ->
  exists ld,
    result (getLayerData pkg webRequest dataUrl) = Fulfilled ld
    /\ fields ld = fs
    /\ (forall i f, fs !! i = Some f -> f_type f = OID ->
          (forall j g, j < i -> fs !! j = Some g -> f_type g <> OID) ->
          oidField ld = Some (f_name f))
    /\ ((forall i f, fs !! i = Some f -> f_type f <> OID) -> oidField ld = None).
Proof.
  intros Hpkg Hreq Hfs. unfold getLayerData, layerDataPromise.
  rewrite Hpkg, Hreq, Hfs. cbn [result].
  eexists. split; [reflexivity|]. cbn [fields oidField].
  split; [reflexivity|]. split.
  - intros i f. apply scanOidField_first.
  - apply scanOidField_none.
Qed.

Lemma getLayerData_oidField_witness :
  exists ld,
    result (getLayerData emptyPackage
              (fun _ => Fulfilled {| resp_fields := Some sampleFields;
                                     resp_features := None |}) "url")
    = Fulfilled ld
    /\ fields ld = sampleFields
    /\ (forall i f, sampleFields !! i = Some f -> f_type f = OID ->
          (forall j g, j < i -> sampleFields !! j = Some g -> f_type g <> OID) ->
          oidField ld = Some (f_name f))
    /\ ((forall i f, sampleFields !! i = Some f -> f_type f <> OID) ->
        oidField ld = None).
Proof.
  exact (getLayerData_oidField emptyPackage
           (fun _ => Fulfilled {| resp_fields := Some sampleFields;
                                  resp_features := None |}) "url"
           {| resp_fields := Some sampleFields; resp_features := None |}
           sampleFields eq_refl eq_refl eq_refl).
Defined.

(** X3: a rejected layer data request stays in the package: every later call
    returns the same rejected promise and issues no request. *)
Theorem getLayerData_rejection_cached (pkg : layerPackage)
    (webRequest : string -> promise response) (dataUrl error : string) :
  pkg_layerData pkg = None ->
  webRequest dataUrl = Rejected error ->
  forall (webRequest' : string -> promise response) (dataUrl' : string),
    let later :=
      getLayerData (package (getLayerData pkg webRequest dataUrl)) webRequest' dataUrl' in
    result later = Rejected error /\ requests later = [].
Proof.
  intros Hpkg Hreq webRequest' dataUrl'. unfold getLayerData, layerDataPromise.
  rewrite Hpkg, Hreq. cbn. split; reflexivity.
Qed.

Lemma getLayerData_rejection_cached_witness :
  let later :=
    getLayerData (package (getLayerData emptyPackage (fun _ => Rejected "timeout") "url"))
      (fun _ => Fulfilled {| resp_fields := Some sampleFields; resp_features := None |})
      "url" in
  result later = Rejected "timeout" /\ requests later = [].
Proof.
  exact (getLayerData_rejection_cached emptyPackage (fun _ => Rejected "timeout")
           "url" "timeout" eq_refl eq_refl
           (fun _ => Fulfilled {| resp_fields := Some sampleFields;
                                  resp_features := None |}) "url").
Defined.

(** X4: a rejected attribute request leaves the package as it was, so that
    the next call issues the request again. *)
Theorem getAttribs_rejection_forgotten (pkg : layerPackage)
    (webRequest : string -> promise response) (dataUrl error : string) :
  pkg_attribData pkg = None ->
  webRequest dataUrl = Rejected error ->
  let first := getAttribs pkg webRequest dataUrl in
  result first = Rejected error
  /\ package first = pkg
  /\ forall (webRequest' : string -> promise response) (dataUrl' : string),
       requests (getAttribs (package first) webRequest' dataUrl') = [dataUrl'].
Proof.
  intros Hpkg Hreq. unfold getAttribs at 1 2. rewrite Hpkg, Hreq.
  cbn [result package].
  assert (Heq : {| pkg_layerData := pkg_layerData pkg; pkg_attribData := None;
                   loadIsDone := loadIsDone pkg |} = pkg).
  { destruct pkg as [ld ad done]. cbn in *. subst ad. reflexivity. }
  split; [reflexivity|]. split; [exact Heq|].
  intros webRequest' dataUrl'. cbn zeta. rewrite Heq. unfold getAttribs. rewrite Hpkg.
  destruct (webRequest' dataUrl'); reflexivity.
Qed.

Lemma getAttribs_rejection_forgotten_witness :
  let first := getAttribs emptyPackage (fun _ => Rejected "timeout") "url" in
  result first = Rejected "timeout"
  /\ package first = emptyPackage
  /\ forall (webRequest' : string -> promise response) (dataUrl' : string),
       requests (getAttribs (package first) webRequest' dataUrl') = [dataUrl'].
Proof.
  exact (getAttribs_rejection_forgotten emptyPackage (fun _ => Rejected "timeout")
           "url" "timeout" eq_refl eq_refl).
Defined.

(** *** Attribute sets *)

Lemma indexFeatures_throws (oid : string) (fs : list feature) :
  forall idx index,
    indexFeatures oid fs idx index = ThrowTypeError
    <-> exists i f, fs !! i = Some f /\ objectKey oid f = None.
Proof.
  induction fs as [|g fs IH]; intros idx index; cbn [indexFeatures].
  - split; [discriminate|]. intros (i & f & Hi & _). discriminate.
  - destruct (objectKey oid g) as [key|] eqn:Hg.
    + rewrite IH. split.
      * intros (i & f & Hi & Hf). exists (S i), f. split; assumption.
      * intros (i & f & Hi & Hf). destruct i as [|i].
        -- injection Hi as <-. congruence.
        -- exists i, f. split; assumption.
    + split; [|reflexivity]. intros _. exists 0, g. split; [reflexivity|exact Hg].
Qed.

Lemma setIndex_other (key key' : string) (idx : nat) (index : gmap string nat) :
  key' <> key -> setIndex key idx index !! key' = index !! key'.
Proof.
  intros Hne. unfold setIndex. destruct (String.eqb key "__proto__"); [reflexivity|].
  apply lookup_insert_ne. congruence.
Qed.

Lemma setIndex_same (key : string) (idx : nat) (index : gmap string nat) :
  key <> "__proto__" -> setIndex key idx index !! key = Some idx.
Proof.
  intros Hne. unfold setIndex. apply String.eqb_neq in Hne. rewrite Hne.
  apply lookup_insert_eq.
Qed.

(** A key that no feature carries keeps its entry. *)
Lemma indexFeatures_frame (oid : string) (fs : list feature) (key : string) :
  forall idx index res,
    indexFeatures oid fs idx index = Return res ->
    (forall j g, fs !! j = Some g -> objectKey oid g <> Some key) ->
    res !! key = index !! key.
Proof.
  induction fs as [|g fs IH]; intros idx index res Hres Hno; cbn [indexFeatures] in Hres.
  - injection Hres as <-. reflexivity.
  - destruct (objectKey oid g) as [k|] eqn:Hg; [|discriminate].
    rewrite (IH _ _ _ Hres).
    + apply setIndex_other. intros ->. exact (Hno 0 g eq_refl Hg).
    + intros j h Hj. exact (Hno (S j) h Hj).
Qed.

(** The last feature with a key decides its entry. *)
Lemma indexFeatures_last (oid : string) (fs : list feature) (key : string) :
  forall idx index res i f,
    indexFeatures oid fs idx index = Return res ->
    fs !! i = Some f -> objectKey oid f = Some key -> key <> "__proto__" ->
    (forall j g, i < j -> fs !! j = Some g -> objectKey oid g <> Some key) ->
    res !! key = Some (idx + i).
Proof.
  induction fs as [|g fs IH]; intros idx index res i f Hres Hi Hf Hkey Hlater;
    [discriminate|].
  cbn [indexFeatures] in Hres.
  destruct (objectKey oid g) as [k|] eqn:Hg; [|discriminate].
  destruct i as [|i].
  - injection Hi as ->. assert (k = key) as -> by congruence.
    rewrite (indexFeatures_frame _ _ _ _ _ _ Hres).
    + rewrite Nat.add_0_r. apply setIndex_same, Hkey.
    + intros j h Hj. apply (Hlater (S j) h); [lia | exact Hj].
  - rewrite (IH _ _ _ i f Hres Hi Hf Hkey).
    + f_equal. lia.
    + intros j h Hij Hj. apply (Hlater (S j) h); [lia | exact Hj].
Qed.

(** Every entry is an old one or the index of a feature with that key. *)
Lemma indexFeatures_sound (oid : string) (fs : list feature) (key : string) (n : nat) :
  forall idx index res,
    indexFeatures oid fs idx index = Return res ->
    res !! key = Some n ->
    index !! key = Some n
    \/ exists i f, n = idx + i /\ fs !! i = Some f /\ objectKey oid f = Some key.
Proof.
  induction fs as [|g fs IH]; intros idx index res Hres Hn; cbn [indexFeatures] in Hres.
  - injection Hres as <-. left. exact Hn.
  - destruct (objectKey oid g) as [k|] eqn:Hg; [|discriminate].
    destruct (IH _ _ _ Hres Hn) as [Hold | (i & f & -> & Hi & Hf)].
    + destruct (decide (key = k)) as [->|Hne].
      * unfold setIndex in Hold. destruct (String.eqb k "__proto__"); [left; exact Hold|].
        rewrite lookup_insert_eq in Hold. injection Hold as <-.
        right. exists 0, g. split; [lia|]. split; [reflexivity | exact Hg].
      * rewrite setIndex_other in Hold by exact Hne. left. exact Hold.
    + right. exists (S i), f. split; [lia|]. split; assumption.
Qed.

(** X5: in the attribute set of features that all have an object id, the
    entry of a key other than [__proto__] is the index of the last feature
    with that key, and the feature stands at that index. *)
Theorem createAttribSet_round_trip (oid : string) (fs : list feature)
    (set : attribSet) (i : nat) (f : feature) (key : string) :
  createAttribSet oid fs = Return set ->
  fs !! i = Some f ->
  objectKey oid f = Some key ->
  key <> "__proto__" ->
  (forall j g, i < j -> fs !! j = Some g -> objectKey oid g <> Some key) ->
  oidIndex set !! key = Some i /\ features set !! i = Some f.
Proof.
  unfold createAttribSet. intros Hset Hi Hf Hkey Hlater.
  destruct (indexFeatures oid fs 0 ∅) as [index|] eqn:Hindex; [|discriminate].
  injection Hset as <-. cbn [oidIndex features]. split; [|exact Hi].
  exact (indexFeatures_last _ _ _ _ _ _ _ _ Hindex Hi Hf Hkey Hlater).
Qed.

Lemma createAttribSet_round_trip_witness :
  exists set f,
    createAttribSet "OBJECTID" sampleFeatures = Return set
    /\ sampleFeatures !! 1 = Some f
    /\ oidIndex set !! "9" = Some 1 /\ features set !! 1 = Some f.
Proof.
  destruct (createAttribSet "OBJECTID" sampleFeatures) as [set|] eqn:Hset;
    [|vm_compute in Hset; discriminate].
  exists set, (featureOf [("OBJECTID", JNum 9); ("NAME", JStr "Hull")]).
  split; [reflexivity|]. split; [reflexivity|].
  apply (createAttribSet_round_trip "OBJECTID" sampleFeatures set 1 _ "9" Hset eq_refl).
  - vm_compute. reflexivity.
  - discriminate.
  - intros j g Hj Hg. destruct j as [|[|j]]; [lia | lia | discriminate].
Defined.

(** X6: every entry of the index of an attribute set points at a feature of
    the set whose object id reads as the key of the entry. *)
Theorem createAttribSet_index_sound (oid : string) (fs : list feature)
    (set : attribSet) (key : string) (n : nat) :
  createAttribSet oid fs = Return set ->
  oidIndex set !! key = Some n ->
  exists f, features set !! n = Some f /\ objectKey oid f = Some key.
Proof.
  unfold createAttribSet. intros Hset Hn.
  destruct (indexFeatures oid fs 0 ∅) as [index|] eqn:Hindex; [|discriminate].
  injection Hset as <-. cbn [oidIndex features] in *.
  destruct (indexFeatures_sound _ _ _ _ _ _ _ Hindex Hn)
    as [Hold | (i & f & -> & Hi & Hf)].
  - rewrite lookup_empty in Hold. discriminate.
  - exists f. split; [exact Hi | exact Hf].
Qed.

Lemma createAttribSet_index_sound_witness :
  exists set f,
    createAttribSet "OBJECTID" sampleFeatures = Return set
    /\ oidIndex set !! "7" = Some 0
    /\ features set !! 0 = Some f /\ objectKey "OBJECTID" f = Some "7".
Proof.
  destruct (createAttribSet "OBJECTID" sampleFeatures) as [set|] eqn:Hset;
    [|vm_compute in Hset; discriminate].
  assert (Hn : oidIndex set !! "7" = Some 0).
  { vm_compute in Hset. injection Hset as <-. vm_compute. reflexivity. }
  destruct (createAttribSet_index_sound "OBJECTID" sampleFeatures set "7" 0 Hset Hn)
    as (f & Hf & Hkey).
  exists set, f. repeat split; assumption.
Defined.

(** The call of [getAttribs] whose answer has a feature without object id. *)
Lemma getAttribs_throwing (pkg : layerPackage)
    (webRequest : string -> promise response) (dataUrl : string)
    (res : response) (fs : list feature) (i : nat) (f : feature) :
  pkg_attribData pkg = None ->
  webRequest dataUrl = Fulfilled res ->
  resp_features res = Some fs ->
  fs !! i = Some f ->
  attributes f !! "OBJECTID" = None \/ attributes f !! "OBJECTID" = Some JNull ->
  getAttribs pkg webRequest dataUrl
  = {| result := Pending;
       package := {| pkg_layerData := pkg_layerData pkg;
                     pkg_attribData := Some Pending;
                     loadIsDone := true |};
       requests := [dataUrl]; logged := [] |}.
Proof.
  intros Hpkg Hreq Hfs Hi Hoid.
  assert (Hthrow : createAttribSet "OBJECTID" fs = ThrowTypeError).
  { unfold createAttribSet.
    assert (Hidx : indexFeatures "OBJECTID" fs 0 ∅ = ThrowTypeError).
    { apply indexFeatures_throws. exists i, f. split; [exact Hi|].
      unfold objectKey, attr_get. destruct Hoid as [-> | ->]; reflexivity. }
    rewrite Hidx. reflexivity. }
  unfold getAttribs. rewrite Hpkg, Hreq, Hfs, Hthrow. reflexivity.
Qed.

(** X7: when some feature of the answer has no object id under [OBJECTID]
    (the property is absent or [null]), the promise of [getAttribs] is never
    settled although [loadIsDone] is set, and it stays in the package: every
    later call returns it and issues no request. *)
Theorem getAttribs_missing_oid_pending (pkg : layerPackage)
    (webRequest : string -> promise response) (dataUrl : string)
    (res : response) (fs : list feature) (i : nat) (f : feature) :
  pkg_attribData pkg = None ->
  webRequest dataUrl = Fulfilled res ->
  resp_features res = Some fs ->
  fs !! i = Some f ->
  attributes f !! "OBJECTID" = None \/ attributes f !! "OBJECTID" = Some JNull ->
  let first := getAttribs pkg webRequest dataUrl in
  result first = Pending
  /\ loadIsDone (package first) = true
  /\ forall (webRequest' : string -> promise response) (dataUrl' : string),
       let later := getAttribs (package first) webRequest' dataUrl' in
       result later = Pending /\ requests later = [].
Proof.
  intros Hpkg Hreq Hfs Hi Hoid. cbv zeta.
  rewrite (getAttribs_throwing pkg webRequest dataUrl res fs i f Hpkg Hreq Hfs Hi Hoid).
  cbn [result package loadIsDone].
  split; [reflexivity|]. split; [reflexivity|].
  intros webRequest' dataUrl'. split; reflexivity.
Qed.

Lemma getAttribs_missing_oid_pending_witness :
  let first :=
    getAttribs emptyPackage
      (fun _ => answer sampleFields
                  (sampleFeatures ++ [featureOf [("NAME", JStr "Aylmer")]])) "url" in
  result first = Pending
  /\ loadIsDone (package first) = true
  /\ forall (webRequest' : string -> promise response) (dataUrl' : string),
       let later := getAttribs (package first) webRequest' dataUrl' in
       result later = Pending /\ requests later = [].
Proof.
  apply (getAttribs_missing_oid_pending emptyPackage _ "url"
           {| resp_fields := Some sampleFields;
              resp_features :=
                Some (sampleFeatures ++ [featureOf [("NAME", JStr "Aylmer")]]) |}
           _ 2 (featureOf [("NAME", JStr "Aylmer")])
           eq_refl eq_refl eq_refl eq_refl).
  left. vm_compute. reflexivity.
Defined.

(** *** Formatted attributes *)

Lemma substring_all (s : string) : substring 0 (String.length s) s = s.
Proof.
  induction s as [|c s IH]; [reflexivity|].
  cbn [String.length substring]. rewrite IH. reflexivity.
Qed.

Lemma substring_split (n : nat) :
  forall s, n <= String.length s ->
    substring 0 n s +:+ substring n (String.length s - n) s = s.
Proof.
  induction n as [|n IH]; intros s Hn.
  - rewrite Nat.sub_0_r, substring_all. destruct s; reflexivity.
  - destruct s as [|c s]; [cbn in Hn; lia|].
    cbn [String.length] in *.
    change (String c (substring 0 n s +:+ substring n (String.length s - n) s)
            = String c s).
    rewrite IH by lia. reflexivity.
Qed.

(** A name that looks like a call is its stub followed by the brackets. *)
Lemma looksLikeCall_stub (s : string) :
  looksLikeCall s = true -> s = withoutBrackets s +:+ "()".
Proof.
  unfold looksLikeCall, withoutBrackets. intros Hcall.
  apply String.eqb_eq in Hcall.
  destruct (le_lt_dec 2 (String.length s)) as [Hlen|Hlen].
  - rewrite <- Hcall.
    rewrite <- (substring_split (String.length s - 2) s) at 1 by lia.
    do 2 f_equal. lia.
  - destruct s as [|c [|d s]]; cbn in Hcall, Hlen; try discriminate; lia.
Qed.

Lemma looksLikeCall_injective (s t : string) :
  looksLikeCall s = true -> looksLikeCall t = true ->
  withoutBrackets s = withoutBrackets t -> s = t.
Proof.
  intros Hs Ht Heq.
  rewrite (looksLikeCall_stub s Hs), (looksLikeCall_stub t Ht), Heq. reflexivity.
Qed.

Lemma addGetter_lookup (rs : list (gmap string rowval)) (c : column) (i : nat) :
  addGetter rs c !! i
  = (fun r => if looksLikeCall (col_data c)
              then <[withoutBrackets (col_data c) := Getter (col_data c)]> r
              else r) <$> rs !! i.
Proof.
  unfold addGetter. destruct (looksLikeCall (col_data c)).
  - change (List.map ?f rs) with (f <$> rs). apply list_lookup_fmap.
  - destruct (rs !! i); reflexivity.
Qed.

(** The rows keep their places, and a property that is the stub of no
    column keeps its value. *)
Lemma addGetters_other (cols : list column) (k : string) :
  (forall m c, cols !! m = Some c -> looksLikeCall (col_data c) = true ->
     withoutBrackets (col_data c) <> k) ->
  forall rs i row, rs !! i = Some row ->
    exists row', fold_left addGetter cols rs !! i = Some row' /\ row' !! k = row !! k.
Proof.
  induction cols as [|c cols IH] using rev_ind; intros Hno rs i row Hi.
  - exists row. split; [exact Hi | reflexivity].
  - rewrite fold_left_app. cbn [fold_left].
    destruct (IH (fun m c' Hm => Hno m c' (lookup_app_l_Some _ _ _ _ Hm)) rs i row Hi)
      as (row' & Hrow' & Hk).
    rewrite addGetter_lookup, Hrow'. cbn [fmap option_fmap option_map].
    eexists. split; [reflexivity|].
    destruct (looksLikeCall (col_data c)) eqn:Hc; [|exact Hk].
    rewrite lookup_insert_ne; [exact Hk|].
    apply (Hno (length cols) c); [|exact Hc].
    rewrite lookup_app_r by lia. rewrite Nat.sub_diag. reflexivity.
Qed.

Lemma addGetters_defined (cols : list column) :
  forall rs i row, rs !! i = Some row ->
    exists row', fold_left addGetter cols rs !! i = Some row'.
Proof.
  induction cols as [|c cols IH] using rev_ind; intros rs i row Hi; [eauto|].
  rewrite fold_left_app. cbn [fold_left]. rewrite addGetter_lookup.
  destruct (IH rs i row Hi) as (row0 & ->). eauto.
Qed.

(** Under the stub of a column that looks like a call, every row holds the
    function of that column. *)
Lemma addGetters_stub (cols : list column) (n : nat) (c : column) :
  cols !! n = Some c -> looksLikeCall (col_data c) = true ->
  forall rs i row, rs !! i = Some row ->
    exists row', fold_left addGetter cols rs !! i = Some row'
      /\ row' !! withoutBrackets (col_data c) = Some (Getter (col_data c)).
Proof.
  revert n. induction cols as [|d cols IH] using rev_ind; intros n Hn Hc rs i row Hi;
    [discriminate|].
  rewrite fold_left_app. cbn [fold_left]. rewrite addGetter_lookup.
  destruct (addGetters_defined cols rs i row Hi) as (row0 & Hrow0).
  rewrite Hrow0. cbn [fmap option_fmap option_map].
  eexists. split; [reflexivity|].
  destruct (decide (n = length cols)) as [->|Hne].
  - rewrite lookup_app_r in Hn by lia. rewrite Nat.sub_diag in Hn.
    injection Hn as ->. rewrite Hc. apply lookup_insert_eq.
  - assert (Hn' : cols !! n = Some c).
    { apply lookup_lt_Some in Hn as Hlt. rewrite length_app in Hlt. cbn in Hlt.
      rewrite lookup_app_l in Hn by lia. exact Hn. }
    destruct (IH n Hn' Hc rs i row Hi) as (row1 & Hrow1 & Hget).
    assert (row1 = row0) as -> by congruence.
    destruct (looksLikeCall (col_data d)) eqn:Hd; [|exact Hget].
    destruct (decide (withoutBrackets (col_data d) = withoutBrackets (col_data c)))
      as [Heq|Hneq].
    + rewrite (looksLikeCall_injective _ _ Hd Hc Heq). apply lookup_insert_eq.
    + rewrite lookup_insert_ne by exact Hneq. exact Hget.
Qed.

Ltac run_completion := unfold mbind, completion_bind in *.

Lemma addGetters_length (cols : list column) (rs : list (gmap string rowval)) :
  length (fold_left addGetter cols rs) = length rs.
Proof.
  revert rs. induction cols as [|c cols IH]; intros rs; [reflexivity|].
  cbn [fold_left]. rewrite IH. unfold addGetter.
  destruct (looksLikeCall (col_data c)); [apply length_map | reflexivity].
Qed.

Lemma formatRows_lookup (r : renderer) (fs : list feature) :
  forall rs, formatRows r fs = Return rs ->
    length rs = length fs
    /\ forall i f, fs !! i = Some f ->
         exists row, rs !! i = Some row /\ formatRow r f = Return row.
Proof.
  induction fs as [|g fs IH]; intros rs Hrs; cbn [formatRows] in Hrs; run_completion.
  - injection Hrs as <-. split; [reflexivity|]. intros i f Hi. discriminate.
  - destruct (formatRow r g) as [row|] eqn:Hg; [|discriminate].
    destruct (formatRows r fs) as [rest|]; [|discriminate].
    injection Hrs as <-. destruct (IH rest eq_refl) as (Hlen & Hrows).
    split; [cbn; lia|]. intros i f Hi. destruct i as [|i].
    + injection Hi as <-. exists row. split; [reflexivity | exact Hg].
    + apply (Hrows i f Hi).
Qed.

Lemma filterFields_first (aData : attribSet) (first : feature) (fs : list field) :
  features aData !! 0 = Some first ->
  attributes first !! "hasOwnProperty" = None ->
  filterFields aData fs
  = Return (List.filter
              (fun f => bool_decide (is_Some (attributes first !! f_name f))) fs).
Proof.
  intros Hfirst Hmethod. induction fs as [|f fs IH]; [reflexivity|].
  cbn [filterFields List.filter]. unfold firstHasAttribute.
  rewrite Hfirst, Hmethod, IH. reflexivity.
Qed.

(** Whenever the filter returns, it kept the fields that the first feature
    has. *)
Lemma filterFields_returns (aData : attribSet) (first : feature) (fs : list field) :
  features aData !! 0 = Some first ->
  forall shown, filterFields aData fs = Return shown ->
    shown = List.filter
              (fun f => bool_decide (is_Some (attributes first !! f_name f))) fs.
Proof.
  intros Hfirst. induction fs as [|f fs IH]; intros shown Hshown.
  - injection Hshown as <-. reflexivity.
  - cbn [filterFields] in Hshown. unfold firstHasAttribute in Hshown.
    rewrite Hfirst in Hshown.
    destruct (attributes first !! "hasOwnProperty"); [discriminate|].
    run_completion.
    destruct (filterFields aData fs) as [rest|]; [|discriminate].
    injection Hshown as <-. cbn [List.filter]. rewrite (IH rest eq_refl).
    reflexivity.
Qed.

(** X8: the columns are the fields that the first feature has as an
    attribute, in the order of the fields, whatever the other features
    have; the title of a column is the alias of its field, or the name when
    the alias is absent or empty. *)
Theorem formatAttributes_columns (aData : attribSet) (lData : layerData)
    (fmt : formatted) (first : feature) :
  formatAttributes aData lData = Return fmt ->
  features aData !! 0 = Some first ->
  columns fmt
  = List.map (fun f => {| col_data := f_name f;
                          col_title := match f_alias f with
                                       | Some "" | None => f_name f
                                       | Some alias => alias
                                       end |})
      (List.filter (fun f => bool_decide (is_Some (attributes first !! f_name f)))
                   (fields lData)).
Proof.
  intros Hfmt Hfirst. unfold formatAttributes in Hfmt.
  destruct (filterFields aData (fields lData)) as [shown|] eqn:Hshown;
    [|discriminate].
  rewrite (filterFields_returns _ _ _ Hfirst shown Hshown) in Hfmt. run_completion.
  destruct (formatRows (renderer_of lData) (features aData)); [|discriminate].
  injection Hfmt as <-. cbn [columns].
  apply map_ext. intros f. unfold toColumn, truthy_string. f_equal.
  destruct (f_alias f) as [[|c alias]|]; reflexivity.
Qed.

(** X9: for a column whose name ends in [()], the function that every row
    holds under the name without the brackets returns the attribute of the
    feature under the full name, provided that no column's name without
    brackets is this column's name. *)
Theorem formatAttributes_getter (aData : attribSet) (lData : layerData)
    (fmt : formatted) (n : nat) (c : column) (i : nat)
    (row : gmap string rowval) (f : feature) :
  formatAttributes aData lData = Return fmt ->
  columns fmt !! n = Some c ->
  looksLikeCall (col_data c) = true ->
  (forall m c', columns fmt !! m = Some c' -> looksLikeCall (col_data c') = true ->
     withoutBrackets (col_data c') <> col_data c) ->
  rows fmt !! i = Some row ->
  features aData !! i = Some f ->
  row !! withoutBrackets (col_data c) = Some (Getter (col_data c))
  /\ callGetter row (withoutBrackets (col_data c))
     = Attr <$> attributes f !! col_data c.
Proof.
  intros Hfmt Hn Hc Hno Hi Hf. unfold formatAttributes in Hfmt. run_completion.
  destruct (filterFields aData (fields lData)) as [shown|]; [|discriminate].
  destruct (formatRows (renderer_of lData) (features aData)) as [rs|] eqn:Hrs;
    [|discriminate].
  injection Hfmt as <-. cbn [columns rows] in *.
  destruct (formatRows_lookup _ _ _ Hrs) as (_ & Hrows).
  destruct (Hrows i f Hf) as (row0 & Hrow0 & Hformat).
  destruct (addGetters_stub _ n c Hn Hc rs i row0 Hrow0) as (row1 & Hrow1 & Hstub).
  assert (row1 = row) as -> by congruence.
  destruct (addGetters_other _ (col_data c) Hno rs i row0 Hrow0) as (row2 & Hrow2 & Hkeep).
  assert (row2 = row) as -> by congruence.
  split; [exact Hstub|].
  unfold callGetter. rewrite Hstub, Hkeep.
  unfold formatRow in Hformat. run_completion.
  destruct (Matcher.getGraphicIcon _ _) as [icon|]; [|discriminate].
  injection Hformat as <-.
  rewrite lookup_insert_ne by (intros Heq; rewrite <- Heq in Hc; discriminate).
  rewrite lookup_fmap.
  rewrite lookup_insert_ne by (intros Heq; rewrite <- Heq in Hc; discriminate).
  reflexivity.
Qed.

Lemma formatAttributes_columns_witness :
  exists fmt,
    formatAttributes callSet callLayerData = Return fmt
    /\ columns fmt = [ {| col_data := "OBJECTID"; col_title := "OBJECTID" |};
                       {| col_data := "area()"; col_title := "Area" |};
                       {| col_data := "CODE"; col_title := "CODE" |} ].
Proof.
  destruct (formatAttributes callSet callLayerData) as [fmt|] eqn:Hfmt;
    [|vm_compute in Hfmt; discriminate].
  exists fmt. split; [reflexivity|].
  rewrite (formatAttributes_columns callSet callLayerData fmt
             (featureOf [("OBJECTID", JNum 7); ("area()", JNum 12); ("CODE", JStr "a")])
             Hfmt eq_refl).
  vm_compute. reflexivity.
Defined.

Lemma formatAttributes_getter_witness :
  exists fmt row,
    formatAttributes callSet callLayerData = Return fmt
    /\ rows fmt !! 1 = Some row
    /\ row !! "area" = Some (Getter "area()")
    /\ callGetter row "area" = Some (Attr (JNum 30)).
Proof.
  destruct (formatAttributes callSet callLayerData) as [fmt|] eqn:Hfmt;
    [|vm_compute in Hfmt; discriminate].
  pose proof Hfmt as Hvalue. vm_compute in Hvalue. injection Hvalue as Hvalue.
  destruct (rows fmt !! 1) as [row|] eqn:Hrow;
    [|rewrite <- Hvalue in Hrow; vm_compute in Hrow; discriminate].
  exists fmt, row. split; [reflexivity|]. split; [exact Hrow|].
  apply (formatAttributes_getter callSet callLayerData fmt 1
           {| col_data := "area()"; col_title := "Area" |} 1 row
           (featureOf [("OBJECTID", JNum 9); ("area()", JNum 30); ("NOTE", JStr "n")])
           Hfmt).
  - rewrite <- Hvalue. vm_compute. reflexivity.
  - reflexivity.
  - rewrite <- Hvalue. intros m c' Hm Hcall.
    destruct m as [|[|[|m]]]; vm_compute in Hm; try discriminate;
      injection Hm as <-; vm_compute in Hcall |- *; discriminate.
  - exact Hrow.
  - reflexivity.
Defined.

(** *** From the requests to the rows *)

Lemma createAttribSet_returns (oid : string) (fs : list feature) :
  (forall i f, fs !! i = Some f -> objectKey oid f <> None) ->
  exists set, createAttribSet oid fs = Return set /\ features set = fs.
Proof.
  intros Hall. unfold createAttribSet.
  destruct (indexFeatures oid fs 0 ∅) as [index|] eqn:Hindex.
  - eexists. split; reflexivity.
  - apply indexFeatures_throws in Hindex as (i & f & Hi & Hf).
    destruct (Hall i f Hi Hf).
Qed.

Lemma formatRow_simple (f : feature) :
  formatRow simpleRenderer f
  = Return (<["rvSymbol" := Icon (Some Matcher.empty_container)]>
              (Attr <$> <["rvInteractive" := JStr ""]> (attributes f))).
Proof. reflexivity. Qed.

Lemma formatRows_simple (fs : list feature) :
  exists rs, formatRows simpleRenderer fs = Return rs.
Proof.
  induction fs as [|f fs (rs & IH)]; [eexists; reflexivity|].
  cbn [formatRows]. rewrite formatRow_simple, IH. eexists. reflexivity.
Qed.

Lemma filter_lookup_elem {A} (p : A -> bool) (l : list A) (i : nat) (a : A) :
  List.filter p l !! i = Some a -> exists j, l !! j = Some a.
Proof.
  intros Hi. apply list_elem_of_lookup_2, list_elem_of_In, filter_In in Hi as [Hin _].
  apply list_elem_of_In, list_elem_of_lookup_1 in Hin. exact Hin.
Qed.

(** X10: the rows of a feature class whose layer data comes from its own
    request, when no field is named [rvSymbol()] and the first feature has
    no attribute named [hasOwnProperty]: one row per feature, in their
    order, each with the empty icon under [rvSymbol], since the renderer of
    the layer data is a simple one without an icon; a row reads as its
    feature under every other name but [rvInteractive] and the names that a
    field follows with brackets. *)
Theorem getFormattedAttributes_icons (fc : featureClass) (attribsFirst : bool)
    (webRequest : nat -> string -> promise response) (dataUrl : string)
    (ra rl : response) (feats : list feature) (fs : list field) :
  fc_formattedAttributes fc = None ->
  pkg_attribData (fc_package fc) = None ->
  pkg_layerData (fc_package fc) = None ->
  webRequest 0 dataUrl = Fulfilled ra -> resp_features ra = Some feats ->
  webRequest 1 dataUrl = Fulfilled rl -> resp_fields rl = Some fs ->
  feats <> [] ->
  (forall f, feats !! 0 = Some f -> attributes f !! "hasOwnProperty" = None) ->
  (forall i f, feats !! i = Some f -> objectKey "OBJECTID" f <> None) ->
  (forall i f, fs !! i = Some f -> f_name f <> "rvSymbol()") ->
  exists fmt,
    fo_result (getFormattedAttributes fc false attribsFirst webRequest dataUrl)
    = Returned (Fulfilled fmt)
    /\ length (rows fmt) = length feats
    /\ forall i row, rows fmt !! i = Some row ->
         row !! "rvSymbol" = Some (Icon (Some Matcher.empty_container))
         /\ exists f, feats !! i = Some f
              /\ forall name, name <> "rvSymbol" -> name <> "rvInteractive" ->
                 (forall j g, fs !! j = Some g -> f_name g <> name +:+ "()") ->
                 row !! name = Attr <$> attributes f !! name.
Proof.
  intros Hcache Hattr Hld Hreq0 Hfeats Hreq1 Hfs Hne Hmethod Hoid Hnames.
  destruct (createAttribSet_returns "OBJECTID" feats Hoid) as (set & Hset & Hsetf).
  unfold getFormattedAttributes. rewrite Hcache.
  unfold getAttribs. rewrite Hattr, Hreq0, Hfeats, Hset. cbn [package result requests].
  unfold getLayerData. cbn [pkg_layerData]. rewrite Hld. unfold layerDataPromise.
  rewrite Hreq1, Hfs. cbn [package result requests all2].
  destruct feats as [|first feats']; [congruence|].
  unfold formatAttributes. cbn [fields renderer_of oidField].
  rewrite (filterFields_first set first)
    by (first [rewrite Hsetf; reflexivity | exact (Hmethod first eq_refl)]).
  rewrite Hsetf.
  destruct (formatRows_simple (first :: feats')) as (rs & Hrs). rewrite Hrs.
  run_completion. cbn [fo_result].
  eexists. split; [reflexivity|]. cbn [rows].
  destruct (formatRows_lookup _ _ _ Hrs) as (Hlen & Hrows).
  split; [rewrite addGetters_length; exact Hlen|].
  set (cols := List.map toColumn (List.filter _ fs)).
  intros i row Hi.
  assert (Hf : exists f, (first :: feats') !! i = Some f).
  { pose proof (lookup_lt_Some _ _ _ Hi) as Hlt. rewrite addGetters_length in Hlt.
    apply lookup_lt_is_Some. lia. }
  destruct Hf as (f & Hf). destruct (Hrows i f Hf) as (row0 & Hrow0 & Hformat).
  rewrite formatRow_simple in Hformat. injection Hformat as Hformat.
  assert (Hkeep : forall name,
             (forall j g, fs !! j = Some g -> f_name g <> name +:+ "()") ->
             row !! name = row0 !! name).
  { intros name Hname.
    destruct (addGetters_other cols name) with (rs := rs) (i := i) (row := row0)
      as (row' & Hrow' & Hsame); [|exact Hrow0|congruence].
    intros m c Hm Hcall Hstub. unfold cols in Hm.
    change (List.map toColumn ?l) with (toColumn <$> l) in Hm.
    rewrite list_lookup_fmap in Hm.
    destruct (List.filter _ fs !! m) as [g|] eqn:Hg; [|discriminate].
    injection Hm as <-. cbn [toColumn col_data] in *.
    destruct (filter_lookup_elem _ _ _ _ Hg) as (j & Hj).
    apply (Hname j g Hj). rewrite <- Hstub. apply looksLikeCall_stub, Hcall. }
  split.
  - rewrite (Hkeep "rvSymbol") by exact Hnames.
    rewrite <- Hformat. apply lookup_insert_eq.
  - exists f. split; [exact Hf|]. intros name Hsym Hint Hname.
    rewrite (Hkeep name Hname), <- Hformat.
    rewrite lookup_insert_ne by congruence. rewrite !lookup_fmap.
    rewrite lookup_insert_ne by congruence. reflexivity.
Qed.

Lemma getFormattedAttributes_icons_witness :
  exists fmt,
    fo_result (getFormattedAttributes freshClass false true
                 (fun _ _ => answer callFields callFeatures) "url")
    = Returned (Fulfilled fmt)
    /\ length (rows fmt) = 2
    /\ forall i row, rows fmt !! i = Some row ->
         row !! "rvSymbol" = Some (Icon (Some Matcher.empty_container))
         /\ exists f, callFeatures !! i = Some f
              /\ forall name, name <> "rvSymbol" -> name <> "rvInteractive" ->
                 (forall j g, callFields !! j = Some g -> f_name g <> name +:+ "()") ->
                 row !! name = Attr <$> attributes f !! name.
Proof.
  apply (getFormattedAttributes_icons freshClass true
           (fun _ _ => answer callFields callFeatures) "url"
           {| resp_fields := Some callFields; resp_features := Some callFeatures |}
           {| resp_fields := Some callFields; resp_features := Some callFeatures |}
           callFeatures callFields eq_refl eq_refl eq_refl eq_refl eq_refl eq_refl eq_refl).
  - discriminate.
  - intros f Hf. injection Hf as <-. vm_compute. reflexivity.
  - intros i f Hi. destruct i as [|[|i]]; try discriminate;
      injection Hi as <-; vm_compute; discriminate.
  - intros i f Hi. destruct i as [|[|[|[|i]]]]; try discriminate;
      injection Hi as <-; vm_compute; discriminate.
Defined.

(** X11: an answer without features, for a layer with at least one field,
    makes the formatting fail: the promise is rejected with the error
    [Attrib loading failed] and is not kept, although both requests were
    answered. *)
Theorem getFormattedAttributes_no_features (fc : featureClass) (attribsFirst : bool)
    (webRequest : nat -> string -> promise response) (dataUrl : string)
    (ra rl : response) (f : field) (fs : list field) :
  fc_formattedAttributes fc = None ->
  pkg_attribData (fc_package fc) = None ->
  pkg_layerData (fc_package fc) = None ->
  webRequest 0 dataUrl = Fulfilled ra -> resp_features ra = Some [] ->
  webRequest 1 dataUrl = Fulfilled rl -> resp_fields rl = Some (f :: fs) ->
  let out := getFormattedAttributes fc false attribsFirst webRequest dataUrl in
  fo_result out = Returned (Rejected "Attrib loading failed")
  /\ fc_formattedAttributes (fo_class out) = None
  /\ fo_requests out = [dataUrl; dataUrl].
Proof.
  intros Hcache Hattr Hld Hreq0 Hfeats Hreq1 Hfs.
  cbv zeta. unfold getFormattedAttributes. rewrite Hcache.
  unfold getAttribs. rewrite Hattr, Hreq0, Hfeats.
  cbn [createAttribSet indexFeatures]. run_completion.
  cbn [package result requests].
  unfold getLayerData. cbn [pkg_layerData]. rewrite Hld. unfold layerDataPromise.
  rewrite Hreq1, Hfs. cbn [package result requests all2].
  unfold formatAttributes. cbn [fields filterFields]. unfold firstHasAttribute.
  cbn [features]. run_completion. cbn.
  repeat split.
Qed.

Lemma getFormattedAttributes_no_features_witness :
  let out := getFormattedAttributes freshClass false true
               (fun _ _ => answer sampleFields []) "url" in
  fo_result out = Returned (Rejected "Attrib loading failed")
  /\ fc_formattedAttributes (fo_class out) = None
  /\ fo_requests out = ["url"; "url"].
Proof.
  exact (getFormattedAttributes_no_features freshClass true
           (fun _ _ => answer sampleFields []) "url"
           {| resp_fields := Some sampleFields; resp_features := Some [] |}
           {| resp_fields := Some sampleFields; resp_features := Some [] |}
           _ _ eq_refl eq_refl eq_refl eq_refl eq_refl eq_refl eq_refl).
Defined.

(** X12: once the layer data request has been rejected, every call that
    finds no formatted attributes is rejected, issues at most the attribute
    request, and leaves the feature class in that same state: the layer data
    is never requested again. *)
Theorem getFormattedAttributes_layer_failure_permanent (fc : featureClass)
    (attribsFirst : bool) (webRequest : nat -> string -> promise response)
    (dataUrl error : string) :
  fc_formattedAttributes fc = None ->
  pkg_layerData (fc_package fc) = Some (Rejected error) ->
  let out := getFormattedAttributes fc false attribsFirst webRequest dataUrl in
  (exists message, fo_result out = Returned (Rejected message))
  /\ fc_formattedAttributes (fo_class out) = None
  /\ pkg_layerData (fc_package (fo_class out)) = Some (Rejected error)
  /\ (fo_requests out = [] \/ fo_requests out = [dataUrl]).
Proof.
  intros Hcache Hld. cbv zeta. unfold getFormattedAttributes. rewrite Hcache.
  assert (Hkept : pkg_layerData (package (getAttribs (fc_package fc) (webRequest 0) dataUrl))
                  = Some (Rejected error)).
  { unfold getAttribs. destruct (pkg_attribData (fc_package fc)); [exact Hld|].
    destruct (webRequest 0 dataUrl); exact Hld. }
  assert (Hreqs : requests (getAttribs (fc_package fc) (webRequest 0) dataUrl) = []
                  \/ requests (getAttribs (fc_package fc) (webRequest 0) dataUrl) = [dataUrl]).
  { unfold getAttribs. destruct (pkg_attribData (fc_package fc)); [left; reflexivity|].
    destruct (webRequest 0 dataUrl); right; reflexivity. }
  unfold getLayerData. rewrite Hkept. cbn [result package requests].
  rewrite app_nil_r.
  assert (Hall : exists e,
             all2 attribsFirst
               (result (getAttribs (fc_package fc) (webRequest 0) dataUrl))
               (Rejected error : promise layerData) = Rejected e).
  { destruct (result (getAttribs (fc_package fc) (webRequest 0) dataUrl));
      cbn [all2]; eauto. }
  destruct Hall as (e & ->). unfold failed. cbn [fo_result fo_class fo_requests fc_package
    fc_formattedAttributes].
  split; [eauto|]. split; [reflexivity|]. split; [exact Hkept | exact Hreqs].
Qed.

Lemma getFormattedAttributes_layer_failure_permanent_witness :
  let broken :=
    fo_class (getFormattedAttributes freshClass false true
                (fun n _ => match n with
                            | 0 => answer callFields callFeatures
                            | _ => Rejected "timeout"
                            end) "url") in
  let out := getFormattedAttributes broken false true
               (fun _ _ => answer callFields callFeatures) "url" in
  (exists message, fo_result out = Returned (Rejected message))
  /\ fc_formattedAttributes (fo_class out) = None
  /\ pkg_layerData (fc_package (fo_class out)) = Some (Rejected "timeout")
  /\ (fo_requests out = [] \/ fo_requests out = ["url"]).
Proof.
  exact (getFormattedAttributes_layer_failure_permanent
           (fo_class (getFormattedAttributes freshClass false true
                        (fun n _ => match n with
                                    | 0 => answer callFields callFeatures
                                    | _ => Rejected "timeout"
                                    end) "url"))
           true (fun _ _ => answer callFields callFeatures) "url" "timeout"
           eq_refl eq_refl).
Defined.

(** X13: when a feature of the answer has no object id under [OBJECTID] and
    the layer data request is not rejected, the formatted attributes are
    never settled, and every later call returns the same promise without
    any request. *)
Theorem getFormattedAttributes_missing_oid_pending (fc : featureClass)
    (attribsFirst : bool) (webRequest : nat -> string -> promise response)
    (dataUrl : string) (ra : response) (feats : list feature) (i : nat) (f : feature) :
  fc_formattedAttributes fc = None ->
  pkg_attribData (fc_package fc) = None ->
  pkg_layerData (fc_package fc) = None ->
  webRequest 0 dataUrl = Fulfilled ra -> resp_features ra = Some feats ->
  feats !! i = Some f ->
  attributes f !! "OBJECTID" = None \/ attributes f !! "OBJECTID" = Some JNull ->
  (forall error, webRequest 1 dataUrl <> Rejected error) ->
  let out := getFormattedAttributes fc false attribsFirst webRequest dataUrl in
  fo_result out = Returned Pending
  /\ forall (attribsFirst' : bool) (webRequest' : nat -> string -> promise response)
       (dataUrl' : string),
       let later :=
         getFormattedAttributes (fo_class out) false attribsFirst' webRequest' dataUrl' in
       fo_result later = Returned Pending /\ fo_requests later = [].
Proof.
  intros Hcache Hattr Hld Hreq0 Hfeats Hi Hoid Hreq1.
  assert (Hpending : result (getAttribs (fc_package fc) (webRequest 0) dataUrl) = Pending).
  { rewrite (getAttribs_throwing (fc_package fc) (webRequest 0) dataUrl
               ra feats i f Hattr Hreq0 Hfeats Hi Hoid). reflexivity. }
  assert (Hkept : pkg_layerData (package (getAttribs (fc_package fc) (webRequest 0) dataUrl))
                  = None).
  { unfold getAttribs. rewrite Hattr, Hreq0. exact Hld. }
  assert (Hout : getFormattedAttributes fc false attribsFirst webRequest dataUrl
                 = {| fo_result := Returned Pending;
                      fo_class :=
                        {| fc_package :=
                             package (getLayerData
                                        (package (getAttribs (fc_package fc)
                                                    (webRequest 0) dataUrl))
                                        (webRequest 1) dataUrl);
                           fc_formattedAttributes := Some Pending |};
                      fo_requests := [dataUrl; dataUrl] |}).
  { unfold getFormattedAttributes. rewrite Hcache, Hpending.
    assert (Hl : exists p, result (getLayerData
                            (package (getAttribs (fc_package fc) (webRequest 0) dataUrl))
                            (webRequest 1) dataUrl) = p
                   /\ forall error, p <> Rejected error).
    { unfold getLayerData. rewrite Hkept. unfold layerDataPromise.
      destruct (webRequest 1 dataUrl) as [res|error|] eqn:Hw.
      - destruct (resp_fields res); cbn; eexists; (split; [reflexivity|]);
          intros error; discriminate.
      - destruct (Hreq1 error eq_refl).
      - cbn. eexists. split; [reflexivity|]. intros error; discriminate. }
    destruct Hl as (p & Hp & Hnot). rewrite Hp.
    assert (Hreqs : requests (getAttribs (fc_package fc) (webRequest 0) dataUrl)
                    ++ requests (getLayerData
                                   (package (getAttribs (fc_package fc)
                                               (webRequest 0) dataUrl))
                                   (webRequest 1) dataUrl) = [dataUrl; dataUrl]).
    { unfold getLayerData. rewrite Hkept. unfold getAttribs. rewrite Hattr, Hreq0.
      destruct (layerDataPromise (webRequest 1 dataUrl)). reflexivity. }
    rewrite Hreqs.
    destruct p as [ld|error|]; cbn [all2]; [reflexivity | destruct (Hnot error eq_refl)
                                           | reflexivity]. }
  cbv zeta. rewrite Hout. cbn [fo_result fo_class]. split; [reflexivity|].
  intros attribsFirst' webRequest' dataUrl'. split; reflexivity.
Qed.

Lemma getFormattedAttributes_missing_oid_pending_witness :
  let out := getFormattedAttributes freshClass false true
               (fun _ _ => answer sampleFields
                             (sampleFeatures ++ [featureOf [("NAME", JStr "Aylmer")]]))
               "url" in
  fo_result out = Returned Pending
  /\ forall (attribsFirst' : bool) (webRequest' : nat -> string -> promise response)
       (dataUrl' : string),
       let later :=
         getFormattedAttributes (fo_class out) false attribsFirst' webRequest' dataUrl' in
       fo_result later = Returned Pending /\ fo_requests later = [].
Proof.
  apply (getFormattedAttributes_missing_oid_pending freshClass true _ "url"
           {| resp_fields := Some sampleFields;
              resp_features :=
                Some (sampleFeatures ++ [featureOf [("NAME", JStr "Aylmer")]]) |}
           _ 2 (featureOf [("NAME", JStr "Aylmer")])
           eq_refl eq_refl eq_refl eq_refl eq_refl eq_refl).
  - left. vm_compute. reflexivity.
  - intros error. discriminate.
Defined.

End FeatureClassFacts.

(** ** Legends of map services *)

Module ServerLegendFacts.

Import ServerLegend Cases.

Section Rasterizer.

Variable symbolToLegend : option json -> option string -> legendItem.

(** The picture markers of the entries of a server legend are all drawn. *)
Lemma drawChildren_pictures (infos : list serverEntry) :
  Legend.drawChildren (drawPicture symbolToLegend) (List.map toMockInfo infos)
  = Return (List.map (fun e => symbolToLegend (Some (pictureMarker e)) (se_label e))
                     infos).
Proof.
  induction infos as [|e infos IH]; [reflexivity|].
  cbn [List.map Legend.drawChildren]. rewrite IH. reflexivity.
Qed.

(** The legend item of an entry of a server legend. *)
Lemma mockRendererToLegend_items (infos : list serverEntry) :
  mockRendererToLegend symbolToLegend
    {| mr_uniqueValueInfos := List.map toMockInfo infos |}
  = Return
      {| layers :=
           [ {| layerId := None;
                legend := List.map (fun e => symbolToLegend (Some (pictureMarker e))
                                               (se_label e)) infos |} ] |}.
Proof.
  unfold mockRendererToLegend, Legend.scrapeListRenderer.
  cbn [mr_uniqueValueInfos]. rewrite drawChildren_pictures. reflexivity.
Qed.

(** The mock renderer of all layers holds the entries of all layers. *)
Lemma mapServerLegendToRendererAll_entries (sv : serverLegend) :
  mapServerLegendToRendererAll sv
  = {| mr_uniqueValueInfos :=
         List.map toMockInfo (List.concat (List.map sl_legend (sv_layers sv))) |}.
Proof.
  unfold mapServerLegendToRendererAll. f_equal.
  rewrite concat_map, List.map_map. reflexivity.
Qed.

Lemma find_first_lookup {A} (p : A -> bool) (l : list A) (n : nat) (a : A) :
  l !! n = Some a -> p a = true ->
  (forall j b, (j < n)%nat -> l !! j = Some b -> p b = false) ->
  List.find p l = Some a.
Proof.
  revert n. induction l as [|b l IH]; intros n Hn Ha Hbefore; [discriminate|].
  cbn [List.find]. destruct n as [|n].
  - injection Hn as ->. rewrite Ha. reflexivity.
  - rewrite (Hbefore 0%nat b ltac:(lia) eq_refl).
    apply (IH n Hn Ha). intros j c Hj Hc. apply (Hbefore (S j) c); [lia | exact Hc].
Qed.

(** X14: the local legend for a layer index holds one item per entry of the
    first layer of the server legend whose id is the index, in their order,
    each drawn from a picture marker with the image and the label of the
    entry; there is no default entry, and the layer id of the legend is left
    undefined. *)
Theorem mapServerToLocalLegend_entries (request : promise serverLegend)
    (sv : serverLegend) (layerIndex : jsval) (n : nat) (l : serverLayer) :
  request = Fulfilled sv ->
  truthy_string (sv_error sv) = false ->
  layerIndex <> JUndefined ->
  sv_layers sv !! n = Some l ->
  FeatureClass.strict_equal (sl_layerId l) layerIndex = true ->
  (forall j l', (j < n)%nat -> sv_layers sv !! j = Some l' ->
     FeatureClass.strict_equal (sl_layerId l') layerIndex = false) ->
  mapServerToLocalLegend symbolToLegend request layerIndex
  = Fulfilled
      {| layers :=
           [ {| layerId := None;
                legend := List.map (fun e => symbolToLegend (Some (pictureMarker e))
                                               (se_label e)) (sl_legend l) |} ] |}.
Proof.
  intros -> Herr Hidx Hn Hl Hbefore.
  unfold mapServerToLocalLegend, getMapServerLegend. rewrite Herr.
  unfold mapServerLegendToRenderer.
  rewrite (find_first_lookup _ _ n l Hn Hl Hbefore).
  cbn [mbind completion_bind]. rewrite mockRendererToLegend_items.
  destruct layerIndex; try reflexivity. congruence.
Qed.

(** X15: the legend for a layer index is a run of consecutive items of the
    legend for all layers of the same answer. *)
Theorem mapServerToLocalLegend_part_of_all (request : promise serverLegend)
    (layerIndex : jsval) (lg : legendObject) :
  mapServerToLocalLegend symbolToLegend request layerIndex = Fulfilled lg ->
  exists items itemsAll before after,
    layers lg = [ {| layerId := None; legend := items |} ]
    /\ mapServerToLocalLegend symbolToLegend request JUndefined
       = Fulfilled {| layers := [ {| layerId := None; legend := itemsAll |} ] |}
    /\ itemsAll = before ++ items ++ after.
Proof.
  unfold mapServerToLocalLegend.
  destruct (getMapServerLegend request) as [sv|error|]; try discriminate.
  rewrite mapServerLegendToRendererAll_entries, mockRendererToLegend_items.
  cbn [settled]. intros Hlg.
  assert (Hcase : layerIndex = JUndefined \/ layerIndex <> JUndefined)
    by (destruct layerIndex; [left; reflexivity | right; discriminate ..]).
  destruct Hcase as [->|Hidx].
  - injection Hlg as <-. eexists _, _, [], []. split; [reflexivity|].
    split; [reflexivity|]. rewrite app_nil_r. reflexivity.
  - assert (Hone : settled
                     (fakeRenderer ← mapServerLegendToRenderer sv layerIndex;
                      mockRendererToLegend symbolToLegend fakeRenderer)
                   = Fulfilled lg)
      by (destruct layerIndex; congruence).
    clear Hlg. unfold mapServerLegendToRenderer in Hone.
    destruct (List.find _ (sv_layers sv)) as [l|] eqn:Hfind; [|discriminate].
    cbn [mbind completion_bind] in Hone.
    rewrite mockRendererToLegend_items in Hone. injection Hone as <-.
    apply find_some in Hfind as [Hin _].
    apply in_split in Hin as (l1 & l2 & Hsplit).
    eexists _, _, _, _. split; [reflexivity|]. split; [reflexivity|].
    rewrite Hsplit, List.map_app, concat_app, List.map_app.
    cbn [List.map List.concat]. rewrite List.map_app. reflexivity.
Qed.

End Rasterizer.

Lemma mapServerToLocalLegend_entries_witness :
  mapServerToLocalLegend plainRasterizer (Fulfilled sampleLegend) (JNum 1)
  = Fulfilled
      {| layers :=
           [ {| layerId := None;
                legend :=
                  [ plainRasterizer (Some (pictureMarker (legendEntry "Lakes" "BBB=")))
                      (Some "Lakes");
                    plainRasterizer (Some (pictureMarker (legendEntry "Rivers" "CCC=")))
                      (Some "Rivers") ] |} ] |}.
Proof.
  apply (mapServerToLocalLegend_entries plainRasterizer (Fulfilled sampleLegend)
           sampleLegend (JNum 1) 1
           {| sl_layerId := JNum 1;
              sl_legend := [legendEntry "Lakes" "BBB="; legendEntry "Rivers" "CCC="] |}
           eq_refl eq_refl).
  - discriminate.
  - reflexivity.
  - reflexivity.
  - intros j l' Hj Hl'. destruct j as [|j]; [|lia]. injection Hl' as <-. reflexivity.
Defined.

Lemma mapServerToLocalLegend_part_of_all_witness :
  exists lg,
    mapServerToLocalLegend plainRasterizer (Fulfilled sampleLegend) (JNum 1)
    = Fulfilled lg
    /\ exists items itemsAll before after,
         layers lg = [ {| layerId := None; legend := items |} ]
         /\ mapServerToLocalLegend plainRasterizer (Fulfilled sampleLegend) JUndefined
            = Fulfilled {| layers := [ {| layerId := None; legend := itemsAll |} ] |}
         /\ itemsAll = before ++ items ++ after.
Proof.
  eexists. split; [reflexivity|].
  apply (mapServerToLocalLegend_part_of_all plainRasterizer (Fulfilled sampleLegend)
           (JNum 1)).
  reflexivity.
Defined.

End ServerLegendFacts.

(** ** Symbology of a feature class without renderer *)

Module FeatureSymbologyFacts.

Import FeatureClass ServerLegend FeatureSymbology Cases.

Lemma find_string_index (idx : string) (ls : list serverLayer) :
  (forall i layer, ls !! i = Some layer -> exists x, sl_layerId layer = JNum x) ->
  List.find (fun l => strict_equal (sl_layerId l) (JStr idx)) ls = None.
Proof.
  induction ls as [|l ls IH]; intros Hnum; [reflexivity|].
  cbn [List.find]. destruct (Hnum 0%nat l eq_refl) as (x & ->). cbn [strict_equal].
  apply IH. intros i layer Hi. exact (Hnum (S i) layer Hi).
Qed.

Section Environment.

Variable symbolToLegend : option json -> option string -> legendItem.
Variable Symbology : Type.
Variable makeSymbologyArray : list legendItem -> Symbology.

(** X16: the index of a feature class is a string and the layer ids of a
    server legend are numbers, which are never strictly equal: without
    [mergeAllLayers], the promise of [loadSymbology] is rejected whenever
    the legend request is answered, and the symbology stays as it was. *)
Theorem loadSymbology_string_index (l : esriLayer) (idx url : string)
    (symbology : option Symbology)
    (esriRequest : string -> promise serverLegend) (sv : serverLegend) :
  l_url l = Some url -> url <> "" ->
  esriRequest (url +:+ "/legend") = Fulfilled sv ->
  (forall i layer, sv_layers sv !! i = Some layer -> exists x, sl_layerId layer = JNum x) ->
  exists reason,
    loadSymbology symbolToLegend Symbology makeSymbologyArray l idx symbology false
      esriRequest
    = Returned {| ls_promise := Rejected reason; ls_symbology := symbology |}.
Proof.
  intros Hurl Hne Hreq Hnum. unfold loadSymbology. rewrite Hurl.
  cbn [truthy_string]. apply String.eqb_neq in Hne. rewrite Hne. cbn [negb].
  change (default "" (Some url)) with url. rewrite Hreq. unfold mapServerToLocalLegend, getMapServerLegend.
  destruct (truthy_string (sv_error sv)); [eexists; reflexivity|].
  unfold mapServerLegendToRenderer. rewrite (find_string_index idx _ Hnum).
  eexists. reflexivity.
Qed.

(** X17: with [mergeAllLayers], an answered legend request without error
    sets the symbology from the items of all entries of all layers, in the
    order of the answer. *)
Theorem loadSymbology_merged (l : esriLayer) (idx url : string)
    (symbology : option Symbology)
    (esriRequest : string -> promise serverLegend) (sv : serverLegend) :
  l_url l = Some url -> url <> "" ->
  esriRequest (url +:+ "/legend") = Fulfilled sv ->
  truthy_string (sv_error sv) = false ->
  loadSymbology symbolToLegend Symbology makeSymbologyArray l idx symbology true
    esriRequest
  = Returned
      {| ls_promise := Fulfilled ();
         ls_symbology :=
           Some (makeSymbologyArray
                   (List.map (fun e => symbolToLegend (Some (pictureMarker e))
                                         (se_label e))
                             (List.concat (List.map sl_legend (sv_layers sv))))) |}.
Proof.
  intros Hurl Hne Hreq Herr. unfold loadSymbology. rewrite Hurl.
  cbn [truthy_string]. apply String.eqb_neq in Hne. rewrite Hne. cbn [negb].
  change (default "" (Some url)) with url. rewrite Hreq. unfold mapServerToLocalLegend, getMapServerLegend. rewrite Herr.
  rewrite ServerLegendFacts.mapServerLegendToRendererAll_entries,
    ServerLegendFacts.mockRendererToLegend_items.
  reflexivity.
Qed.

End Environment.

Lemma loadSymbology_string_index_witness :
  exists reason,
    loadSymbology plainRasterizer nat (@length legendItem) serviceLayer "1" None false
      (fun _ => Fulfilled sampleLegend)
    = Returned {| ls_promise := Rejected reason; ls_symbology := None |}.
Proof.
  apply (loadSymbology_string_index plainRasterizer nat (@length legendItem)
           serviceLayer "1" "http://maps/service" None
           (fun _ => Fulfilled sampleLegend) sampleLegend eq_refl).
  - discriminate.
  - reflexivity.
  - intros i layer Hi. destruct i as [|[|i]]; try discriminate;
      injection Hi as <-; eexists; reflexivity.
Defined.

Lemma loadSymbology_merged_witness :
  loadSymbology plainRasterizer nat (@length legendItem) serviceLayer "1" None true
    (fun _ => Fulfilled sampleLegend)
  = Returned {| ls_promise := Fulfilled (); ls_symbology := Some 3%nat |}.
Proof.
  rewrite (loadSymbology_merged plainRasterizer nat (@length legendItem)
             serviceLayer "1" "http://maps/service" None
             (fun _ => Fulfilled sampleLegend) sampleLegend eq_refl);
    [reflexivity | discriminate | reflexivity | reflexivity].
Defined.

End FeatureSymbologyFacts.

(** ** Construction of feature classes and image records *)

Module RecordsFacts.

Import Records.

(** X18: [onLoad] of an image record never builds its feature class: the
    constructor of [BasicFC] is called with three arguments, reads [name] of
    the fourth and throws, whatever the configuration of the record. *)
Theorem imageRecordOnLoad_throws (config : fcConfig) :
  imageRecordOnLoad config = ThrowTypeError
  /\ forall (idx : string) (layerPackage : fcConfig),
       (exists fc, newBasicFC idx layerPackage (Some config) = Return fc)
       <-> cfg_state config <> None.
Proof.
  split; [reflexivity|]. intros idx layerPackage. unfold newBasicFC.
  destruct (cfg_state config) as [query|].
  - split; [discriminate | eauto].
  - split; [intros (fc & Hfc); discriminate | congruence].
Qed.

End RecordsFacts.

(** ** Groups without a layer *)

Module FakeGroupFacts.

Import FakeGroup.

Lemma indexOf_first (before after : list proxy) (p : proxy) :
  ~ In p before ->
  forall from, indexOf (before ++ p :: after) p from = from + Z.of_nat (length before).
Proof.
  induction before as [|q before IH]; intros Hnot from; cbn [app indexOf length].
  - rewrite Nat.eqb_refl. lia.
  - destruct (Nat.eqb q p) eqn:Hq.
    + apply Nat.eqb_eq in Hq. destruct Hnot. left. exact Hq.
    + rewrite IH by (intros Hin; apply Hnot; right; exact Hin). lia.
Qed.

Lemma indexOf_absent (l : list proxy) (p : proxy) :
  ~ In p l -> forall from, indexOf l p from = -1.
Proof.
  induction l as [|q l IH]; intros Hnot from; cbn [indexOf]; [reflexivity|].
  destruct (Nat.eqb q p) eqn:Hq.
  - apply Nat.eqb_eq in Hq. destruct Hnot. left. exact Hq.
  - apply IH. intros Hin. apply Hnot. right. exact Hin.
Qed.

Lemma splice_first (before after : list proxy) (p : proxy) :
  ~ In p before ->
  splice1 (before ++ p :: after) (indexOf (before ++ p :: after) p 0) = before ++ after
  /\ (-1 <? indexOf (before ++ p :: after) p 0) = true.
Proof.
  intros Hnot. rewrite (indexOf_first before after p Hnot 0). split.
  - unfold splice1.
    replace (Z.to_nat (0 + Z.of_nat (length before))) with (length before) by lia.
    rewrite take_app_length.
    change (S (length before)) with (1 + length before)%nat.
    rewrite Nat.add_comm, <- drop_drop, drop_app_length. reflexivity.
  - apply Z.ltb_lt. lia.
Qed.

(** X19: [removeChildProxy] takes out the first occurrence of the proxy and
    nothing else: the proxies before and after it keep their order, and a
    proxy that was added twice is still a child after one removal. *)
Theorem removeChildProxy_first_occurrence (g : fakeGroupRecord) (p : proxy)
    (before after : list proxy) :
  _childProxies g = before ++ p :: after ->
  ~ In p before ->
  removeChildProxy g p = {| _name := _name g; _childProxies := before ++ after |}.
Proof.
  intros Hsplit Hnot. unfold removeChildProxy. rewrite Hsplit.
  destruct (splice_first before after p Hnot) as (-> & ->). reflexivity.
Qed.

Lemma removeChildProxy_first_occurrence_witness :
  removeChildProxy
    (addChildProxy (addChildProxy (addChildProxy (newFakeGroupRecord "Group" None) 4%nat)
                      7%nat) 4%nat) 4%nat
  = {| _name := "Group"; _childProxies := [7%nat; 4%nat] |}.
Proof.
  exact (removeChildProxy_first_occurrence
           (addChildProxy (addChildProxy (addChildProxy
              (newFakeGroupRecord "Group" None) 4%nat) 7%nat) 4%nat)
           4%nat [] [7%nat; 4%nat] eq_refl (fun H => H)).
Defined.

(** X20: removing a proxy right after it was added gives back the group,
    when the proxy was not a child before; removing a proxy that is no
    child changes nothing. *)
Theorem removeChildProxy_addChildProxy (g : fakeGroupRecord) (p : proxy) :
  ~ In p (_childProxies g) ->
  removeChildProxy (addChildProxy g p) p = g
  /\ removeChildProxy g p = g.
Proof.
  intros Hnot. split.
  - unfold removeChildProxy, addChildProxy. cbn [_childProxies _name].
    destruct (splice_first (_childProxies g) [] p Hnot) as (-> & ->).
    rewrite app_nil_r. destruct g. reflexivity.
  - unfold removeChildProxy. rewrite (indexOf_absent _ p Hnot 0). reflexivity.
Qed.

Lemma removeChildProxy_addChildProxy_witness :
  let g := newFakeGroupRecord "Group" (Some [1%nat; 2%nat]) in
  removeChildProxy (addChildProxy g 3%nat) 3%nat = g
  /\ removeChildProxy g 3%nat = g.
Proof.
  apply (removeChildProxy_addChildProxy
           (newFakeGroupRecord "Group" (Some [1%nat; 2%nat])) 3%nat).
  intros [H|[H|[]]]; discriminate.
Defined.

End FakeGroupFacts.

(** ** Placeholder symbology *)

Module PlaceholderFacts.

Import Placeholder.

(** X21: [generatePlaceholderSymbology] throws for the empty name and for no
    other; for every other name it returns a promise that is already
    fulfilled, with the name as it was given, the first character in upper
    case as the text and a square of side 28 in the given colour, black by
    default, centred in the container of side 32. *)
Theorem generatePlaceholderSymbology_empty_name (toUpperCase : string -> string)
    (name : string) (colour : option string) :
  (generatePlaceholderSymbology toUpperCase name colour = ThrowTypeError <-> name = "")
  /\ forall first rest, name = String first rest ->
       exists item,
         generatePlaceholderSymbology toUpperCase name colour = Return (Fulfilled item)
         /\ p_name item = name
         /\ text_content (d_text (p_svgcode item)) = toUpperCase (String first "")
         /\ d_rect (p_svgcode item)
            = {| rect_width := 28; rect_height := 28; rect_cx := 16; rect_cy := 16;
                 rect_fill := match colour with
                              | Some c => c
                              | None => "#000"
                              end |}
         /\ (d_width (p_svgcode item), d_height (p_svgcode item)) = (32, 32).
Proof.
  split.
  - destruct name; cbn; split; congruence.
  - intros first rest ->. eexists. split; [reflexivity|]. cbn.
    destruct colour; repeat split.
Qed.

End PlaceholderFacts.

(** ** Icons of graphics *)

Module GraphicFacts.

Import Matcher.

(** X22: whenever [getGraphicIcon] returns, it returns an icon: a branch or a
    renderer without icon gives the empty container, never [undefined]. *)
Theorem getGraphicIcon_defined (attributes : gmap string jsval) (r : renderer)
    (icon : option svgdoc) :
  getGraphicIcon attributes r = Return icon ->
  exists svgcode,
    icon = Some svgcode
    /\ (forall node out, chooseNode attributes r = Return (node, out) ->
          svgcode = default empty_container (ri_svgcode node)).
Proof.
  unfold getGraphicIcon, searchRenderer.
  destruct (chooseNode attributes r) as [[node out]|]; [|discriminate].
  cbn. intros H. injection H as <-.
  destruct (ri_svgcode node) as [code|] eqn:Hcode.
  - exists code. split; [reflexivity|]. intros node' out' H'.
    injection H' as <- _. rewrite Hcode. reflexivity.
  - exists empty_container. split; [reflexivity|]. intros node' out' H'.
    injection H' as <- _. rewrite Hcode. reflexivity.
Qed.

Lemma getGraphicIcon_defined_witness :
  exists svgcode,
    Some empty_container = Some svgcode
    /\ (forall node out,
          chooseNode ∅ FeatureClass.simpleRenderer = Return (node, out) ->
          svgcode = default empty_container (ri_svgcode node)).
Proof.
  exact (getGraphicIcon_defined ∅ FeatureClass.simpleRenderer (Some empty_container)
           eq_refl).
Defined.

End GraphicFacts.
